(** * DarwinCoreReader: the two-pass taxon / vernacular-name processors

    A shallow embedding of [reader.py].  The two processors
    ([BackboneProcessor] and [CatalogueOfLifeProcessor]) read a taxon table
    and then a vernacular-name table, and write [name<TAB>uri] lines to one
    output file per taxonomic class.

    Conventions of the embedding:
    - a Python [str] is a [string]; its characters are the code points
      below 256;
    - a table delivered by [csv.reader] is a [list (list string)]: the
      header row first, then the data rows; a reader whose iteration may
      end with an exception is a [csv_reader], the delivered rows
      together with that exception;
    - the processor object is a [state] record, threaded through a state
      and exception monad: a raised exception stops the computation and
      keeps the mutations made so far, as in Python;
    - Python dictionaries are [gmap]s, the output files are a store from a
      file handle to the list of lines written so far. *)

From stdpp Require Import base option list strings functions gmap fin_maps.
From Stdlib Require Import Ascii String.

Local Open Scope string_scope.

(** ** Strings *)

Definition tab : string := String (ascii_of_nat 9) "".
Definition newline : string := String (ascii_of_nat 10) "".

(** [str.isspace] on one character: the white-space code points below 256
    are 9..13, 28..32, 133 and 160. *)
Definition char_isspace (c : ascii) : bool :=
  let n := nat_of_ascii c in
  (((9 <=? n) && (n <=? 13)) || ((28 <=? n) && (n <=? 32))
   || (n =? 133) || (n =? 160))%nat.

Fixpoint all_space (s : string) : bool :=
  match s with
  | "" => true
  | String c s' => char_isspace c && all_space s'
  end.

(** [s.isspace()]: at least one character, and every character is
    white space. *)
Definition isspace (s : string) : bool :=
  match s with
  | "" => false
  | _ => all_space s
  end.

(** [sep.join(parts)] *)
Definition join (sep : string) (parts : list string) : string :=
  String.concat sep parts.

(** [header.index(key)]: position of the first occurrence, if any. *)
Fixpoint index (key : string) (header : list string) : option nat :=
  match header with
  | [] => None
  | h :: header' =>
      if String.eqb h key then Some 0
      else S <$> index key header'
  end.

(** ** Module-level tables *)

Definition kingdom_class_map : gmap string string :=
  list_to_map
    [ ("Animalia", "Animal_Fauna");
      ("Archaea", "Archaea");
      ("Bacteria", "Bacteria");
      ("Chromista", "Chromista");
      ("Fungi", "Fungi");
      ("Lichen", "Lichen");
      ("Plantae", "Plant_Flora");
      ("Protozoa", "Protozoa");
      ("Taxon", "Taxon");
      ("Viruses", "Viruses") ].

(** The keys of [class_kingdom_map], in the order of the dictionary
    literal; only the keys are used, by [get_out_files]. *)
Definition class_kingdom_map : list (string * option string) :=
  [ ("Animal_Fauna", Some "Animalia");
    ("Archaea", Some "Archaea");
    ("Bacteria", Some "Bacteria");
    ("Chromista", Some "Chromista");
    ("Fungi", Some "Fungi");
    ("Lichen", None);
    ("Plant_Flora", Some "Plantae");
    ("Protozoa", Some "Protozoa");
    ("Taxon", None);
    ("Viruses", Some "Viruses") ].

(** [kingdom_class_map.get(kingdom, "Taxon")] *)
Definition classify (kingdom : string) : string :=
  default "Taxon" (kingdom_class_map !! kingdom).

(** [vernacular_name_sepearator.split(s)] for the pattern [", ?"]: every
    comma, together with one directly following space when there is one,
    ends the current part. *)
Fixpoint vernacular_name_split (s : string) : list string :=
  match s with
  | "" => [""]
  | String c s' =>
      if Ascii.eqb c ","%char then
        match s' with
        | String c' s'' =>
            if Ascii.eqb c' " "%char then "" :: vernacular_name_split s''
            else "" :: vernacular_name_split s'
        | "" => "" :: vernacular_name_split s'
        end
      else
        match vernacular_name_split s' with
        | part :: parts => String c part :: parts
        | [] => [String c ""]
        end
  end.

(** The separators matched by the same pattern, left to right
    ([vernacular_name_sepearator.findall(s)]). *)
Fixpoint vernacular_name_separators (s : string) : list string :=
  match s with
  | "" => []
  | String c s' =>
      if Ascii.eqb c ","%char then
        match s' with
        | String c' s'' =>
            if Ascii.eqb c' " "%char then ", " :: vernacular_name_separators s''
            else "," :: vernacular_name_separators s'
        | "" => "," :: vernacular_name_separators s'
        end
      else vernacular_name_separators s'
  end.

(** ** The processor object and its monad *)

(** The exceptions of the statements of the passes, followed by those
    of the reading of an input file. *)
Inductive exn : Type :=
  | ValueError      (* [header.index(key)]: the column is missing *)
  | IndexError      (* [row[i]]: the row is too short *)
  | TypeError       (* [row[None]]: the attribute still holds [None] *)
  | AttributeError  (* the attribute was never assigned *)
  | KeyError        (* [out_files[clazz]]: no file for the class *)
  | CsvError        (* [_csv.Error]: the csv reader cannot deliver a row *)
  | UnicodeDecodeError  (* an input file is not UTF-8 *)
  | OSError.        (* an input file cannot be opened or read *)

(** The attributes of the processor that hold a column position. *)
Inductive column : Type :=
  | taxon_id | canonical_name_id | kingdom_id
  | language_id | vernacular_name_id
  | identifier_id | accepted_name_usage_id | scientific_name_id
  | generic_name_id | genus_id | specific_epithet_id
  | infraspecific_epithet_id.

Global Instance column_eq_dec : EqDecision column.
Proof. solve_decision. Defined.

(** An output file is identified by its class and by the identifier
    ([""], ["_tx"] or ["_vn"]) that [get_out_files] puts in its name. *)
Abbreviation handle := (string * string)%type.

Record state : Type := State {
  columns : column -> option nat;
  id_kingdom_map : gmap string string;
  taxon_id_identifier_mapping : gmap string string;
  accepted_name_taxon_mapping : gmap string (list (string * string));
  out_files_tx : gmap string handle;
  out_files_vn : gmap string handle;
  files : gmap handle (list string)
}.

Definition set_columns (f : (column -> option nat) -> column -> option nat)
    (st : state) : state :=
  State (f (columns st)) (id_kingdom_map st) (taxon_id_identifier_mapping st)
        (accepted_name_taxon_mapping st) (out_files_tx st) (out_files_vn st)
        (files st).

Definition set_id_kingdom_map (f : gmap string string -> gmap string string)
    (st : state) : state :=
  State (columns st) (f (id_kingdom_map st)) (taxon_id_identifier_mapping st)
        (accepted_name_taxon_mapping st) (out_files_tx st) (out_files_vn st)
        (files st).

Definition set_taxon_id_identifier_mapping
    (f : gmap string string -> gmap string string) (st : state) : state :=
  State (columns st) (id_kingdom_map st) (f (taxon_id_identifier_mapping st))
        (accepted_name_taxon_mapping st) (out_files_tx st) (out_files_vn st)
        (files st).

Definition set_accepted_name_taxon_mapping
    (f : gmap string (list (string * string)) ->
         gmap string (list (string * string))) (st : state) : state :=
  State (columns st) (id_kingdom_map st) (taxon_id_identifier_mapping st)
        (f (accepted_name_taxon_mapping st)) (out_files_tx st)
        (out_files_vn st) (files st).

Definition set_out_files_tx (d : gmap string handle) (st : state) : state :=
  State (columns st) (id_kingdom_map st) (taxon_id_identifier_mapping st)
        (accepted_name_taxon_mapping st) d (out_files_vn st) (files st).

Definition set_out_files_vn (d : gmap string handle) (st : state) : state :=
  State (columns st) (id_kingdom_map st) (taxon_id_identifier_mapping st)
        (accepted_name_taxon_mapping st) (out_files_tx st) d (files st).

Definition set_files
    (f : gmap handle (list string) -> gmap handle (list string))
    (st : state) : state :=
  State (columns st) (id_kingdom_map st) (taxon_id_identifier_mapping st)
        (accepted_name_taxon_mapping st) (out_files_tx st) (out_files_vn st)
        (f (files st)).

Inductive outcome (A : Type) : Type :=
  | Ok (a : A)
  | Raise (e : exn).
Arguments Ok {A} a.
Arguments Raise {A} e.

(** A method of the processor: it runs on the object and returns a value
    or raises, and in both cases leaves the object as mutated so far. *)
Definition M (A : Type) : Type := state -> outcome A * state.

Definition ret {A} (a : A) : M A := fun st => (Ok a, st).

Definition raise {A} (e : exn) : M A := fun st => (Raise e, st).

Definition bind {A B} (m : M A) (k : A -> M B) : M B :=
  fun st =>
    match m st with
    | (Ok a, st') => k a st'
    | (Raise e, st') => (Raise e, st')
    end.

Definition get : M state := fun st => (Ok st, st).

Definition modify (f : state -> state) : M unit := fun st => (Ok tt, f st).

Notation "x <- m ;; k" := (bind m (fun x => k))
  (at level 100, m at next level, right associativity).
Notation "m ;; k" := (bind m (fun _ => k))
  (at level 100, right associativity).

(** [for x in xs: body(x)] *)
Fixpoint for_each {A} (body : A -> M unit) (xs : list A) : M unit :=
  match xs with
  | [] => ret tt
  | x :: xs' => body x ;; for_each body xs'
  end.

(** The configuration given to the constructor.  [filter_languages] is
    [None] when the argument is left out.  The file-naming options
    ([use_subfolders], [file_extension], [base_file_name]) and the
    post-processing switches ([sort], [delete_empty]) act outside the two
    passes and are not part of the embedding. *)
Record config : Type := Config {
  separate_vernacular_names : bool;
  filter_languages : option (gset string);
  build_from_generic_name : bool;
  strip_author : bool
}.

(** ** DarwinCoreProcessor: what the two processors share *)

(** [get_out_files(identifier)]: one file per class of
    [class_kingdom_map], opened for writing and therefore empty. *)
Fixpoint open_files (identifier : string) (classes : list string)
    (d : gmap string handle) : M (gmap string handle) :=
  match classes with
  | [] => ret d
  | clazz :: classes' =>
      modify (set_files <[(clazz, identifier) := []]>) ;;
      open_files identifier classes' (<[clazz := (clazz, identifier)]> d)
  end.

Definition get_out_files (identifier : string) : M (gmap string handle) :=
  open_files identifier (fst <$> class_kingdom_map) ∅.

(** [row[self.c]] *)
Definition row_get (c : column) (row : list string) : M string :=
  st <- get ;;
  match columns st c with
  | None =>
      match c with
      | taxon_id | canonical_name_id | kingdom_id => raise TypeError
      | _ => raise AttributeError
      end
  | Some i =>
      match row !! i with
      | Some field => ret field
      | None => raise IndexError
      end
  end.

(** [self.c = int(header.index(key))] *)
Definition set_column (c : column) (key : string) (header : list string)
    : M unit :=
  match index key header with
  | Some i => modify (set_columns <[c := Some i]>)
  | None => raise ValueError
  end.

Definition get_taxon_id (row : list string) : M string := row_get taxon_id row.

Definition get_kingdom (row : list string) (name : string) : M string :=
  row_get kingdom_id row.

Definition get_vernacular_name (row : list string) : M string :=
  row_get vernacular_name_id row.

Definition get_language (row : list string) : M string :=
  row_get language_id row.

(** [for header in reader: ...; break]: consumes the first row of the
    table, if there is one, and leaves the rest for the next loop. *)
Definition process_vernacular_names_header (reader : list (list string))
    : M (list (list string)) :=
  match reader with
  | [] => ret []
  | header :: rows =>
      set_column taxon_id "taxonID" header ;;
      set_column language_id "language" header ;;
      set_column vernacular_name_id "vernacularName" header ;;
      ret rows
  end.

(** [out_files[clazz].write(line)] *)
Definition write (out_files : state -> gmap string handle) (clazz : string)
    (line : string) : M unit :=
  st <- get ;;
  match out_files st !! clazz with
  | None => raise KeyError
  | Some h =>
      modify (set_files (fun fs => <[h := (default [] (fs !! h) ++ [line])%list]> fs))
  end.

(** [f"{name}\t{base_uri}{suffix}\n"] *)
Definition format_line (base_uri name suffix : string) : string :=
  name +:+ tab +:+ base_uri +:+ suffix +:+ newline.

(** [any((lang == filter_lang) for filter_lang in self.filter_languages)] *)
Definition any_filter_lang (langs : gset string) (lang : string) : bool :=
  existsb (String.eqb lang) (elements langs).

(** The constructor up to the call of [process]: the attributes set by
    [__init__], and the output files. *)
Definition init_base (cfg : config) : M unit :=
  modify (set_id_kingdom_map (fun _ => ∅)) ;;
  (if separate_vernacular_names cfg then
     tx <- get_out_files "_tx" ;;
     modify (set_out_files_tx tx) ;;
     vn <- get_out_files "_vn" ;;
     modify (set_out_files_vn vn)
   else
     tx <- get_out_files "" ;;
     modify (set_out_files_tx tx) ;;
     modify (set_out_files_vn tx)) ;;
  modify (set_columns (fun f => <[taxon_id := None]>
            (<[canonical_name_id := None]> (<[kingdom_id := None]> f)))).

(** [process]: the taxon pass, then the vernacular pass.  The two
    readers are the methods the subclass provides; the vernacular reader
    returns the two counters it reports. *)
Definition process (read_taxon_tsv : list (list string) -> M unit)
    (read_vernacular_names_tsv : list (list string) -> M (nat * nat))
    (taxon_tsv vernacular_name_tsv : list (list string)) : M (nat * nat) :=
  read_taxon_tsv taxon_tsv ;;
  read_vernacular_names_tsv vernacular_name_tsv.

(** The object before the constructor has run. *)
Definition blank : state :=
  State (fun _ => None) ∅ ∅ ∅ ∅ ∅ ∅.

(** [for x in xs: body(x)] where the body updates local variables *)
Fixpoint for_fold {A S} (body : A -> S -> M S) (xs : list A) (s : S) : M S :=
  match xs with
  | [] => ret s
  | x :: xs' => s' <- body x s ;; for_fold body xs' s'
  end.

(** ** BackboneProcessor *)

Module Backbone.

Definition base_uri : string := "https://www.gbif.org/species/".

Definition taxon_id_key : string := "taxonID".
Definition kingdom_key : string := "kingdom".
Definition canonical_name_key : string := "canonicalName".
Definition generic_name_key : string := "genericName".

(** The default of the base class, [{"de", "la"}]. *)
Definition the_filter_languages (cfg : config) : gset string :=
  default {[ "de"; "la" ]} (filter_languages cfg).

(** Inherited from the base class. *)
Definition get_name (row : list string) : M string :=
  row_get canonical_name_id row.

Definition process_taxon_header (reader : list (list string))
    : M (list (list string)) :=
  match reader with
  | [] => ret []
  | header :: rows =>
      set_column taxon_id taxon_id_key header ;;
      set_column canonical_name_id canonical_name_key header ;;
      set_column kingdom_id kingdom_key header ;;
      ret rows
  end.

(** The body of the loop of [read_taxon_tsv]. *)
Definition read_taxon_row (line : list string) : M unit :=
  tid <- get_taxon_id line ;;
  name <- get_name line ;;
  if String.eqb name "" || isspace name then ret tt
  else
    kingdom <- get_kingdom line name ;;
    modify (set_id_kingdom_map <[tid := kingdom]>) ;;
    let clazz := classify kingdom in
    write out_files_tx clazz (format_line base_uri name tid).

Definition read_taxon_tsv (reader : list (list string)) : M unit :=
  rows <- process_taxon_header reader ;;
  for_each read_taxon_row rows.

(** The override repeats the method of the base class. *)
Definition process_vernacular_names_header (reader : list (list string))
    : M (list (list string)) :=
  match reader with
  | [] => ret []
  | header :: rows =>
      set_column taxon_id "taxonID" header ;;
      set_column language_id "language" header ;;
      set_column vernacular_name_id "vernacularName" header ;;
      ret rows
  end.

(** The body of the inner loop, for one of the split names. *)
Definition write_vernacular_name (tid name : string) : M unit :=
  st <- get ;;
  let clazz := classify (default "" (id_kingdom_map st !! tid)) in
  write out_files_vn clazz (format_line base_uri name tid).

(** The body of the loop of [read_vernacular_names_tsv]; the pair is
    [(filtered, all_count)]. *)
Definition read_vernacular_row (cfg : config) (row : list string)
    (counts : nat * nat) : M (nat * nat) :=
  tid <- get_taxon_id row ;;
  vernacular_name <- get_vernacular_name row ;;
  lang <- get_language row ;;
  if any_filter_lang (the_filter_languages cfg) lang then
    for_each (write_vernacular_name tid)
             (vernacular_name_split vernacular_name) ;;
    ret (counts.1, S counts.2)
  else
    ret (S counts.1, S counts.2).

Definition read_vernacular_names_tsv (cfg : config)
    (reader : list (list string)) : M (nat * nat) :=
  rows <- process_vernacular_names_header reader ;;
  for_fold (read_vernacular_row cfg) rows (0, 0).

(** [BackboneProcessor(taxon_tsv, vernacular_name_tsv, ...)] up to the
    end of [process]. *)
Definition run (cfg : config)
    (taxon_tsv vernacular_name_tsv : list (list string)) : M (nat * nat) :=
  init_base cfg ;;
  process read_taxon_tsv (read_vernacular_names_tsv cfg)
          taxon_tsv vernacular_name_tsv.

End Backbone.

(** ** CatalogueOfLifeProcessor *)

Module CatalogueOfLife.

Definition base_uri : string :=
  "http://www.catalogueoflife.org/col/details/species/id/".

Definition taxon_id_key : string := "taxonID".
Definition identifier_id_key : string := "identifier".
Definition accepted_name_usage_id_key : string := "acceptedNameUsageID".
Definition kingdom_key : string := "kingdom".
Definition canonical_name_key : string := "canonicalName".
Definition scientific_name_key : string := "scientificName".
Definition generic_name_key : string := "genericName".
Definition genus_key : string := "genus".
Definition specific_epithet_key : string := "specificEpithet".
Definition infraspecific_epithet_key : string := "infraspecificEpithet".

Definition the_filter_languages (cfg : config) : gset string :=
  default {[ "German"; "Ger"; "Prussian, Old DE"; "Prussian" ]}
          (filter_languages cfg).

Definition process_taxon_header (reader : list (list string))
    : M (list (list string)) :=
  match reader with
  | [] => ret []
  | header :: rows =>
      set_column taxon_id taxon_id_key header ;;
      set_column identifier_id identifier_id_key header ;;
      set_column accepted_name_usage_id accepted_name_usage_id_key header ;;
      set_column scientific_name_id scientific_name_key header ;;
      set_column kingdom_id kingdom_key header ;;
      set_column generic_name_id generic_name_key header ;;
      set_column genus_id genus_key header ;;
      set_column specific_epithet_id specific_epithet_key header ;;
      set_column infraspecific_epithet_id infraspecific_epithet_key header ;;
      ret rows
  end.

Definition get_identifier (row : list string) : M string :=
  row_get identifier_id row.

Section WithRegex.

(** [strip_author_pattern.match(name)], as the first group of the
    match when there is one.  The pattern is written with Unicode
    property classes and is evaluated by the [regex] library; the
    embedding takes its result as given. *)
Variable strip_author_pattern_match : string -> option string.

Definition get_name (cfg : config) (row : list string) : M string :=
  if build_from_generic_name cfg then
    generic_name <- row_get generic_name_id row ;;
    specific_epithet <- row_get specific_epithet_id row ;;
    infraspecific_epithet <- row_get infraspecific_epithet_id row ;;
    ret (join " " [generic_name; specific_epithet; infraspecific_epithet])
  else
    name <- row_get scientific_name_id row ;;
    if strip_author cfg then
      match strip_author_pattern_match name with
      | Some group1 => ret group1
      | None => ret name
      end
    else ret name.

(** The body of the inner loop of [read_taxon_tsv], for one deferred
    taxon. *)
Definition write_other_taxon (clazz identifier : string)
    (other : string * string) : M unit :=
  let '(other_name, other_taxon_id) := other in
  write out_files_tx clazz (format_line base_uri other_name identifier) ;;
  modify (set_taxon_id_identifier_mapping <[other_taxon_id := identifier]>).

(** The body of the loop of [read_taxon_tsv]. *)
Definition read_taxon_row (cfg : config) (row : list string) : M unit :=
  tid <- get_taxon_id row ;;
  identifier <- get_identifier row ;;
  accepted_name_usage <- row_get accepted_name_usage_id row ;;
  modify (set_taxon_id_identifier_mapping <[tid := identifier]>) ;;
  name <- get_name cfg row ;;
  if String.eqb name "" || isspace name || String.eqb name "incertae sedis"
  then ret tt
  else
    kingdom <- get_kingdom row name ;;
    modify (set_id_kingdom_map <[tid := kingdom]>) ;;
    let clazz := classify kingdom in
    if String.eqb identifier "" || isspace identifier then
      st <- get ;;
      let other_taxa :=
        default [] (accepted_name_taxon_mapping st !! accepted_name_usage) in
      modify (set_accepted_name_taxon_mapping
                <[accepted_name_usage := (other_taxa ++ [(name, tid)])%list]>)
    else
      write out_files_tx clazz (format_line base_uri name identifier) ;;
      st <- get ;;
      for_each (write_other_taxon clazz identifier)
               (default [] (accepted_name_taxon_mapping st !! tid)).

Definition read_taxon_tsv (cfg : config) (reader : list (list string))
    : M unit :=
  rows <- process_taxon_header reader ;;
  for_each (read_taxon_row cfg) rows.

End WithRegex.

(** The body of the inner loop, for one of the split names. *)
Definition write_vernacular_name (tid identifier name : string) : M unit :=
  st <- get ;;
  let clazz := classify (default "" (id_kingdom_map st !! tid)) in
  write out_files_vn clazz (format_line base_uri name identifier).

(** The body of the loop of [read_vernacular_names_tsv]; the pair is
    [(filtered, all_count)]. *)
Definition read_vernacular_row (cfg : config) (row : list string)
    (counts : nat * nat) : M (nat * nat) :=
  tid <- get_taxon_id row ;;
  st <- get ;;
  let identifier := default tid (taxon_id_identifier_mapping st !! tid) in
  vernacular_name <- get_vernacular_name row ;;
  lang <- get_language row ;;
  if any_filter_lang (the_filter_languages cfg) lang then
    for_each (write_vernacular_name tid identifier)
             (vernacular_name_split vernacular_name) ;;
    ret (counts.1, S counts.2)
  else
    ret (S counts.1, S counts.2).

(** The header method is the one of the base class. *)
Definition read_vernacular_names_tsv (cfg : config)
    (reader : list (list string)) : M (nat * nat) :=
  rows <- process_vernacular_names_header reader ;;
  for_fold (read_vernacular_row cfg) rows (0, 0).

(** [CatalogueOfLifeProcessor(taxon_tsv, vernacular_name_tsv, ...)] up
    to the end of [process]: the two maps of the subclass are created
    before the constructor of the base class runs. *)
Definition run (strip_author_pattern_match : string -> option string)
    (cfg : config)
    (taxon_tsv vernacular_name_tsv : list (list string)) : M (nat * nat) :=
  modify (set_taxon_id_identifier_mapping (fun _ => ∅)) ;;
  modify (set_accepted_name_taxon_mapping (fun _ => ∅)) ;;
  init_base cfg ;;
  process (read_taxon_tsv strip_author_pattern_match cfg)
          (read_vernacular_names_tsv cfg)
          taxon_tsv vernacular_name_tsv.

End CatalogueOfLife.

(** * Vocabulary of the statements

    Names for the tables, rows and predicates that the properties below
    are stated with. *)

(** The keys of [kingdom_class_map]. *)
Definition known_kingdoms : list string :=
  [ "Animalia"; "Archaea"; "Bacteria"; "Chromista"; "Fungi"; "Lichen";
    "Plantae"; "Protozoa"; "Taxon"; "Viruses" ].

(** The classes an output file is opened for. *)
Definition classes : list string := fst <$> class_kingdom_map.

(** Headers and rows of the tables used in the examples. *)
Definition col_header : list string :=
  [ "taxonID"; "identifier"; "acceptedNameUsageID"; "scientificName";
    "kingdom"; "genericName"; "genus"; "specificEpithet";
    "infraspecificEpithet" ].

(** [keeps f m]: running [m] never changes the component [f] of the
    object, whether [m] returns or raises. *)
Definition keeps {X A : Type} (f : state -> X) (m : M A) : Prop :=
  forall st : state, f (m st).2 = f st.

(** The skip tests of the two taxon loops. *)
Definition backbone_skips (name : string) : bool :=
  String.eqb name "" || isspace name.

Definition col_skips (name : string) : bool :=
  String.eqb name "" || isspace name || String.eqb name "incertae sedis".

Definition blank_identifier (identifier : string) : bool :=
  String.eqb identifier "" || isspace identifier.

Definition backbone_header : list string :=
  ["taxonID"; "kingdom"; "canonicalName"].

Definition col_row_A : list string :=
  ["T1"; ""; "T2"; "Rosa alba L."; "Plantae"; "Rosa"; "Rosa"; "alba"; ""].

Definition col_row_B : list string :=
  ["T2"; "X1"; ""; "Canis lupus L."; "Animalia"; "Canis"; "Canis"; "lupus";
   ""].

(** The inner loop of both vernacular readers: every split name goes to
    the vernacular file of the class of the taxon, with the same URI. *)
Definition write_names (base_uri tid suffix : string) (names : list string)
    : M unit :=
  for_each
    (fun name =>
       st <- get ;;
       write out_files_vn (classify (default "" (id_kingdom_map st !! tid)))
             (format_line base_uri name suffix))
    names.

(** The part of the object that a vernacular row reads. *)
Definition vernacular_view (st : state) :=
  (columns st, id_kingdom_map st, taxon_id_identifier_mapping st,
   out_files_vn st).

(** The two processors, to state what their vernacular passes share. *)
Inductive processor : Type :=
  | BackboneProcessor
  | CatalogueOfLifeProcessor.

Definition read_vernacular_row_of (p : processor) (cfg : config)
    : list string -> nat * nat -> M (nat * nat) :=
  match p with
  | BackboneProcessor => Backbone.read_vernacular_row cfg
  | CatalogueOfLifeProcessor => CatalogueOfLife.read_vernacular_row cfg
  end.

Definition read_vernacular_names_tsv_of (p : processor) (cfg : config)
    : list (list string) -> M (nat * nat) :=
  match p with
  | BackboneProcessor => Backbone.read_vernacular_names_tsv cfg
  | CatalogueOfLifeProcessor => CatalogueOfLife.read_vernacular_names_tsv cfg
  end.

Definition filter_languages_of (p : processor) (cfg : config) : gset string :=
  match p with
  | BackboneProcessor => Backbone.the_filter_languages cfg
  | CatalogueOfLifeProcessor => CatalogueOfLife.the_filter_languages cfg
  end.

Definition base_uri_of (p : processor) : string :=
  match p with
  | BackboneProcessor => Backbone.base_uri
  | CatalogueOfLifeProcessor => CatalogueOfLife.base_uri
  end.

(** The URI suffix of a vernacular row: the taxon identifier, or, for the
    Catalogue of Life, its entry in IdentifierMap when it has one. *)
Definition uri_suffix_of (p : processor) (st : state) (tid : string) : string :=
  match p with
  | BackboneProcessor => tid
  | CatalogueOfLifeProcessor =>
      default tid (taxon_id_identifier_mapping st !! tid)
  end.

(** The field of a row at a position within the row. *)
Definition field (row : list string) (i : nat) : string :=
  default "" (row !! i).

(** The class of the taxon of a vernacular row, by KingdomMap. *)
Definition class_of_taxon (st : state) (tid : string) : string :=
  classify (default "" (id_kingdom_map st !! tid)).

(** The lines a vernacular row contributes to the vernacular file of the
    class [clazz]; [i], [j] and [k] are the positions of the taxon
    identifier, the language and the vernacular name. *)
Definition vernacular_lines (p : processor) (cfg : config) (st : state)
    (i j k : nat) (clazz : string) (row : list string) : list string :=
  if any_filter_lang (filter_languages_of p cfg) (field row j)
     && String.eqb (class_of_taxon st (field row i)) clazz
  then (fun name =>
          format_line (base_uri_of p) name (uri_suffix_of p st (field row i)))
       <$> vernacular_name_split (field row k)
  else [].

(** The language of the row is not one of the filter languages. *)
Definition filtered_out (p : processor) (cfg : config) (j : nat)
    (row : list string) : bool :=
  negb (any_filter_lang (filter_languages_of p cfg) (field row j)).

Definition vernacular_header : list string :=
  ["taxonID"; "language"; "vernacularName"].

(** The columns the Catalogue-of-Life taxon pass locates. *)
Definition col_columns : list column :=
  [ taxon_id; identifier_id; accepted_name_usage_id; scientific_name_id;
    kingdom_id; generic_name_id; genus_id; specific_epithet_id;
    infraspecific_epithet_id ].

(** A row is long enough for the located columns. *)
Definition col_row_ok (cols : column -> option nat) (row : list string)
    : Prop :=
  forall c, c ∈ col_columns ->
            exists i, cols c = Some i /\ i < List.length row.

(** A taxon file is open for every class. *)
Definition tx_open (st : state) : Prop :=
  forall clazz, clazz ∈ classes -> is_Some (out_files_tx st !! clazz).

(** The field of a row in a located column. *)
Definition cell (cols : column -> option nat) (c : column)
    (row : list string) : string :=
  match cols c with
  | Some i => field row i
  | None => ""
  end.

(** The name of a row, as [get_name] builds it from the fields. *)
Definition col_name (strip_author_pattern_match : string -> option string)
    (cfg : config) (cols : column -> option nat) (row : list string)
    : string :=
  if build_from_generic_name cfg then
    join " " [cell cols generic_name_id row; cell cols specific_epithet_id row;
              cell cols infraspecific_epithet_id row]
  else
    let name := cell cols scientific_name_id row in
    if strip_author cfg
    then default name (strip_author_pattern_match name)
    else name.

(** [grows m m']: every list of [m] is still in [m'], under the same key
    and possibly with more elements at its end. *)
Definition grows {K : Type} `{Countable K} {V : Type}
    (m m' : gmap K (list V)) : Prop :=
  forall k l, m !! k = Some l -> exists l', m' !! k = Some (l ++ l')%list.

(** Two states of the taxon pass with the same files, column positions
    and taxon file handles, whose PendingRedirectMaps agree on every key
    but [target]. *)
Definition same_output (target : string) (s s' : state) : Prop :=
  files s = files s' /\
  columns s = columns s' /\
  out_files_tx s = out_files_tx s' /\
  forall k, k <> target ->
            accepted_name_taxon_mapping s !! k
            = accepted_name_taxon_mapping s' !! k.

Definition col_row_C : list string :=
  ["T3"; "X3"; ""; "Boletus edulis Bull."; "Fungi"; "Boletus"; "Boletus";
   "edulis"; ""].

(** The identifiers that the constructor gives to [get_out_files]. *)
Definition tx_identifier (cfg : config) : string :=
  if separate_vernacular_names cfg then "_tx" else "".

Definition vn_identifier (cfg : config) : string :=
  if separate_vernacular_names cfg then "_vn" else "".

(** [leads R m]: running [m] takes every state to a state related to it
    by [R], whether [m] returns or raises. *)
Definition leads {A : Type} (R : state -> state -> Prop) (m : M A) : Prop :=
  forall st : state, R st (m st).2.

(** Nothing written is lost: every file, and every list of
    PendingRedirectMap, still starts with what it held. *)
Definition only_appends (s s' : state) : Prop :=
  grows (files s) (files s') /\
  grows (accepted_name_taxon_mapping s) (accepted_name_taxon_mapping s').

(** The attributes and the column names of the four header methods. *)
Definition backbone_taxon_keys : list (column * string) :=
  [ (taxon_id, Backbone.taxon_id_key);
    (canonical_name_id, Backbone.canonical_name_key);
    (kingdom_id, Backbone.kingdom_key) ].

Definition col_taxon_keys : list (column * string) :=
  [ (taxon_id, CatalogueOfLife.taxon_id_key);
    (identifier_id, CatalogueOfLife.identifier_id_key);
    (accepted_name_usage_id, CatalogueOfLife.accepted_name_usage_id_key);
    (scientific_name_id, CatalogueOfLife.scientific_name_key);
    (kingdom_id, CatalogueOfLife.kingdom_key);
    (generic_name_id, CatalogueOfLife.generic_name_key);
    (genus_id, CatalogueOfLife.genus_key);
    (specific_epithet_id, CatalogueOfLife.specific_epithet_key);
    (infraspecific_epithet_id, CatalogueOfLife.infraspecific_epithet_key) ].

Definition vernacular_keys : list (column * string) :=
  [ (taxon_id, "taxonID"); (language_id, "language");
    (vernacular_name_id, "vernacularName") ].

Inductive header_method : Type :=
  | BackboneTaxonHeader
  | CatalogueOfLifeTaxonHeader
  | BaseVernacularHeader
  | BackboneVernacularHeader.

Definition process_header_of (hm : header_method)
    : list (list string) -> M (list (list string)) :=
  match hm with
  | BackboneTaxonHeader => Backbone.process_taxon_header
  | CatalogueOfLifeTaxonHeader => CatalogueOfLife.process_taxon_header
  | BaseVernacularHeader => process_vernacular_names_header
  | BackboneVernacularHeader => Backbone.process_vernacular_names_header
  end.

Definition keys_of (hm : header_method) : list (column * string) :=
  match hm with
  | BackboneTaxonHeader => backbone_taxon_keys
  | CatalogueOfLifeTaxonHeader => col_taxon_keys
  | BaseVernacularHeader | BackboneVernacularHeader => vernacular_keys
  end.

(** The attribute of [ck] holds the position of the first header cell
    with the column name of [ck]. *)
Definition located (header : list string) (st : state)
    (ck : column * string) : Prop :=
  exists i, columns st ck.1 = Some i /\
            header !! i = Some ck.2 /\
            forall j, j < i -> header !! j <> Some ck.2.

(** Assigning the attributes of a list of keys, one after the other. *)
Definition locate_all (cks : list (column * string)) (header : list string)
    : M unit :=
  for_each (fun ck : column * string => set_column ck.1 ck.2 header) cks.

(** The taxon reader and the whole run of either processor. *)
Definition read_taxon_tsv_of (p : processor)
    (strip_author_pattern_match : string -> option string) (cfg : config)
    : list (list string) -> M unit :=
  match p with
  | BackboneProcessor => Backbone.read_taxon_tsv
  | CatalogueOfLifeProcessor =>
      CatalogueOfLife.read_taxon_tsv strip_author_pattern_match cfg
  end.

Definition run_of (p : processor)
    (strip_author_pattern_match : string -> option string) (cfg : config)
    : list (list string) -> list (list string) -> M (nat * nat) :=
  match p with
  | BackboneProcessor => Backbone.run cfg
  | CatalogueOfLifeProcessor =>
      CatalogueOfLife.run strip_author_pattern_match cfg
  end.

Definition taxon_keys_of (p : processor) : list (column * string) :=
  match p with
  | BackboneProcessor => backbone_taxon_keys
  | CatalogueOfLifeProcessor => col_taxon_keys
  end.

(** The number of occurrences of a character in a string. *)
Fixpoint count_char (a : ascii) (s : string) : nat :=
  match s with
  | "" => 0
  | String c s' => (if Ascii.eqb c a then 1 else 0) + count_char a s'
  end.

(** The line a backbone taxon row contributes to the taxon file of the
    class [clazz]; [i], [n] and [k] are the positions of the taxon
    identifier, the name and the kingdom. *)
Definition backbone_taxon_lines (i n k : nat) (clazz : string)
    (row : list string) : list string :=
  if negb (backbone_skips (field row n))
     && String.eqb (classify (field row k)) clazz
  then [format_line Backbone.base_uri (field row n) (field row i)]
  else [].

(** The row is not skipped and is the row of the taxon [tid]. *)
Definition backbone_row_of (i n : nat) (tid : string) (row : list string)
    : bool :=
  negb (backbone_skips (field row n)) && String.eqb (field row i) tid.

(** Every taxon waiting in PendingRedirectMap has an entry in
    IdentifierMap. *)
Definition pending_known (st : state) : Prop :=
  forall k taxa other,
    accepted_name_taxon_mapping st !! k = Some taxa ->
    other ∈ taxa ->
    is_Some (taxon_id_identifier_mapping st !! other.2).

Definition col_row_B2 : list string :=
  ["T2"; "X2"; ""; "Canis lupus L."; "Animalia"; "Canis"; "Canis"; "lupus";
   "familiaris"].

(** ** Post-processing: [delete_empty]

    The constructor calls [delete_empty] after [process] when its switch
    of the same name is set (the switch is not a field of [config]; the
    method is embedded as a function of its own).  The external sort
    that may run in between is not part of the embedding.  The method
    stands outside the monad of the passes: what it can raise is an
    error of the operating system. *)

Inductive os_error : Type :=
  | FileNotFoundError.   (* [os.stat] on a file that is not there *)

(** [os.stat(file_name).st_size == 0]: the strings written to the file
    add up to nothing. *)
Definition file_is_empty (lines : list string) : bool :=
  String.eqb (String.concat "" lines) "".

(** The loop of [delete_empty] over the file names. *)
Fixpoint remove_empty_files (file_names : list handle)
    (fs : gmap handle (list string)) : os_error + gmap handle (list string) :=
  match file_names with
  | [] => inr fs
  | file_name :: file_names' =>
      match fs !! file_name with
      | None => inl FileNotFoundError
      | Some lines =>
          if file_is_empty lines
          then remove_empty_files file_names' (delete file_name fs)
          else remove_empty_files file_names' fs
      end
  end.

(** [[file.name for file in out_files.values()]].  A [gmap] does not keep
    the insertion order of the dictionary; the loop does not depend on
    the order of distinct names of existing files, which is proved
    below. *)
Definition file_names_of (out_files : gmap string handle) : list handle :=
  (map_to_list out_files).*2.

Definition delete_empty (cfg : config) (st : state) : os_error + state :=
  let file_names :=
    (file_names_of (out_files_tx st)
     ++ (if separate_vernacular_names cfg
         then file_names_of (out_files_vn st) else []))%list in
  match remove_empty_files file_names (files st) with
  | inl e => inl e
  | inr fs => inr (set_files (fun _ => fs) st)
  end.

(** What is left of a file when it is one of the listed names. *)
Definition kept_content (content : option (list string))
    : option (list string) :=
  match content with
  | Some lines => if file_is_empty lines then None else Some lines
  | None => None
  end.

(** The state of the files that the passes maintain between the
    constructor and [delete_empty]: the dictionaries of handles stay as
    they are, files only grow, and a file whose strings are all
    non-empty keeps this property. *)
Definition written_lines (st : state) (h : handle) : Prop :=
  forall lines, files st !! h = Some lines ->
                Forall (fun line => line <> "") lines.

Definition run_invariant (s s' : state) : Prop :=
  out_files_tx s = out_files_tx s' /\
  out_files_vn s = out_files_vn s' /\
  grows (files s) (files s') /\
  forall h, written_lines s h -> written_lines s' h.

(** The handles that [delete_empty] looks at. *)
Definition output_handle (cfg : config) (h : handle) : Prop :=
  h.1 ∈ classes /\ (h.2 = tx_identifier cfg \/ h.2 = vn_identifier cfg).

(** The whole run of the backbone processor in terms of its two tables:
    the kingdom that the vernacular pass finds for a taxon identifier
    (the KingdomMap is empty when the taxon pass starts), and the lines
    of a vernacular row for the file of a class. *)
Definition backbone_kingdom_of (i n k : nat)
    (taxon_rows : list (list string)) (tid : string) : string :=
  match last (List.filter (backbone_row_of i n tid) taxon_rows) with
  | Some row => field row k
  | None => ""
  end.

Definition backbone_vernacular_lines (cfg : config)
    (kingdom_of : string -> string) (i j k : nat) (clazz : string)
    (row : list string) : list string :=
  if any_filter_lang (Backbone.the_filter_languages cfg) (field row j)
     && String.eqb (classify (kingdom_of (field row i))) clazz
  then (fun name => format_line Backbone.base_uri name (field row i))
       <$> vernacular_name_split (field row k)
  else [].

(** ** Reading the input files

    A csv reader over an input file, as the loops that iterate over it
    see it: the rows it delivers, and how the iteration ends, at the end
    of the file or with the exception that the reader ([_csv.Error], for
    one on a field over the size limit), the decoding of the file or the
    file itself raises.  When [linecount] or [open] fails, the iteration
    ends before the first row. *)
Record csv_reader : Type := CsvReader {
  delivered : list (list string);
  ending : option exn
}.

(** A pass over a reader: the header loop and the row loop take the
    delivered rows one after the other, and then meet the end of the
    iteration. *)
Definition read_from {A : Type} (pass : list (list string) -> M A)
    (reader : csv_reader) : M A :=
  a <- pass (delivered reader) ;;
  match ending reader with
  | None => ret a
  | Some e => raise e
  end.

(** [process] over the two input files. *)
Definition process_files (read_taxon_tsv : list (list string) -> M unit)
    (read_vernacular_names_tsv : list (list string) -> M (nat * nat))
    (taxon_file vernacular_name_file : csv_reader) : M (nat * nat) :=
  read_from read_taxon_tsv taxon_file ;;
  read_from read_vernacular_names_tsv vernacular_name_file.

(** The exceptions of a malformed table: a header without one of the
    columns, and a row that is too short. *)
Definition table_error (e : exn) : Prop :=
  e = ValueError \/ e = IndexError.

(** The columns [cs] are located, and a taxon file and a vernacular file
    are open for every class. *)
Definition ready (cs : list column) (st : state) : Prop :=
  (forall c, c ∈ cs -> is_Some (columns st c)) /\
  (forall clazz, clazz ∈ classes ->
                 is_Some (out_files_tx st !! clazz) /\
                 is_Some (out_files_vn st !! clazz)).

(** [runs P m Q]: from a state in [P], [m] returns in a state in [Q], or
    it raises a table error. *)
Definition runs {A : Type} (P : state -> Prop) (m : M A)
    (Q : state -> Prop) : Prop :=
  forall st, P st ->
             match m st with
             | (Ok _, st') => Q st'
             | (Raise e, _) => table_error e
             end.

(** * Properties *)

(** ** Strings and the separator pattern *)

Lemma join_cons2 (sep p q : string) (ps : list string) :
  join sep (p :: q :: ps) = p +:+ sep +:+ join sep (q :: ps).
Proof. reflexivity. Qed.

Lemma vernacular_name_split_nonempty (s : string) :
  vernacular_name_split s <> [].
Proof.
  destruct s as [|c s]; simpl; [discriminate|].
  destruct (Ascii.eqb c ","%char).
  - destruct s as [|c' s]; [discriminate|].
    destruct (Ascii.eqb c' " "%char); discriminate.
  - destruct (vernacular_name_split s); discriminate.
Qed.

Lemma join_String (sep : string) (c : ascii) (p : string) (ps : list string) :
  join sep (String c p :: ps) = String c (join sep (p :: ps)).
Proof. destruct ps; reflexivity. Qed.

Lemma join_empty_head (sep : string) (ps : list string) :
  ps <> [] -> join sep ("" :: ps) = sep +:+ join sep ps.
Proof. destruct ps; [congruence | reflexivity]. Qed.

(** Splitting and rejoining, for every string up to a given length; the
    bound lets the induction reach both the tail and the tail of the
    tail, which is where the split continues after [", "]. *)
Lemma split_join_bounded (sep : string) (n : nat) :
  forall s : string,
    String.length s <= n ->
    Forall (eq sep) (vernacular_name_separators s) ->
    join sep (vernacular_name_split s) = s.
Proof.
  induction n as [|n IH]; intros s Hlen Hseps.
  - destruct s; [reflexivity | simpl in Hlen; lia].
  - destruct s as [|c s]; [reflexivity|].
    simpl in Hlen. simpl in Hseps |- *.
    destruct (Ascii.eqb c ","%char) eqn:Hc.
    + apply Ascii.eqb_eq in Hc; subst c.
      destruct s as [|c' s].
      * apply Forall_cons in Hseps as [-> _]. reflexivity.
      * destruct (Ascii.eqb c' " "%char) eqn:Hc'.
        -- apply Ascii.eqb_eq in Hc'; subst c'.
           apply Forall_cons in Hseps as [-> Hseps].
           rewrite join_empty_head by apply vernacular_name_split_nonempty.
           simpl in Hlen. rewrite IH; [reflexivity | lia | done].
        -- apply Forall_cons in Hseps as [-> Hseps].
           rewrite join_empty_head by apply vernacular_name_split_nonempty.
           rewrite IH; [reflexivity | lia | done].
    + pose proof (vernacular_name_split_nonempty s) as Hne.
      destruct (vernacular_name_split s) as [|p ps] eqn:Hsplit; [done|].
      rewrite join_String. f_equal.
      rewrite <- Hsplit. apply IH; [lia | done].
Qed.

Lemma length_append (s t : string) :
  String.length (s +:+ t) = String.length s + String.length t.
Proof. induction s as [|c s IH]; simpl; [reflexivity | by rewrite IH]. Qed.

(** ** The classifier *)

Lemma classify_unknown (kingdom : string) :
  kingdom ∉ known_kingdoms -> classify kingdom = "Taxon".
Proof.
  intros Hk. unfold classify, kingdom_class_map.
  rewrite not_elem_of_list_to_map_1; [reflexivity | exact Hk].
Qed.

Lemma classify_in_classes (kingdom : string) : classify kingdom ∈ classes.
Proof.
  unfold classify.
  destruct (kingdom_class_map !! kingdom) as [clazz|] eqn:Hk; simpl.
  - apply elem_of_list_to_map_2 in Hk.
    repeat (apply elem_of_cons in Hk as [Hk|Hk];
            [injection Hk as _ ->; vm_compute; set_solver|]).
    by apply elem_of_nil in Hk.
  - vm_compute. set_solver.
Qed.

(** C4: the kingdom-to-class mapping returns the documented class for each
    of the ten known kingdoms and the default class "Taxon" for every
    other string, the empty string included; it is a total function of
    the kingdom alone, and its result is always one of the classes an
    output file exists for. *)
Theorem classify_table_and_default :
  classify "Animalia" = "Animal_Fauna" /\
  classify "Archaea" = "Archaea" /\
  classify "Bacteria" = "Bacteria" /\
  classify "Chromista" = "Chromista" /\
  classify "Fungi" = "Fungi" /\
  classify "Lichen" = "Lichen" /\
  classify "Plantae" = "Plant_Flora" /\
  classify "Protozoa" = "Protozoa" /\
  classify "Taxon" = "Taxon" /\
  classify "Viruses" = "Viruses" /\
  classify "" = "Taxon" /\
  (forall kingdom : string,
      kingdom ∉ known_kingdoms -> classify kingdom = "Taxon") /\
  (forall kingdom : string, classify kingdom ∈ classes).
Proof.
  repeat (split; [vm_compute; reflexivity|]).
  split; [exact classify_unknown | exact classify_in_classes].
Qed.

Lemma classify_table_and_default_witness :
  ("Plantas" ∉ known_kingdoms) /\ classify "Plantas" = "Taxon".
Proof.
  assert (H : "Plantas" ∉ known_kingdoms).
  { unfold known_kingdoms. rewrite !not_elem_of_cons.
    repeat (split; [discriminate|]). apply not_elem_of_nil. }
  split; [exact H|].
  destruct classify_table_and_default
    as (_ & _ & _ & _ & _ & _ & _ & _ & _ & _ & _ & Hdefault & _).
  exact (Hdefault "Plantas" H).
Defined.

(** ** C8: split and rejoin *)

(** C8, as stated, fails: the field ["a,b, c"] contains the separator, and
    no separator string at all rejoins its parts to the field. *)
Lemma split_join_mixed_counterexample :
  vernacular_name_split "a,b, c" = ["a"; "b"; "c"] /\
  forall sep : string, join sep (vernacular_name_split "a,b, c") <> "a,b, c".
Proof.
  split; [reflexivity|].
  intros sep Heq. apply (f_equal String.length) in Heq.
  change (vernacular_name_split "a,b, c") with ["a"; "b"; "c"] in Heq.
  rewrite !join_cons2 in Heq. rewrite !length_append in Heq.
  simpl in Heq. lia.
Qed.

(** C8, amended: when every match of the separator pattern in the field
    is the same string [sep] (a bare comma throughout, or comma and space
    throughout), splitting the field and rejoining the parts with [sep]
    gives the field back. *)
Theorem split_join_uniform (sep s : string) :
  Forall (eq sep) (vernacular_name_separators s) ->
  join sep (vernacular_name_split s) = s.
Proof. apply (split_join_bounded sep (String.length s)). lia. Qed.

Lemma split_join_uniform_witness :
  Forall (eq ", ") (vernacular_name_separators "Hundsrose, Heckenrose") /\
  join ", " (vernacular_name_split "Hundsrose, Heckenrose")
  = "Hundsrose, Heckenrose".
Proof.
  assert (H : Forall (eq ", ")
                (vernacular_name_separators "Hundsrose, Heckenrose")).
  { simpl. repeat constructor. }
  split; [exact H | exact (split_join_uniform ", " _ H)].
Defined.

(** ** Running the monad *)

Lemma bind_Ok {A B} (m : M A) (k : A -> M B) (st st' : state) (a : A) :
  m st = (Ok a, st') -> bind m k st = k a st'.
Proof. intros H. unfold bind. by rewrite H. Qed.

Lemma bind_Raise {A B} (m : M A) (k : A -> M B) (st st' : state) (e : exn) :
  m st = (Raise e, st') -> bind m k st = (Raise e, st').
Proof. intros H. unfold bind. by rewrite H. Qed.

Lemma for_each_app {A} (body : A -> M unit) (xs ys : list A) (st : state) :
  for_each body (xs ++ ys) st
  = bind (for_each body xs) (fun _ => for_each body ys) st.
Proof.
  revert st. induction xs as [|x xs IH]; intros st; simpl.
  - reflexivity.
  - unfold bind in *. destruct (body x st) as [[[]|e] st1]; [|reflexivity].
    apply IH.
Qed.

(** Reading a field leaves the object alone, and its result depends on
    the column positions only. *)
Lemma row_get_state (c : column) (row : list string) (st : state) :
  (row_get c row st).2 = st.
Proof.
  unfold row_get, bind, get. simpl.
  destruct (columns st c) as [i|].
  - by destruct (row !! i).
  - by destruct c.
Qed.

Lemma row_get_columns (c : column) (row : list string) (st st' : state) :
  columns st' = columns st -> (row_get c row st').1 = (row_get c row st).1.
Proof.
  intros Hcols. unfold row_get, bind, get. simpl. rewrite Hcols.
  destruct (columns st c) as [i|].
  - by destruct (row !! i).
  - by destruct c.
Qed.

Lemma row_get_eq (c : column) (row : list string) (st st' : state)
    (v : string) :
  (row_get c row st).1 = Ok v -> columns st' = columns st ->
  row_get c row st' = (Ok v, st').
Proof.
  intros Hv Hcols. rewrite <- (row_get_columns c row st st' Hcols) in Hv.
  pose proof (row_get_state c row st') as Hst.
  destruct (row_get c row st') as [o st'']. simpl in *. congruence.
Qed.

(** A well-placed column: the attribute is set and the row is long
    enough. *)
Lemma row_get_lookup (c : column) (row : list string) (st : state)
    (i : nat) (v : string) :
  columns st c = Some i -> row !! i = Some v ->
  row_get c row st = (Ok v, st).
Proof.
  intros Hc Hv. unfold row_get, bind, get. simpl. by rewrite Hc, Hv.
Qed.

Lemma write_eq (out_files : state -> gmap string handle) (clazz line : string)
    (st : state) (h : handle) :
  out_files st !! clazz = Some h ->
  write out_files clazz line st
  = (Ok tt, set_files
              (fun fs => <[h := (default [] (fs !! h) ++ [line])%list]> fs) st).
Proof. intros Hh. unfold write, bind, get. simpl. by rewrite Hh. Qed.

(** ** C3: the end-to-end example of the backbone processor *)

(** C3: with the taxon table [taxonID kingdom canonicalName] /
    [1 Plantae "Rosa canina"], the vernacular table
    [taxonID language vernacularName] / [1 de "Hundsrose, Heckenrose"]
    and the filter languages [{"de"}], the backbone run completes and
    filters no row out of one.  The taxon file of Plant_Flora then holds
    the one line made of the text Rosa canina, a tab character (code 9),
    the base URI https://www.gbif.org/species/ followed by 1, and a line
    feed (code 10); the vernacular file of Plant_Flora holds the two
    lines of Hundsrose and Heckenrose, built in the same way and in this
    order; every other output file is empty.  The lines are spelled out
    character by character, not through the functions of the
    embedding. *)
Theorem backbone_end_to_end (from_generic strip : bool) :
  let cfg := Config true (Some {[ "de" ]}) from_generic strip in
  let taxon_tsv :=
    [ ["taxonID"; "kingdom"; "canonicalName"];
      ["1"; "Plantae"; "Rosa canina"] ] in
  let vernacular_name_tsv :=
    [ ["taxonID"; "language"; "vernacularName"];
      ["1"; "de"; "Hundsrose, Heckenrose"] ] in
  let result := Backbone.run cfg taxon_tsv vernacular_name_tsv blank in
  result.1 = Ok (0, 1) /\
  Backbone.base_uri = "https://www.gbif.org/species/" /\
  files result.2 !! ("Plant_Flora", "_tx")
  = Some ["Rosa canina"
          +:+ String "009"%char ("https://www.gbif.org/species/1"
                            +:+ String "010"%char "")] /\
  files result.2 !! ("Plant_Flora", "_vn")
  = Some ["Hundsrose"
          +:+ String "009"%char ("https://www.gbif.org/species/1"
                            +:+ String "010"%char "");
          "Heckenrose"
          +:+ String "009"%char ("https://www.gbif.org/species/1"
                            +:+ String "010"%char "")] /\
  forallb (fun file : handle * list string =>
             bool_decide (file.1 ∈ [("Plant_Flora", "_tx");
                                    ("Plant_Flora", "_vn")])
             || bool_decide (file.2 = []))
          (map_to_list (files result.2)) = true.
Proof.
  repeat split; vm_compute; reflexivity.
Qed.

(** ** C7: the composed name *)

(** C7, as stated, fails: in a row whose [genus] and [genericName]
    columns differ, the composed name starts with the [genericName]
    field, not with the [genus] field. *)
Lemma composed_name_genus_counterexample :
  let cfg := Config true None true false in
  let st := (CatalogueOfLife.process_taxon_header [col_header] blank).2 in
  let row :=
    ["T1"; "X1"; ""; "Rosa canina L."; "Plantae"; "Rosa"; "Rubus";
     "canina"; ""] in
  (row_get genus_id row st).1 = Ok "Rubus" /\
  (row_get specific_epithet_id row st).1 = Ok "canina" /\
  (row_get infraspecific_epithet_id row st).1 = Ok "" /\
  (CatalogueOfLife.get_name (fun _ => None) cfg row st).1
  = Ok "Rosa canina " /\
  "Rosa canina " <> join " " ["Rubus"; "canina"; ""].
Proof.
  repeat split; try (vm_compute; reflexivity). discriminate.
Qed.

(** C7, amended: with the composed name strategy, the extracted name of
    every row is the [genericName] field, the specific-epithet field and
    the infraspecific-epithet field joined with single spaces; empty
    fields are kept, so that a name may have doubled or trailing
    spaces. *)
Theorem composed_name_generic_name
    (strip_author_pattern_match : string -> option string) (cfg : config)
    (row : list string) (st : state)
    (generic_name specific_epithet infraspecific_epithet : string) :
  build_from_generic_name cfg = true ->
  (row_get generic_name_id row st).1 = Ok generic_name ->
  (row_get specific_epithet_id row st).1 = Ok specific_epithet ->
  (row_get infraspecific_epithet_id row st).1 = Ok infraspecific_epithet ->
  CatalogueOfLife.get_name strip_author_pattern_match cfg row st
  = (Ok (join " " [generic_name; specific_epithet; infraspecific_epithet]),
     st) /\
  join " " [generic_name; specific_epithet; infraspecific_epithet]
  = generic_name +:+ " " +:+ specific_epithet +:+ " "
    +:+ infraspecific_epithet /\
  join " " [generic_name; ""; ""] = generic_name +:+ "  ".
Proof.
  intros Hcfg Hg Hs Hi. split; [|split; reflexivity].
  unfold CatalogueOfLife.get_name. rewrite Hcfg.
  rewrite (bind_Ok _ _ st st generic_name); [|by apply (row_get_eq _ _ st)].
  rewrite (bind_Ok _ _ st st specific_epithet); [|by apply (row_get_eq _ _ st)].
  rewrite (bind_Ok _ _ st st infraspecific_epithet); [|by apply (row_get_eq _ _ st)].
  reflexivity.
Qed.

Lemma composed_name_generic_name_witness :
  let cfg := Config true None true false in
  let st := (CatalogueOfLife.process_taxon_header [col_header] blank).2 in
  let row :=
    ["T1"; "X1"; ""; "Rosa canina L."; "Plantae"; "Rosa"; "Rubus";
     "canina"; ""] in
  CatalogueOfLife.get_name (fun _ => None) cfg row st
  = (Ok "Rosa canina ", st).
Proof.
  intros cfg st row.
  exact (proj1 (composed_name_generic_name (fun _ => None) cfg row st
                  "Rosa" "canina" "" eq_refl eq_refl eq_refl eq_refl)).
Defined.

(** ** Frames: what a method leaves alone *)

Section Keeps.
Context {X : Type} (f : state -> X).

Lemma keeps_ret {A} (a : A) : keeps f (ret a).
Proof. by intros st. Qed.

Lemma keeps_raise {A} (e : exn) : keeps f (@raise A e).
Proof. by intros st. Qed.

Lemma keeps_get : keeps f get.
Proof. by intros st. Qed.

Lemma keeps_modify (g : state -> state) :
  (forall st, f (g st) = f st) -> keeps f (modify g).
Proof. intros Hg st. apply Hg. Qed.

Lemma keeps_bind {A B} (m : M A) (k : A -> M B) :
  keeps f m -> (forall a, keeps f (k a)) -> keeps f (bind m k).
Proof.
  intros Hm Hk st. unfold bind. specialize (Hm st).
  destruct (m st) as [[a|e] st1]; simpl in *.
  - by rewrite Hk.
  - done.
Qed.

Lemma keeps_for_each {A} (body : A -> M unit) (xs : list A) :
  (forall x, keeps f (body x)) -> keeps f (for_each body xs).
Proof.
  intros Hbody. induction xs as [|x xs IH]; simpl.
  - apply keeps_ret.
  - apply keeps_bind; [apply Hbody | intros _; apply IH].
Qed.

Lemma keeps_for_fold {A S} (body : A -> S -> M S) (xs : list A) (s : S) :
  (forall x s', keeps f (body x s')) -> keeps f (for_fold body xs s).
Proof.
  intros Hbody. revert s. induction xs as [|x xs IH]; intros s; simpl.
  - apply keeps_ret.
  - apply keeps_bind; [apply Hbody | intros s'; apply IH].
Qed.

Lemma keeps_row_get (c : column) (row : list string) :
  keeps f (row_get c row).
Proof. intros st. by rewrite row_get_state. Qed.

Lemma keeps_set_column (c : column) (key : string) (header : list string) :
  (forall g st, f (set_columns g st) = f st) ->
  keeps f (set_column c key header).
Proof.
  intros Hf. unfold set_column. destruct (index key header).
  - apply keeps_modify. intros st. apply Hf.
  - apply keeps_raise.
Qed.

Lemma keeps_write (out_files : state -> gmap string handle)
    (clazz line : string) :
  (forall g st, f (set_files g st) = f st) ->
  keeps f (write out_files clazz line).
Proof.
  intros Hf. unfold write. apply keeps_bind; [apply keeps_get|].
  intros st'. destruct (out_files st' !! clazz).
  - apply keeps_modify. intros st. apply Hf.
  - apply keeps_raise.
Qed.

(** The vernacular pass changes column positions and files only. *)
Hypothesis f_columns : forall g st, f (set_columns g st) = f st.
Hypothesis f_files : forall g st, f (set_files g st) = f st.

Lemma keeps_vernacular_header (reader : list (list string)) :
  keeps f (process_vernacular_names_header reader).
Proof.
  destruct reader as [|header rows]; simpl; [apply keeps_ret|].
  repeat (apply keeps_bind; [by apply keeps_set_column | intros _]).
  apply keeps_ret.
Qed.

Lemma keeps_backbone_vernacular_row (cfg : config) (row : list string)
    (counts : nat * nat) :
  keeps f (Backbone.read_vernacular_row cfg row counts).
Proof.
  unfold Backbone.read_vernacular_row, get_taxon_id, get_vernacular_name,
    get_language.
  apply keeps_bind; [apply keeps_row_get | intros tid].
  apply keeps_bind; [apply keeps_row_get | intros vernacular_name].
  apply keeps_bind; [apply keeps_row_get | intros lang].
  destruct (any_filter_lang _ lang); [|apply keeps_ret].
  apply keeps_bind; [|intros _; apply keeps_ret].
  apply keeps_for_each. intros name. unfold Backbone.write_vernacular_name.
  apply keeps_bind; [apply keeps_get | intros st'].
  by apply keeps_write.
Qed.

Lemma keeps_backbone_vernacular (cfg : config)
    (reader : list (list string)) :
  keeps f (Backbone.read_vernacular_names_tsv cfg reader).
Proof.
  unfold Backbone.read_vernacular_names_tsv.
  apply keeps_bind.
  - apply (keeps_vernacular_header reader).
  - intros rows. apply keeps_for_fold. intros row counts.
    apply keeps_backbone_vernacular_row.
Qed.

Lemma keeps_col_vernacular_row (cfg : config) (row : list string)
    (counts : nat * nat) :
  keeps f (CatalogueOfLife.read_vernacular_row cfg row counts).
Proof.
  unfold CatalogueOfLife.read_vernacular_row, get_taxon_id,
    get_vernacular_name, get_language.
  apply keeps_bind; [apply keeps_row_get | intros tid].
  apply keeps_bind; [apply keeps_get | intros st0].
  apply keeps_bind; [apply keeps_row_get | intros vernacular_name].
  apply keeps_bind; [apply keeps_row_get | intros lang].
  destruct (any_filter_lang _ lang); [|apply keeps_ret].
  apply keeps_bind; [|intros _; apply keeps_ret].
  apply keeps_for_each. intros name.
  unfold CatalogueOfLife.write_vernacular_name.
  apply keeps_bind; [apply keeps_get | intros st'].
  by apply keeps_write.
Qed.

Lemma keeps_col_vernacular (cfg : config) (reader : list (list string)) :
  keeps f (CatalogueOfLife.read_vernacular_names_tsv cfg reader).
Proof.
  unfold CatalogueOfLife.read_vernacular_names_tsv.
  apply keeps_bind.
  - apply keeps_vernacular_header.
  - intros rows. apply keeps_for_fold. intros row counts.
    apply keeps_col_vernacular_row.
Qed.

End Keeps.

(** C9: the vernacular pass of either processor, on any table and from
    any state of the object, leaves KingdomMap, IdentifierMap and
    PendingRedirectMap as they were, whether the pass completes or stops
    at a malformed row; the same holds for every single vernacular
    row. *)
Theorem vernacular_pass_keeps_maps (cfg : config)
    (reader : list (list string)) (row : list string) (counts : nat * nat)
    (st : state) :
  let maps (s : state) :=
    (id_kingdom_map s, taxon_id_identifier_mapping s,
     accepted_name_taxon_mapping s) in
  maps (Backbone.read_vernacular_names_tsv cfg reader st).2 = maps st /\
  maps (CatalogueOfLife.read_vernacular_names_tsv cfg reader st).2 = maps st /\
  maps (Backbone.read_vernacular_row cfg row counts st).2 = maps st /\
  maps (CatalogueOfLife.read_vernacular_row cfg row counts st).2 = maps st.
Proof.
  intros maps.
  split; [by apply (keeps_backbone_vernacular maps)|].
  split; [by apply (keeps_col_vernacular maps)|].
  split; [by apply (keeps_backbone_vernacular_row maps)|].
  by apply (keeps_col_vernacular_row maps).
Qed.

(** ** Reading fields and names *)

(** The name of a Catalogue-of-Life row, like a field, is read without
    changing the object and depends on the column positions only. *)
Lemma col_get_name_state (strip_author_pattern_match : string -> option string)
    (cfg : config) (row : list string) (st : state) :
  (CatalogueOfLife.get_name strip_author_pattern_match cfg row st).2 = st.
Proof.
  unfold CatalogueOfLife.get_name, bind.
  destruct (build_from_generic_name cfg).
  - pose proof (row_get_state generic_name_id row st) as H1.
    destruct (row_get generic_name_id row st) as [[g|e] st1];
      simpl in H1; subst st1; [|done].
    pose proof (row_get_state specific_epithet_id row st) as H2.
    destruct (row_get specific_epithet_id row st) as [[s|e] st2];
      simpl in H2; subst st2; [|done].
    pose proof (row_get_state infraspecific_epithet_id row st) as H3.
    destruct (row_get infraspecific_epithet_id row st) as [[i|e] st3];
      simpl in H3; subst st3; done.
  - pose proof (row_get_state scientific_name_id row st) as H1.
    destruct (row_get scientific_name_id row st) as [[n|e] st1];
      simpl in H1; subst st1; [|done].
    destruct (strip_author cfg); [|done].
    by destruct (strip_author_pattern_match n).
Qed.

Lemma col_get_name_columns
    (strip_author_pattern_match : string -> option string)
    (cfg : config) (row : list string) (st st' : state) :
  columns st' = columns st ->
  (CatalogueOfLife.get_name strip_author_pattern_match cfg row st').1
  = (CatalogueOfLife.get_name strip_author_pattern_match cfg row st).1.
Proof.
  intros Hcols. unfold CatalogueOfLife.get_name, bind.
  destruct (build_from_generic_name cfg).
  - pose proof (row_get_columns generic_name_id row st st' Hcols) as H1.
    pose proof (row_get_state generic_name_id row st) as K1.
    pose proof (row_get_state generic_name_id row st') as K1'.
    destruct (row_get generic_name_id row st) as [o1 st1],
             (row_get generic_name_id row st') as [o1' st1'].
    simpl in *. subst. destruct o1 as [g|e]; [|done].
    pose proof (row_get_columns specific_epithet_id row st st' Hcols) as H2.
    pose proof (row_get_state specific_epithet_id row st) as K2.
    pose proof (row_get_state specific_epithet_id row st') as K2'.
    destruct (row_get specific_epithet_id row st) as [o2 st2],
             (row_get specific_epithet_id row st') as [o2' st2'].
    simpl in *. subst. destruct o2 as [s|e]; [|done].
    pose proof (row_get_columns infraspecific_epithet_id row st st' Hcols)
      as H3.
    destruct (row_get infraspecific_epithet_id row st) as [o3 st3],
             (row_get infraspecific_epithet_id row st') as [o3' st3'].
    simpl in *. subst. by destruct o3.
  - pose proof (row_get_columns scientific_name_id row st st' Hcols) as H1.
    destruct (row_get scientific_name_id row st) as [o1 st1],
             (row_get scientific_name_id row st') as [o1' st1'].
    simpl in *. subst. destruct o1 as [n|e]; [|done].
    destruct (strip_author cfg); [|done].
    by destruct (strip_author_pattern_match n).
Qed.

Lemma col_get_name_eq (strip_author_pattern_match : string -> option string)
    (cfg : config) (row : list string) (st st' : state) (name : string) :
  (CatalogueOfLife.get_name strip_author_pattern_match cfg row st).1 = Ok name ->
  columns st' = columns st ->
  CatalogueOfLife.get_name strip_author_pattern_match cfg row st'
  = (Ok name, st').
Proof.
  intros Hname Hcols.
  rewrite <- (col_get_name_columns _ cfg row st st' Hcols) in Hname.
  pose proof (col_get_name_state strip_author_pattern_match cfg row st') as Hst.
  destruct (CatalogueOfLife.get_name _ cfg row st') as [o st''].
  simpl in *. congruence.
Qed.

(** ** The taxon pass, row by row *)

(** What a taxon row of either processor never touches: anything that
    is not one of the three maps or the file store. *)
Section TaxonRowFrame.
Context {X : Type} (f : state -> X).
Hypothesis f_files : forall g st, f (set_files g st) = f st.
Hypothesis f_kingdom : forall g st, f (set_id_kingdom_map g st) = f st.
Hypothesis f_identifier :
  forall g st, f (set_taxon_id_identifier_mapping g st) = f st.
Hypothesis f_accepted :
  forall g st, f (set_accepted_name_taxon_mapping g st) = f st.

Lemma keeps_backbone_taxon_row (line : list string) :
  keeps f (Backbone.read_taxon_row line).
Proof.
  unfold Backbone.read_taxon_row, get_taxon_id, Backbone.get_name,
    get_kingdom.
  apply keeps_bind; [apply keeps_row_get | intros tid].
  apply keeps_bind; [apply keeps_row_get | intros name].
  destruct (_ || _); [apply keeps_ret|].
  apply keeps_bind; [apply keeps_row_get | intros kingdom].
  apply keeps_bind; [by apply keeps_modify | intros _].
  by apply keeps_write.
Qed.

Lemma keeps_col_get_name
    (strip_author_pattern_match : string -> option string) (cfg : config)
    (row : list string) :
  keeps f (CatalogueOfLife.get_name strip_author_pattern_match cfg row).
Proof. intros st. by rewrite col_get_name_state. Qed.

Lemma keeps_write_other_taxon (clazz identifier : string)
    (other : string * string) :
  keeps f (CatalogueOfLife.write_other_taxon clazz identifier other).
Proof.
  destruct other as [other_name other_taxon_id]. simpl.
  apply keeps_bind; [by apply keeps_write | intros _].
  by apply keeps_modify.
Qed.

Lemma keeps_col_taxon_row
    (strip_author_pattern_match : string -> option string) (cfg : config)
    (row : list string) :
  keeps f (CatalogueOfLife.read_taxon_row strip_author_pattern_match cfg row).
Proof.
  unfold CatalogueOfLife.read_taxon_row, get_taxon_id,
    CatalogueOfLife.get_identifier, get_kingdom.
  apply keeps_bind; [apply keeps_row_get | intros tid].
  apply keeps_bind; [apply keeps_row_get | intros identifier].
  apply keeps_bind; [apply keeps_row_get | intros accepted_name_usage].
  apply keeps_bind; [by apply keeps_modify | intros _].
  apply keeps_bind; [apply keeps_col_get_name | intros name].
  destruct (_ || _); [apply keeps_ret|].
  apply keeps_bind; [apply keeps_row_get | intros kingdom].
  apply keeps_bind; [by apply keeps_modify | intros _].
  destruct (_ || _).
  - apply keeps_bind; [apply keeps_get | intros st'].
    by apply keeps_modify.
  - apply keeps_bind; [by apply keeps_write | intros _].
    apply keeps_bind; [apply keeps_get | intros st'].
    apply keeps_for_each. intros other. apply keeps_write_other_taxon.
Qed.

End TaxonRowFrame.

Lemma backbone_skips_true (name : string) :
  name = "" \/ isspace name = true -> backbone_skips name = true.
Proof.
  unfold backbone_skips. intros [-> | ->]; [reflexivity|].
  apply orb_true_r.
Qed.

Lemma col_skips_true (name : string) :
  name = "" \/ isspace name = true \/ name = "incertae sedis" ->
  col_skips name = true.
Proof.
  unfold col_skips. intros [-> | [-> | ->]]; [reflexivity| |reflexivity].
  by rewrite orb_true_r.
Qed.

(** A backbone taxon row that is not skipped. *)
Lemma backbone_taxon_row_written (line : list string) (st : state)
    (tid name kingdom : string) (h : handle) :
  (get_taxon_id line st).1 = Ok tid ->
  (Backbone.get_name line st).1 = Ok name ->
  backbone_skips name = false ->
  (get_kingdom line name st).1 = Ok kingdom ->
  out_files_tx st !! classify kingdom = Some h ->
  Backbone.read_taxon_row line st
  = (Ok tt,
     set_files
       (fun fs =>
          <[h := (default [] (fs !! h)
                  ++ [format_line Backbone.base_uri name tid])%list]> fs)
       (set_id_kingdom_map <[tid := kingdom]> st)).
Proof.
  intros Htid Hname Hskip Hkingdom Hh. unfold Backbone.read_taxon_row.
  rewrite (bind_Ok _ _ st st tid); [|by apply (row_get_eq _ _ st)].
  rewrite (bind_Ok _ _ st st name); [|by apply (row_get_eq _ _ st)].
  fold (backbone_skips name). rewrite Hskip.
  rewrite (bind_Ok _ _ st st kingdom); [|by apply (row_get_eq _ _ st)].
  unfold bind at 1. simpl. by apply write_eq.
Qed.

(** The loop over the deferred taxa of a resolving row. *)
Lemma write_other_taxa_run (clazz identifier : string) (h : handle)
    (pending : list (string * string)) :
  forall st : state,
    out_files_tx st !! clazz = Some h ->
    exists st' : state,
      for_each (CatalogueOfLife.write_other_taxon clazz identifier) pending st
      = (Ok tt, st') /\
      default [] (files st' !! h)
      = (default [] (files st !! h)
         ++ ((fun other : string * string =>
                format_line CatalogueOfLife.base_uri other.1 identifier)
             <$> pending))%list /\
      (forall h', h' <> h -> files st' !! h' = files st !! h') /\
      (forall t, t ∈ pending.*2 ->
                 taxon_id_identifier_mapping st' !! t = Some identifier) /\
      (forall t, t ∉ pending.*2 ->
                 taxon_id_identifier_mapping st' !! t
                 = taxon_id_identifier_mapping st !! t).
Proof.
  induction pending as [|[other_name other_taxon_id] pending IH];
    intros st Hh.
  - exists st. simpl. rewrite app_nil_r. repeat split; try done.
    intros t Ht. by apply elem_of_nil in Ht.
  - simpl.
    set (st1 := set_taxon_id_identifier_mapping
                  <[other_taxon_id := identifier]>
                  (set_files
                     (fun fs =>
                        <[h := (default [] (fs !! h)
                                ++ [format_line CatalogueOfLife.base_uri
                                      other_name identifier])%list]> fs) st)).
    destruct (IH st1 Hh) as (st' & Hrun & Hfile & Hother & Hin & Hout).
    exists st'. split.
    { unfold bind at 1. unfold bind at 1.
      rewrite (write_eq out_files_tx clazz _ st h Hh). simpl. exact Hrun. }
    split.
    { rewrite Hfile. simpl. rewrite lookup_insert_eq. simpl.
      by rewrite <- app_assoc. }
    split.
    { intros h' Hne. rewrite Hother by done. simpl.
      by rewrite lookup_insert_ne. }
    split.
    { intros t Ht. destruct (decide (t ∈ pending.*2)) as [Hp|Hp].
      - by apply Hin.
      - rewrite Hout by done. apply elem_of_cons in Ht as [-> | Ht]; [|done].
        simpl. by rewrite lookup_insert_eq. }
    intros t Ht. apply not_elem_of_cons in Ht as [Hne Ht].
    rewrite Hout by done. simpl. by rewrite lookup_insert_ne.
Qed.

Section CoLTaxonRow.
Variable strip_author_pattern_match : string -> option string.
Variable cfg : config.
Variables (row : list string) (st : state).
Variables (tid identifier accepted_name_usage name : string).
Hypothesis read_tid : (get_taxon_id row st).1 = Ok tid.
Hypothesis read_identifier :
  (CatalogueOfLife.get_identifier row st).1 = Ok identifier.
Hypothesis read_accepted :
  (row_get accepted_name_usage_id row st).1 = Ok accepted_name_usage.
Hypothesis read_name :
  (CatalogueOfLife.get_name strip_author_pattern_match cfg row st).1 = Ok name.

(** A skipped row only records its identifier. *)
Lemma col_taxon_row_skipped :
  col_skips name = true ->
  CatalogueOfLife.read_taxon_row strip_author_pattern_match cfg row st
  = (Ok tt, set_taxon_id_identifier_mapping <[tid := identifier]> st).
Proof.
  intros Hskip. unfold CatalogueOfLife.read_taxon_row.
  rewrite (bind_Ok _ _ st st tid); [|by apply (row_get_eq _ _ st)].
  rewrite (bind_Ok _ _ st st identifier); [|by apply (row_get_eq _ _ st)].
  rewrite (bind_Ok _ _ st st accepted_name_usage);
    [|by apply (row_get_eq _ _ st)].
  unfold bind at 1. simpl.
  erewrite bind_Ok; [|by apply (col_get_name_eq _ _ _ st)].
  fold (col_skips name). by rewrite Hskip.
Qed.

(** A row without identifier is deferred: nothing is written. *)
Lemma col_taxon_row_deferred (kingdom : string) :
  col_skips name = false ->
  (get_kingdom row name st).1 = Ok kingdom ->
  blank_identifier identifier = true ->
  CatalogueOfLife.read_taxon_row strip_author_pattern_match cfg row st
  = (Ok tt,
     set_accepted_name_taxon_mapping
       <[accepted_name_usage :=
           (default [] (accepted_name_taxon_mapping st !! accepted_name_usage)
            ++ [(name, tid)])%list]>
       (set_id_kingdom_map <[tid := kingdom]>
          (set_taxon_id_identifier_mapping <[tid := identifier]> st))).
Proof.
  intros Hskip Hkingdom Hblank. unfold CatalogueOfLife.read_taxon_row.
  rewrite (bind_Ok _ _ st st tid); [|by apply (row_get_eq _ _ st)].
  rewrite (bind_Ok _ _ st st identifier); [|by apply (row_get_eq _ _ st)].
  rewrite (bind_Ok _ _ st st accepted_name_usage);
    [|by apply (row_get_eq _ _ st)].
  unfold bind at 1. simpl.
  erewrite bind_Ok; [|by apply (col_get_name_eq _ _ _ st)].
  fold (col_skips name). rewrite Hskip.
  erewrite bind_Ok; [|by apply (row_get_eq _ _ st)].
  unfold bind at 1. simpl.
  fold (blank_identifier identifier). rewrite Hblank.
  reflexivity.
Qed.

(** A row with an identifier is written and resolves the taxa deferred
    to its taxon identifier. *)
Lemma col_taxon_row_resolving (kingdom : string) (h : handle) :
  col_skips name = false ->
  (get_kingdom row name st).1 = Ok kingdom ->
  blank_identifier identifier = false ->
  out_files_tx st !! classify kingdom = Some h ->
  let pending := default [] (accepted_name_taxon_mapping st !! tid) in
  exists st' : state,
    CatalogueOfLife.read_taxon_row strip_author_pattern_match cfg row st
    = (Ok tt, st') /\
    files st' !! h
    = Some (default [] (files st !! h)
            ++ format_line CatalogueOfLife.base_uri name identifier
               :: ((fun other : string * string =>
                      format_line CatalogueOfLife.base_uri other.1 identifier)
                   <$> pending))%list /\
    (forall h', h' <> h -> files st' !! h' = files st !! h') /\
    (forall t, t ∈ tid :: pending.*2 ->
               taxon_id_identifier_mapping st' !! t = Some identifier) /\
    (forall t, t ∉ tid :: pending.*2 ->
               taxon_id_identifier_mapping st' !! t
               = taxon_id_identifier_mapping st !! t) /\
    accepted_name_taxon_mapping st' = accepted_name_taxon_mapping st /\
    id_kingdom_map st' = <[tid := kingdom]> (id_kingdom_map st).
Proof.
  intros Hskip Hkingdom Hblank Hh pending.
  set (st1 := set_files
                (fun fs =>
                   <[h := (default [] (fs !! h)
                           ++ [format_line CatalogueOfLife.base_uri name
                                 identifier])%list]> fs)
                (set_id_kingdom_map <[tid := kingdom]>
                   (set_taxon_id_identifier_mapping <[tid := identifier]> st))).
  destruct (write_other_taxa_run (classify kingdom) identifier h pending
              st1 Hh) as (st' & Hrun & Hfile & Hother & Hin & Hout).
  exists st'. split.
  { unfold CatalogueOfLife.read_taxon_row.
    rewrite (bind_Ok _ _ st st tid); [|by apply (row_get_eq _ _ st)].
    rewrite (bind_Ok _ _ st st identifier); [|by apply (row_get_eq _ _ st)].
    rewrite (bind_Ok _ _ st st accepted_name_usage);
      [|by apply (row_get_eq _ _ st)].
    unfold bind at 1. simpl.
    erewrite bind_Ok; [|by apply (col_get_name_eq _ _ _ st)].
    fold (col_skips name). rewrite Hskip.
    erewrite bind_Ok; [|by apply (row_get_eq _ _ st)].
    unfold bind at 1. simpl.
    fold (blank_identifier identifier). rewrite Hblank.
    erewrite bind_Ok; [|by apply write_eq].
    unfold bind at 1. simpl. exact Hrun. }
  assert (Hlines :
            default [] (files st' !! h)
            = (default [] (files st !! h)
               ++ format_line CatalogueOfLife.base_uri name identifier
                  :: ((fun other : string * string =>
                         format_line CatalogueOfLife.base_uri other.1
                           identifier) <$> pending))%list).
  { rewrite Hfile. simpl. rewrite lookup_insert_eq. simpl.
    by rewrite <- app_assoc. }
  split.
  { destruct (files st' !! h) as [lines|] eqn:Hlookup.
    - simpl in Hlines. by rewrite Hlines.
    - simpl in Hlines. symmetry in Hlines.
      by apply app_eq_nil in Hlines as [_ ?]. }
  split.
  { intros h' Hne. rewrite Hother by done. simpl.
    by rewrite lookup_insert_ne. }
  split.
  { intros t Ht. destruct (decide (t ∈ pending.*2)) as [Hp|Hp].
    - by apply Hin.
    - rewrite Hout by done. apply elem_of_cons in Ht as [-> | Ht]; [|done].
      simpl. by rewrite lookup_insert_eq. }
  split.
  { intros t Ht. apply not_elem_of_cons in Ht as [Hne Ht].
    rewrite Hout by done. simpl. by rewrite lookup_insert_ne. }
  assert (Hkeeps :
            keeps (fun s => (accepted_name_taxon_mapping s, id_kingdom_map s))
              (for_each
                 (CatalogueOfLife.write_other_taxon (classify kingdom)
                    identifier) pending)).
  { apply keeps_for_each. intros other. by apply keeps_write_other_taxon. }
  specialize (Hkeeps st1). rewrite Hrun in Hkeeps. simpl in Hkeeps.
  by injection Hkeeps as -> ->.
Qed.

End CoLTaxonRow.

(** ** C6: rows that are skipped *)

(** C6: a taxon row whose name is empty or all white space is skipped by
    both processors: no line is written and KingdomMap gets no entry (the
    backbone processor leaves the whole object unchanged, the
    Catalogue-of-Life processor has only recorded the identifier of the
    row).  The Catalogue-of-Life processor skips a row named
    "incertae sedis" in the same way; the backbone processor writes such
    a row and enters it in KingdomMap like any other. *)
Theorem skipped_taxon_rows
    (strip_author_pattern_match : string -> option string) (cfg : config)
    (row : list string) (st : state) (tid name : string) :
  (get_taxon_id row st).1 = Ok tid ->
  ((Backbone.get_name row st).1 = Ok name ->
   name = "" \/ isspace name = true ->
   Backbone.read_taxon_row row st = (Ok tt, st)) /\
  (forall identifier accepted_name_usage : string,
     (CatalogueOfLife.get_identifier row st).1 = Ok identifier ->
     (row_get accepted_name_usage_id row st).1 = Ok accepted_name_usage ->
     (CatalogueOfLife.get_name strip_author_pattern_match cfg row st).1
     = Ok name ->
     name = "" \/ isspace name = true \/ name = "incertae sedis" ->
     let result :=
       CatalogueOfLife.read_taxon_row strip_author_pattern_match cfg row st in
     result.1 = Ok tt /\
     files result.2 = files st /\
     id_kingdom_map result.2 = id_kingdom_map st /\
     accepted_name_taxon_mapping result.2 = accepted_name_taxon_mapping st) /\
  (forall (kingdom : string) (h : handle),
     (Backbone.get_name row st).1 = Ok name ->
     name = "incertae sedis" ->
     (get_kingdom row name st).1 = Ok kingdom ->
     out_files_tx st !! classify kingdom = Some h ->
     let result := Backbone.read_taxon_row row st in
     result.1 = Ok tt /\
     files result.2 !! h
     = Some (default [] (files st !! h)
             ++ [format_line Backbone.base_uri "incertae sedis" tid])%list /\
     id_kingdom_map result.2 !! tid = Some kingdom).
Proof.
  intros Htid. split; [|split].
  - intros Hname Hblank. unfold Backbone.read_taxon_row.
    rewrite (bind_Ok _ _ st st tid); [|by apply (row_get_eq _ _ st)].
    rewrite (bind_Ok _ _ st st name); [|by apply (row_get_eq _ _ st)].
    fold (backbone_skips name). by rewrite backbone_skips_true.
  - intros identifier accepted_name_usage Hidentifier Haccepted Hname Hskip.
    rewrite (col_taxon_row_skipped strip_author_pattern_match cfg row st tid
               identifier accepted_name_usage name) by
      (done || by apply col_skips_true).
    by simpl.
  - intros kingdom h Hname -> Hkingdom Hh.
    rewrite (backbone_taxon_row_written row st tid "incertae sedis" kingdom h)
      by done.
    simpl. by rewrite !lookup_insert_eq.
Qed.

Lemma skipped_taxon_rows_witness :
  let cfg := Config true None true false in
  let bst := (Backbone.process_taxon_header [backbone_header]
                (init_base cfg blank).2).2 in
  let cst := (CatalogueOfLife.process_taxon_header [col_header]
                (init_base cfg blank).2).2 in
  Backbone.read_taxon_row ["7"; "Plantae"; " "] bst = (Ok tt, bst) /\
  files (CatalogueOfLife.read_taxon_row (fun _ => None)
           (Config true None false false)
           ["7"; "X7"; ""; "incertae sedis"; "Plantae"; ""; ""; ""; ""]
           cst).2 = files cst /\
  files (Backbone.read_taxon_row ["7"; "Plantae"; "incertae sedis"] bst).2
    !! ("Plant_Flora", "_tx")
  = Some [format_line Backbone.base_uri "incertae sedis" "7"].
Proof.
  intros cfg bst cst. split; [|split].
  - refine (proj1 (skipped_taxon_rows (fun _ => None) cfg
                     ["7"; "Plantae"; " "] bst "7" " " _) _ _).
    + vm_compute; reflexivity.
    + vm_compute; reflexivity.
    + right. reflexivity.
  - refine (proj1 (proj2 (proj1 (proj2
              (skipped_taxon_rows (fun _ => None)
                 (Config true None false false)
                 ["7"; "X7"; ""; "incertae sedis"; "Plantae"; ""; ""; ""; ""]
                 cst "7" "incertae sedis" _)) "X7" "" _ _ _ _))).
    + vm_compute; reflexivity.
    + vm_compute; reflexivity.
    + vm_compute; reflexivity.
    + vm_compute; reflexivity.
    + right. right. reflexivity.
  - refine (proj1 (proj2 (proj2 (proj2
              (skipped_taxon_rows (fun _ => None) cfg
                 ["7"; "Plantae"; "incertae sedis"] bst "7" "incertae sedis" _))
              "Plantae" ("Plant_Flora", "_tx") _ _ _ _))).
    + vm_compute; reflexivity.
    + vm_compute; reflexivity.
    + reflexivity.
    + vm_compute; reflexivity.
    + vm_compute; reflexivity.
Defined.

(** ** C10: the drain of a resolving row *)

(** C10: a Catalogue-of-Life row that is not skipped and whose identifier
    is neither empty nor white space completes; it appends its own line
    and then one line per taxon deferred to its taxon identifier, in the
    order of deferral and each with the identifier of this row as URI
    suffix, to the taxon file of the class of the kingdom of this row; it
    writes to no other file; and afterwards IdentifierMap maps the taxon
    identifier of every drained taxon (and of the row itself) to the
    identifier of this row. *)
Theorem resolving_row_drains_pending
    (strip_author_pattern_match : string -> option string) (cfg : config)
    (row : list string) (st : state)
    (tid identifier accepted_name_usage name kingdom : string) (h : handle) :
  (get_taxon_id row st).1 = Ok tid ->
  (CatalogueOfLife.get_identifier row st).1 = Ok identifier ->
  (row_get accepted_name_usage_id row st).1 = Ok accepted_name_usage ->
  (CatalogueOfLife.get_name strip_author_pattern_match cfg row st).1
  = Ok name ->
  col_skips name = false ->
  (get_kingdom row name st).1 = Ok kingdom ->
  blank_identifier identifier = false ->
  out_files_tx st !! classify kingdom = Some h ->
  let pending := default [] (accepted_name_taxon_mapping st !! tid) in
  let result :=
    CatalogueOfLife.read_taxon_row strip_author_pattern_match cfg row st in
  result.1 = Ok tt /\
  files result.2 !! h
  = Some (default [] (files st !! h)
          ++ format_line CatalogueOfLife.base_uri name identifier
             :: ((fun other : string * string =>
                    format_line CatalogueOfLife.base_uri other.1 identifier)
                 <$> pending))%list /\
  (forall h', h' <> h -> files result.2 !! h' = files st !! h') /\
  (forall other_name other_taxon_id : string,
     (other_name, other_taxon_id) ∈ pending ->
     taxon_id_identifier_mapping result.2 !! other_taxon_id
     = Some identifier) /\
  taxon_id_identifier_mapping result.2 !! tid = Some identifier.
Proof.
  intros Htid Hidentifier Haccepted Hname Hskip Hkingdom Hblank Hh
    pending result.
  destruct (col_taxon_row_resolving strip_author_pattern_match cfg row st
              tid identifier accepted_name_usage name Htid Hidentifier
              Haccepted Hname kingdom h Hskip Hkingdom Hblank Hh)
    as (st' & Hrun & Hfile & Hother & Hin & _).
  subst result. rewrite Hrun. simpl.
  split; [done|]. split; [exact Hfile|]. split; [exact Hother|]. split.
  - intros other_name other_taxon_id Hpending. apply Hin.
    apply elem_of_cons. right.
    apply list_elem_of_fmap. by exists (other_name, other_taxon_id).
  - apply Hin. apply elem_of_cons. by left.
Qed.

Lemma resolving_row_drains_pending_witness :
  let cfg := Config true None true false in
  let st := (CatalogueOfLife.read_taxon_tsv (fun _ => None) cfg
               [col_header; col_row_A] (init_base cfg blank).2).2 in
  let result :=
    CatalogueOfLife.read_taxon_row (fun _ => None) cfg col_row_B st in
  result.1 = Ok tt /\
  taxon_id_identifier_mapping result.2 !! "T1" = Some "X1".
Proof.
  intros cfg st result.
  assert (Hpending :
            ("Rosa alba ", "T1")
            ∈ default [] (accepted_name_taxon_mapping st !! "T2")).
  { vm_compute. left. }
  destruct (resolving_row_drains_pending (fun _ => None) cfg col_row_B st
              "T2" "X1" "" "Canis lupus " "Animalia" ("Animal_Fauna", "_tx")
              eq_refl eq_refl eq_refl eq_refl eq_refl eq_refl eq_refl eq_refl)
    as (Hok & _ & _ & Hmap & _).
  split; [exact Hok | exact (Hmap "Rosa alba " "T1" Hpending)].
Defined.

(** ** The vernacular pass, row by row *)

Lemma backbone_write_names (tid : string) (names : list string) :
  for_each (Backbone.write_vernacular_name tid) names
  = write_names Backbone.base_uri tid tid names.
Proof. reflexivity. Qed.

Lemma col_write_names (tid identifier : string) (names : list string) :
  for_each (CatalogueOfLife.write_vernacular_name tid identifier) names
  = write_names CatalogueOfLife.base_uri tid identifier names.
Proof. reflexivity. Qed.

Lemma keeps_write_names {X} (f : state -> X)
    (base_uri tid suffix : string) (names : list string) :
  (forall g st, f (set_files g st) = f st) ->
  keeps f (write_names base_uri tid suffix names).
Proof.
  intros Hf. apply keeps_for_each. intros name.
  apply keeps_bind; [apply keeps_get | intros st'].
  by apply keeps_write.
Qed.

Lemma write_names_run (base_uri tid suffix : string) (h : handle)
    (names : list string) :
  forall st : state,
    out_files_vn st !! classify (default "" (id_kingdom_map st !! tid))
    = Some h ->
    exists st' : state,
      write_names base_uri tid suffix names st = (Ok tt, st') /\
      default [] (files st' !! h)
      = (default [] (files st !! h)
         ++ ((fun name => format_line base_uri name suffix) <$> names))%list /\
      (forall h', h' <> h -> files st' !! h' = files st !! h').
Proof.
  induction names as [|name names IH]; intros st Hh.
  - exists st. simpl. by rewrite app_nil_r.
  - set (st1 := set_files
                  (fun fs =>
                     <[h := (default [] (fs !! h)
                             ++ [format_line base_uri name suffix])%list]> fs)
                  st).
    destruct (IH st1 Hh) as (st' & Hrun & Hfile & Hother).
    exists st'. split.
    { unfold write_names in *. simpl. unfold bind at 1. unfold bind at 1.
      simpl. rewrite (write_eq out_files_vn _ _ st h Hh). exact Hrun. }
    split.
    { rewrite Hfile. simpl. rewrite lookup_insert_eq. simpl.
      by rewrite <- app_assoc. }
    intros h' Hne. rewrite Hother by done. simpl.
    by rewrite lookup_insert_ne.
Qed.

Section VernacularRow.
Variable cfg : config.
Variables (row : list string) (counts : nat * nat) (st : state).
Variables (tid vernacular_name lang : string) (h : handle).
Hypothesis read_tid : (get_taxon_id row st).1 = Ok tid.
Hypothesis read_vernacular_name :
  (get_vernacular_name row st).1 = Ok vernacular_name.
Hypothesis read_lang : (get_language row st).1 = Ok lang.

Lemma backbone_vernacular_row_filtered :
  any_filter_lang (Backbone.the_filter_languages cfg) lang = false ->
  Backbone.read_vernacular_row cfg row counts st
  = (Ok (S counts.1, S counts.2), st).
Proof.
  intros Hlang. unfold Backbone.read_vernacular_row.
  rewrite (bind_Ok _ _ st st tid); [|by apply (row_get_eq _ _ st)].
  rewrite (bind_Ok _ _ st st vernacular_name);
    [|by apply (row_get_eq _ _ st)].
  rewrite (bind_Ok _ _ st st lang); [|by apply (row_get_eq _ _ st)].
  by rewrite Hlang.
Qed.

Lemma col_vernacular_row_filtered :
  any_filter_lang (CatalogueOfLife.the_filter_languages cfg) lang = false ->
  CatalogueOfLife.read_vernacular_row cfg row counts st
  = (Ok (S counts.1, S counts.2), st).
Proof.
  intros Hlang. unfold CatalogueOfLife.read_vernacular_row.
  rewrite (bind_Ok _ _ st st tid); [|by apply (row_get_eq _ _ st)].
  unfold bind at 1. simpl.
  rewrite (bind_Ok _ _ st st vernacular_name);
    [|by apply (row_get_eq _ _ st)].
  rewrite (bind_Ok _ _ st st lang); [|by apply (row_get_eq _ _ st)].
  by rewrite Hlang.
Qed.

Hypothesis vn_file :
  out_files_vn st !! classify (default "" (id_kingdom_map st !! tid)) = Some h.

Lemma backbone_vernacular_row_written :
  any_filter_lang (Backbone.the_filter_languages cfg) lang = true ->
  exists st' : state,
    Backbone.read_vernacular_row cfg row counts st
    = (Ok (counts.1, S counts.2), st') /\
    files st' !! h
    = Some (default [] (files st !! h)
            ++ ((fun name => format_line Backbone.base_uri name tid)
                <$> vernacular_name_split vernacular_name))%list /\
    (forall h', h' <> h -> files st' !! h' = files st !! h').
Proof.
  intros Hlang.
  destruct (write_names_run Backbone.base_uri tid tid h
              (vernacular_name_split vernacular_name) st vn_file)
    as (st' & Hrun & Hfile & Hother).
  exists st'. split; [|split; [|exact Hother]].
  - unfold Backbone.read_vernacular_row.
    rewrite (bind_Ok _ _ st st tid); [|by apply (row_get_eq _ _ st)].
    rewrite (bind_Ok _ _ st st vernacular_name);
      [|by apply (row_get_eq _ _ st)].
    rewrite (bind_Ok _ _ st st lang); [|by apply (row_get_eq _ _ st)].
    rewrite Hlang, backbone_write_names.
    by rewrite (bind_Ok _ _ st st' tt).
  - pose proof (vernacular_name_split_nonempty vernacular_name) as Hne.
    destruct (files st' !! h) as [lines|]; simpl in Hfile.
    + by rewrite Hfile.
    + symmetry in Hfile. apply app_eq_nil in Hfile as [_ Hnil].
      by apply fmap_nil_inv in Hnil.
Qed.

Lemma col_vernacular_row_written :
  any_filter_lang (CatalogueOfLife.the_filter_languages cfg) lang = true ->
  let identifier := default tid (taxon_id_identifier_mapping st !! tid) in
  exists st' : state,
    CatalogueOfLife.read_vernacular_row cfg row counts st
    = (Ok (counts.1, S counts.2), st') /\
    files st' !! h
    = Some (default [] (files st !! h)
            ++ ((fun name =>
                   format_line CatalogueOfLife.base_uri name identifier)
                <$> vernacular_name_split vernacular_name))%list /\
    (forall h', h' <> h -> files st' !! h' = files st !! h').
Proof.
  intros Hlang identifier.
  destruct (write_names_run CatalogueOfLife.base_uri tid identifier h
              (vernacular_name_split vernacular_name) st vn_file)
    as (st' & Hrun & Hfile & Hother).
  exists st'. split; [|split; [|exact Hother]].
  - unfold CatalogueOfLife.read_vernacular_row.
    rewrite (bind_Ok _ _ st st tid); [|by apply (row_get_eq _ _ st)].
    unfold bind at 1. simpl.
    rewrite (bind_Ok _ _ st st vernacular_name);
      [|by apply (row_get_eq _ _ st)].
    rewrite (bind_Ok _ _ st st lang); [|by apply (row_get_eq _ _ st)].
    rewrite Hlang, col_write_names.
    by rewrite (bind_Ok _ _ st st' tt).
  - pose proof (vernacular_name_split_nonempty vernacular_name) as Hne.
    destruct (files st' !! h) as [lines|]; simpl in Hfile.
    + by rewrite Hfile.
    + symmetry in Hfile. apply app_eq_nil in Hfile as [_ Hnil].
      by apply fmap_nil_inv in Hnil.
Qed.

End VernacularRow.

(** ** C5: the vernacular pass as a whole *)

Lemma any_filter_lang_elem_of (langs : gset string) (lang : string) :
  any_filter_lang langs lang = true <-> lang ∈ langs.
Proof.
  unfold any_filter_lang. rewrite existsb_exists. split.
  - intros (l & Hin & Heq). apply String.eqb_eq in Heq. subst l.
    apply elem_of_elements. by apply list_elem_of_In.
  - intros Hin. exists lang. split.
    + apply list_elem_of_In. by apply elem_of_elements.
    + apply String.eqb_refl.
Qed.

Lemma field_lookup (row : list string) (i : nat) :
  i < List.length row -> row !! i = Some (field row i).
Proof.
  intros Hi. unfold field.
  destruct (lookup_lt_is_Some_2 row i Hi) as [v Hv]. by rewrite Hv.
Qed.

Lemma vernacular_lines_ext (p : processor) (cfg : config) (st st' : state)
    (i j k : nat) (clazz : string) (row : list string) :
  id_kingdom_map st' = id_kingdom_map st ->
  taxon_id_identifier_mapping st' = taxon_id_identifier_mapping st ->
  vernacular_lines p cfg st' i j k clazz row
  = vernacular_lines p cfg st i j k clazz row.
Proof.
  intros Hkingdom Hident.
  unfold vernacular_lines, class_of_taxon. rewrite Hkingdom.
  destruct p; simpl; [reflexivity|]. by rewrite Hident.
Qed.

Lemma keeps_vernacular_row_of (p : processor) (cfg : config)
    (row : list string) (counts : nat * nat) :
  keeps vernacular_view (read_vernacular_row_of p cfg row counts).
Proof.
  destruct p; simpl.
  - by apply keeps_backbone_vernacular_row.
  - by apply keeps_col_vernacular_row.
Qed.

(** One row of the vernacular pass, for a file that belongs to one class
    only. *)
Lemma vernacular_row_of_run (p : processor) (cfg : config) (i j k : nat)
    (row : list string) (counts : nat * nat) (st : state) :
  columns st taxon_id = Some i ->
  columns st language_id = Some j ->
  columns st vernacular_name_id = Some k ->
  i < List.length row /\ j < List.length row /\ k < List.length row ->
  (forall clazz, clazz ∈ classes -> is_Some (out_files_vn st !! clazz)) ->
  exists st' : state,
    read_vernacular_row_of p cfg row counts st
    = (Ok ((if filtered_out p cfg j row then S counts.1 else counts.1),
           S counts.2), st') /\
    (forall clazz h,
        out_files_vn st !! clazz = Some h ->
        (forall clazz', out_files_vn st !! clazz' = Some h -> clazz' = clazz) ->
        default [] (files st' !! h)
        = (default [] (files st !! h)
           ++ vernacular_lines p cfg st i j k clazz row)%list) /\
    (forall h, (forall clazz, out_files_vn st !! clazz <> Some h) ->
               files st' !! h = files st !! h).
Proof.
  intros Hi Hj Hk (Hli & Hlj & Hlk) Hopen.
  assert (Htid : (get_taxon_id row st).1 = Ok (field row i)).
  { unfold get_taxon_id.
    by rewrite (row_get_lookup _ _ _ i (field row i) Hi (field_lookup _ _ Hli)). }
  assert (Hname : (get_vernacular_name row st).1 = Ok (field row k)).
  { unfold get_vernacular_name.
    by rewrite (row_get_lookup _ _ _ k (field row k) Hk (field_lookup _ _ Hlk)). }
  assert (Hlang : (get_language row st).1 = Ok (field row j)).
  { unfold get_language.
    by rewrite (row_get_lookup _ _ _ j (field row j) Hj (field_lookup _ _ Hlj)). }
  unfold filtered_out, vernacular_lines.
  destruct (any_filter_lang (filter_languages_of p cfg) (field row j))
    eqn:Haccepted; simpl.
  - destruct (Hopen (class_of_taxon st (field row i)))
      as [hrow Hhrow]; [apply classify_in_classes|].
    assert (exists st' : state,
               read_vernacular_row_of p cfg row counts st
               = (Ok (counts.1, S counts.2), st') /\
               files st' !! hrow
               = Some (default [] (files st !! hrow)
                       ++ ((fun name =>
                              format_line (base_uri_of p) name
                                (uri_suffix_of p st (field row i)))
                           <$> vernacular_name_split (field row k)))%list /\
               (forall h', h' <> hrow -> files st' !! h' = files st !! h'))
      as (st' & Hrun & Hfile & Hother).
    { destruct p; simpl in *.
      - by apply (backbone_vernacular_row_written cfg row counts st
                    (field row i) (field row k) (field row j) hrow).
      - by apply (col_vernacular_row_written cfg row counts st
                    (field row i) (field row k) (field row j) hrow). }
    exists st'. split; [exact Hrun|]. split.
    + intros clazz h Hh Hinj.
      destruct (String.eqb_spec (class_of_taxon st (field row i)) clazz)
        as [Heq|Hne].
      * rewrite Heq in Hhrow. rewrite Hh in Hhrow.
        injection Hhrow as <-. by rewrite Hfile.
      * rewrite app_nil_r. rewrite Hother; [done|].
        intros ->. apply Hne. by apply Hinj.
    + intros h Hnone. apply Hother. intros ->. by apply (Hnone _ Hhrow).
  - exists st. split.
    + destruct p; simpl in *.
      * by apply (backbone_vernacular_row_filtered cfg row counts st
                    (field row i) (field row k) (field row j)).
      * by apply (col_vernacular_row_filtered cfg row counts st
                    (field row i) (field row k) (field row j)).
    + split; [|done]. intros clazz h _ _. by rewrite app_nil_r.
Qed.

(** The loop of the vernacular pass. *)
Lemma vernacular_rows_run (p : processor) (cfg : config) (i j k : nat)
    (rows : list (list string)) :
  forall (counts : nat * nat) (st : state),
    columns st taxon_id = Some i ->
    columns st language_id = Some j ->
    columns st vernacular_name_id = Some k ->
    Forall (fun row => i < List.length row /\ j < List.length row
                       /\ k < List.length row) rows ->
    (forall clazz, clazz ∈ classes -> is_Some (out_files_vn st !! clazz)) ->
    exists st' : state,
      for_fold (read_vernacular_row_of p cfg) rows counts st
      = (Ok (counts.1 + List.length (List.filter (filtered_out p cfg j) rows),
             counts.2 + List.length rows), st') /\
      (forall clazz h,
          out_files_vn st !! clazz = Some h ->
          (forall clazz', out_files_vn st !! clazz' = Some h ->
                          clazz' = clazz) ->
          default [] (files st' !! h)
          = (default [] (files st !! h)
             ++ List.concat (vernacular_lines p cfg st i j k clazz <$> rows))%list) /\
      (forall h, (forall clazz, out_files_vn st !! clazz <> Some h) ->
                 files st' !! h = files st !! h).
Proof.
  induction rows as [|row rows IH]; intros counts st Hi Hj Hk Hrows Hopen.
  - exists st. simpl. rewrite !Nat.add_0_r. destruct counts.
    split; [done|]. split; [|done]. intros clazz h _ _. by rewrite app_nil_r.
  - apply Forall_cons in Hrows as [Hrow Hrows].
    destruct (vernacular_row_of_run p cfg i j k row counts st Hi Hj Hk Hrow
                Hopen) as (st1 & Hrun1 & Hfile1 & Hother1).
    pose proof (keeps_vernacular_row_of p cfg row counts st) as Hview.
    rewrite Hrun1 in Hview. simpl in Hview.
    injection Hview as Hcols Hkingdom Hident Hvn.
    destruct (IH ((if filtered_out p cfg j row then S counts.1 else counts.1),
                  S counts.2) st1) as (st' & Hrun & Hfile & Hother).
    { by rewrite Hcols. }
    { by rewrite Hcols. }
    { by rewrite Hcols. }
    { exact Hrows. }
    { by rewrite Hvn. }
    exists st'. split; [|split].
    + simpl. rewrite (bind_Ok _ _ st st1 _ Hrun1). rewrite Hrun. simpl.
      do 2 f_equal. destruct (filtered_out p cfg j row); simpl; f_equal; lia.
    + intros clazz h Hh Hinj. rewrite Hvn in Hfile.
      rewrite (Hfile clazz h Hh Hinj), (Hfile1 clazz h Hh Hinj).
      simpl. rewrite <- app_assoc. do 2 f_equal. f_equal.
      apply list_fmap_ext. intros _ row' _.
      by apply vernacular_lines_ext.
    + intros h Hnone. rewrite Hvn in Hother.
      by rewrite (Hother h Hnone), (Hother1 h Hnone).
Qed.

(** The header of the vernacular table, in a table that has the three
    columns. *)
Lemma vernacular_header_run (header : list string)
    (rows : list (list string)) (st : state) (i j k : nat) :
  index "taxonID" header = Some i ->
  index "language" header = Some j ->
  index "vernacularName" header = Some k ->
  process_vernacular_names_header (header :: rows) st
  = (Ok rows,
     set_columns <[vernacular_name_id := Some k]>
       (set_columns <[language_id := Some j]>
          (set_columns <[taxon_id := Some i]> st))).
Proof.
  intros Hi Hj Hk. unfold process_vernacular_names_header, set_column.
  rewrite Hi, Hj, Hk. reflexivity.
Qed.

(** C5: on a vernacular table whose header has the three columns and
    whose rows are long enough, and with a vernacular file open for every
    class, the vernacular pass of either processor completes.  A row
    counts as accepted exactly when its language field is a member of the
    language set of the processor (equality of strings, hence
    case-sensitive); that set is the configured one, and the default of
    the processor when none is configured.  The pass reports as filtered
    the number of rows that are not accepted, and as total the number of
    data rows.  To the vernacular file of a class it appends, row by row,
    one line per part of the split vernacular-name field of every
    accepted row whose taxon has that class by KingdomMap (the default
    class when the taxon is unknown), and nothing for any other row;
    files that are the vernacular file of no class are untouched.  The
    split cuts at every comma and drops one space directly behind it: a
    field without comma is one part, and a field with a comma is the text
    before the first comma followed by the parts of what stands behind
    the comma and that space. *)
Theorem vernacular_pass_filters_and_splits (p : processor) (cfg : config)
    (header : list string) (rows : list (list string)) (st : state)
    (i j k : nat) :
  index "taxonID" header = Some i ->
  index "language" header = Some j ->
  index "vernacularName" header = Some k ->
  Forall (fun row => i < List.length row /\ j < List.length row
                     /\ k < List.length row) rows ->
  (forall clazz, clazz ∈ classes -> is_Some (out_files_vn st !! clazz)) ->
  let result := read_vernacular_names_tsv_of p cfg (header :: rows) st in
  result.1
  = Ok (List.length (List.filter (filtered_out p cfg j) rows),
        List.length rows) /\
  (forall row, filtered_out p cfg j row = false
               <-> field row j ∈ filter_languages_of p cfg) /\
  (forall clazz h,
      out_files_vn st !! clazz = Some h ->
      (forall clazz', out_files_vn st !! clazz' = Some h -> clazz' = clazz) ->
      default [] (files result.2 !! h)
      = (default [] (files st !! h)
         ++ List.concat (vernacular_lines p cfg st i j k clazz <$> rows))%list) /\
  (forall h, (forall clazz, out_files_vn st !! clazz <> Some h) ->
             files result.2 !! h = files st !! h) /\
  (forall clazz row,
      vernacular_lines p cfg st i j k clazz row
      = if filtered_out p cfg j row then []
        else if String.eqb (class_of_taxon st (field row i)) clazz
             then (fun name =>
                     format_line (base_uri_of p) name
                       (uri_suffix_of p st (field row i)))
                  <$> vernacular_name_split (field row k)
             else []) /\
  (forall langs, filter_languages cfg = Some langs ->
                 filter_languages_of p cfg = langs) /\
  (filter_languages cfg = None ->
   filter_languages_of p cfg
   = match p with
     | BackboneProcessor => {[ "de"; "la" ]}
     | CatalogueOfLifeProcessor =>
         {[ "German"; "Ger"; "Prussian, Old DE"; "Prussian" ]}
     end) /\
  (forall name, count_char ","%char name = 0 ->
                vernacular_name_split name = [name]) /\
  (forall first rest,
      count_char ","%char first = 0 ->
      vernacular_name_split (first +:+ ", " +:+ rest)
      = first :: vernacular_name_split rest) /\
  (forall first rest,
      count_char ","%char first = 0 ->
      (forall rest', rest <> String " "%char rest') ->
      vernacular_name_split (first +:+ "," +:+ rest)
      = first :: vernacular_name_split rest) /\
  (forall name suffix,
      format_line (base_uri_of p) name suffix
      = name +:+ String "009"%char
                   (match p with
                    | BackboneProcessor => "https://www.gbif.org/species/"
                    | CatalogueOfLifeProcessor =>
                        "http://www.catalogueoflife.org/col/details/species/id/"
                    end +:+ suffix +:+ String "010"%char "")).
Proof.
  intros Hi Hj Hk Hrows Hopen result.
  assert (Hcomma : forall first rest,
             count_char ","%char first = 0 ->
             vernacular_name_split (first +:+ String ","%char rest)
             = first :: match rest with
                        | String c rest' =>
                            if Ascii.eqb c " "%char
                            then vernacular_name_split rest'
                            else vernacular_name_split rest
                        | "" => vernacular_name_split rest
                        end).
  { induction first as [|c first IH].
    - intros rest _. simpl. destruct rest as [|c rest]; [done|].
      by destruct (Ascii.eqb c " "%char).
    - intros rest. simpl. destruct (Ascii.eqb c ","%char); [done|]. simpl.
      intros Hfirst. by rewrite (IH rest Hfirst). }
  set (sth := set_columns <[vernacular_name_id := Some k]>
                (set_columns <[language_id := Some j]>
                   (set_columns <[taxon_id := Some i]> st))).
  destruct (vernacular_rows_run p cfg i j k rows (0, 0) sth)
    as (st' & Hrun & Hfile & Hother); try done.
  assert (Hresult : result = (Ok (List.length
                                    (List.filter (filtered_out p cfg j) rows),
                                  List.length rows), st')).
  { subst result. destruct p; simpl.
    - unfold Backbone.read_vernacular_names_tsv.
      by rewrite (bind_Ok _ _ st sth rows)
        by (by apply (vernacular_header_run header rows st i j k)).
    - unfold CatalogueOfLife.read_vernacular_names_tsv.
      by rewrite (bind_Ok _ _ st sth rows)
        by (by apply (vernacular_header_run header rows st i j k)). }
  rewrite Hresult. simpl.
  split; [done|].
  split; [|split; [|split; [|split; [|split; [|split; [|split;
    [|split; [|split]]]]]]]].
  - intros row. unfold filtered_out. rewrite negb_false_iff.
    apply any_filter_lang_elem_of.
  - intros clazz h Hh Hinj. by rewrite (Hfile clazz h Hh Hinj).
  - exact Hother.
  - intros clazz row. unfold vernacular_lines, filtered_out.
    by destruct (any_filter_lang _ _).
  - intros langs Hlangs.
    destruct p; simpl;
      unfold Backbone.the_filter_languages,
        CatalogueOfLife.the_filter_languages; by rewrite Hlangs.
  - intros Hnone.
    destruct p; simpl;
      unfold Backbone.the_filter_languages,
        CatalogueOfLife.the_filter_languages; by rewrite Hnone.
  - intros name. induction name as [|c name IH]; [done|]. simpl.
    destruct (Ascii.eqb c ","%char); [done|]. simpl.
    intros Hname. by rewrite (IH Hname).
  - intros first rest Hfirst.
    change (first +:+ ", " +:+ rest)
      with (first +:+ String ","%char (String " "%char rest)).
    by rewrite (Hcomma first _ Hfirst).
  - intros first rest Hfirst Hrest.
    change (first +:+ "," +:+ rest) with (first +:+ String ","%char rest).
    rewrite (Hcomma first rest Hfirst).
    destruct rest as [|c rest]; [done|].
    destruct (Ascii.eqb c " "%char) eqn:Hc; [|done].
    apply Ascii.eqb_eq in Hc. subst c. by destruct (Hrest rest).
  - intros name suffix. by destruct p.
Qed.

(** A dictionary of handles gives the handle [h] to the class [clazz]
    only, when this holds of each of its entries. *)
Lemma handle_of_one_class (out_files : gmap string handle) (clazz : string)
    (h : handle) :
  forallb (fun entry : string * handle =>
             negb (bool_decide (entry.2 = h))
             || bool_decide (entry.1 = clazz))
          (map_to_list out_files) = true ->
  forall clazz', out_files !! clazz' = Some h -> clazz' = clazz.
Proof.
  intros Hall clazz' Hclazz'. apply elem_of_map_to_list in Hclazz'.
  rewrite forallb_forall in Hall.
  apply list_elem_of_In, Hall in Hclazz'. simpl in Hclazz'.
  rewrite bool_decide_eq_true_2 in Hclazz' by done. simpl in Hclazz'.
  by apply bool_decide_eq_true_1 in Hclazz'.
Qed.

Lemma vernacular_pass_filters_and_splits_witness :
  let cfg := Config true (Some {[ "de" ]}) true false in
  let st := (Backbone.read_taxon_tsv
               [backbone_header; ["1"; "Plantae"; "Rosa canina"]]
               (init_base cfg blank).2).2 in
  let rows := [ ["1"; "de"; "Hundsrose, Heckenrose,Hagrose"];
                ["1"; "DE"; "Hagebutte"];
                ["1"; "la"; "Rosa canina"];
                ["1"; "en"; "dog rose"] ] in
  let result :=
    Backbone.read_vernacular_names_tsv cfg (vernacular_header :: rows) st in
  result.1 = Ok (3, 4) /\
  default [] (files result.2 !! ("Plant_Flora", "_vn"))
  = [ "Hundsrose"
      +:+ String "009"%char ("https://www.gbif.org/species/1"
                             +:+ String "010"%char "");
      "Heckenrose"
      +:+ String "009"%char ("https://www.gbif.org/species/1"
                             +:+ String "010"%char "");
      "Hagrose"
      +:+ String "009"%char ("https://www.gbif.org/species/1"
                             +:+ String "010"%char "") ].
Proof.
  intros cfg st rows result.
  assert (Hrows : Forall (fun row => 0 < List.length row
                                     /\ 1 < List.length row
                                     /\ 2 < List.length row) rows).
  { repeat constructor; simpl; lia. }
  assert (Hopen : forall clazz, clazz ∈ classes ->
                                is_Some (out_files_vn st !! clazz)).
  { intros clazz Hin. unfold classes in Hin. simpl in Hin.
    repeat (apply elem_of_cons in Hin as [-> | Hin];
            [vm_compute; eexists; reflexivity|]).
    by apply elem_of_nil in Hin. }
  destruct (vernacular_pass_filters_and_splits BackboneProcessor cfg
              vernacular_header rows st 0 1 2 eq_refl eq_refl eq_refl
              Hrows Hopen) as (Hcounts & _ & Hfile & _).
  split.
  - etransitivity; [exact Hcounts|]. vm_compute. reflexivity.
  - etransitivity.
    + apply (Hfile "Plant_Flora" ("Plant_Flora", "_vn")).
      * vm_compute. reflexivity.
      * apply handle_of_one_class. vm_compute. reflexivity.
    + vm_compute. reflexivity.
Defined.

(** ** C2: the URI suffix of a vernacular row *)

(** C2, as stated, fails: a taxon whose identifier column is empty and
    that no later row resolves keeps the empty string as its entry in
    IdentifierMap, and the lines of its vernacular names end in the bare
    base URI, not in the taxon identifier. *)
Lemma unresolved_taxon_suffix_counterexample :
  let cfg := Config true (Some {[ "de" ]}) true false in
  let taxon_tsv :=
    [ col_header;
      ["T1"; ""; ""; "Rosa alba L."; "Plantae"; "Rosa"; "Rosa"; "alba"; ""] ] in
  let vernacular_name_tsv := [ vernacular_header; ["T1"; "de"; "Rose"] ] in
  let result :=
    CatalogueOfLife.run (fun _ => None) cfg taxon_tsv vernacular_name_tsv
      blank in
  result.1 = Ok (0, 1) /\
  taxon_id_identifier_mapping result.2 !! "T1" = Some "" /\
  files result.2 !! ("Plant_Flora", "_vn")
  = Some [format_line CatalogueOfLife.base_uri "Rose" ""] /\
  format_line CatalogueOfLife.base_uri "Rose" ""
  <> format_line CatalogueOfLife.base_uri "Rose" "T1".
Proof.
  repeat split; try (vm_compute; reflexivity). discriminate.
Qed.

(** C2, amended: in the vernacular pass of the Catalogue-of-Life
    processor, every line of an accepted row ends in the entry of
    IdentifierMap for the taxon identifier of the row when there is one
    (the identifier column of the taxon, which may be empty, or the
    identifier of the row that resolved it), and in the taxon identifier
    itself only when IdentifierMap has no entry for it. *)
Theorem vernacular_suffix_from_identifier_map (cfg : config)
    (row : list string) (counts : nat * nat) (st : state)
    (tid vernacular_name lang : string) (h : handle) :
  (get_taxon_id row st).1 = Ok tid ->
  (get_vernacular_name row st).1 = Ok vernacular_name ->
  (get_language row st).1 = Ok lang ->
  any_filter_lang (CatalogueOfLife.the_filter_languages cfg) lang = true ->
  out_files_vn st !! class_of_taxon st tid = Some h ->
  let suffix := default tid (taxon_id_identifier_mapping st !! tid) in
  let result := CatalogueOfLife.read_vernacular_row cfg row counts st in
  result.1 = Ok (counts.1, S counts.2) /\
  files result.2 !! h
  = Some (default [] (files st !! h)
          ++ ((fun name => format_line CatalogueOfLife.base_uri name suffix)
              <$> vernacular_name_split vernacular_name))%list /\
  (taxon_id_identifier_mapping st !! tid = None -> suffix = tid) /\
  (forall identifier,
      taxon_id_identifier_mapping st !! tid = Some identifier ->
      suffix = identifier).
Proof.
  intros Htid Hname Hlang Haccepted Hh suffix result.
  destruct (col_vernacular_row_written cfg row counts st tid vernacular_name
              lang h Htid Hname Hlang Hh Haccepted)
    as (st' & Hrun & Hfile & _).
  subst result. rewrite Hrun. simpl.
  split; [done|]. split; [exact Hfile|].
  subst suffix. split.
  - by intros ->.
  - by intros identifier ->.
Qed.

Lemma vernacular_suffix_from_identifier_map_witness :
  let cfg := Config true (Some {[ "de" ]}) true false in
  let st := (process_vernacular_names_header [vernacular_header]
               (CatalogueOfLife.read_taxon_tsv (fun _ => None) cfg
                  [col_header; col_row_B] (init_base cfg blank).2).2).2 in
  files (CatalogueOfLife.read_vernacular_row cfg ["T9"; "de"; "Wolf, Grauwolf"]
           (0, 0) st).2 !! ("Taxon", "_vn")
  = Some [format_line CatalogueOfLife.base_uri "Wolf" "T9";
          format_line CatalogueOfLife.base_uri "Grauwolf" "T9"] /\
  files (CatalogueOfLife.read_vernacular_row cfg ["T2"; "de"; "Wolf"]
           (0, 0) st).2 !! ("Animal_Fauna", "_vn")
  = Some [format_line CatalogueOfLife.base_uri "Wolf" "X1"].
Proof.
  intros cfg st. split.
  - exact (proj1 (proj2
             (vernacular_suffix_from_identifier_map cfg
                ["T9"; "de"; "Wolf, Grauwolf"] (0, 0) st "T9" "Wolf, Grauwolf"
                "de" ("Taxon", "_vn") eq_refl eq_refl eq_refl eq_refl
                eq_refl))).
  - exact (proj1 (proj2
             (vernacular_suffix_from_identifier_map cfg
                ["T2"; "de"; "Wolf"] (0, 0) st "T2" "Wolf"
                "de" ("Animal_Fauna", "_vn") eq_refl eq_refl eq_refl eq_refl
                eq_refl))).
Defined.

(** ** The taxon pass of the Catalogue of Life on a well-formed table *)

Ltac in_col_columns :=
  unfold col_columns;
  repeat first [apply list_elem_of_here | apply list_elem_of_further].

Lemma row_get_cell (c : column) (row : list string) (st : state) :
  col_row_ok (columns st) row -> c ∈ col_columns ->
  row_get c row st = (Ok (cell (columns st) c row), st).
Proof.
  intros Hok Hc. destruct (Hok c Hc) as (i & Hi & Hlt).
  unfold cell. rewrite Hi.
  by apply (row_get_lookup c row st i), field_lookup.
Qed.

Lemma col_get_name_cell (strip_author_pattern_match : string -> option string)
    (cfg : config) (row : list string) (st : state) :
  col_row_ok (columns st) row ->
  CatalogueOfLife.get_name strip_author_pattern_match cfg row st
  = (Ok (col_name strip_author_pattern_match cfg (columns st) row), st).
Proof.
  intros Hok. unfold CatalogueOfLife.get_name, col_name.
  destruct (build_from_generic_name cfg).
  - rewrite (bind_Ok _ _ st st _ (row_get_cell generic_name_id row st Hok
                                    ltac:(in_col_columns))).
    rewrite (bind_Ok _ _ st st _ (row_get_cell specific_epithet_id row st Hok
                                    ltac:(in_col_columns))).
    by rewrite (bind_Ok _ _ st st _
                  (row_get_cell infraspecific_epithet_id row st Hok
                     ltac:(in_col_columns))).
  - rewrite (bind_Ok _ _ st st _ (row_get_cell scientific_name_id row st Hok
                                    ltac:(in_col_columns))).
    destruct (strip_author cfg); [|done].
    by destruct (strip_author_pattern_match _).
Qed.

(** What one row of a well-formed table does to the files and to
    PendingRedirectMap, by the three cases of the loop body. *)
Lemma col_taxon_row_cases
    (strip_author_pattern_match : string -> option string) (cfg : config)
    (row : list string) (st : state) :
  col_row_ok (columns st) row -> tx_open st ->
  let tid := cell (columns st) taxon_id row in
  let identifier := cell (columns st) identifier_id row in
  let accepted_name_usage := cell (columns st) accepted_name_usage_id row in
  let name := col_name strip_author_pattern_match cfg (columns st) row in
  let kingdom := cell (columns st) kingdom_id row in
  let pending := default [] (accepted_name_taxon_mapping st !! tid) in
  exists st' : state,
    CatalogueOfLife.read_taxon_row strip_author_pattern_match cfg row st
    = (Ok tt, st') /\
    columns st' = columns st /\
    out_files_tx st' = out_files_tx st /\
    if col_skips name then
      files st' = files st /\
      accepted_name_taxon_mapping st' = accepted_name_taxon_mapping st
    else if blank_identifier identifier then
      files st' = files st /\
      accepted_name_taxon_mapping st'
      = <[accepted_name_usage :=
            (default [] (accepted_name_taxon_mapping st !! accepted_name_usage)
             ++ [(name, tid)])%list]> (accepted_name_taxon_mapping st)
    else
      accepted_name_taxon_mapping st' = accepted_name_taxon_mapping st /\
      (forall t, t ∈ tid :: pending.*2 ->
                 taxon_id_identifier_mapping st' !! t = Some identifier) /\
      exists h : handle,
        out_files_tx st !! classify kingdom = Some h /\
        files st'
        = <[h := (default [] (files st !! h)
                  ++ format_line CatalogueOfLife.base_uri name identifier
                     :: ((fun other : string * string =>
                            format_line CatalogueOfLife.base_uri other.1
                              identifier) <$> pending))%list]> (files st).
Proof.
  intros Hok Hopen tid identifier accepted_name_usage name kingdom pending.
  assert (Htid : (get_taxon_id row st).1 = Ok tid).
  { unfold get_taxon_id. by rewrite row_get_cell by (done || in_col_columns). }
  assert (Hidentifier :
            (CatalogueOfLife.get_identifier row st).1 = Ok identifier).
  { unfold CatalogueOfLife.get_identifier.
    by rewrite row_get_cell by (done || in_col_columns). }
  assert (Haccepted :
            (row_get accepted_name_usage_id row st).1 = Ok accepted_name_usage).
  { by rewrite row_get_cell by (done || in_col_columns). }
  assert (Hname :
            (CatalogueOfLife.get_name strip_author_pattern_match cfg row st).1
            = Ok name).
  { by rewrite col_get_name_cell. }
  assert (Hkingdom : (get_kingdom row name st).1 = Ok kingdom).
  { unfold get_kingdom. by rewrite row_get_cell by (done || in_col_columns). }
  pose proof (keeps_col_taxon_row (fun s => (columns s, out_files_tx s))
                ltac:(done) ltac:(done) ltac:(done) ltac:(done)
                strip_author_pattern_match cfg row st) as Hframe.
  destruct (col_skips name) eqn:Hskip; [|destruct (blank_identifier identifier)
                                           eqn:Hblank].
  - eexists. split.
    { by apply (col_taxon_row_skipped _ cfg row st tid identifier
                  accepted_name_usage name). }
    done.
  - eexists. split.
    { by apply (col_taxon_row_deferred _ cfg row st tid identifier
                  accepted_name_usage name Htid Hidentifier Haccepted Hname
                  kingdom). }
    done.
  - destruct (Hopen (classify kingdom)) as [h Hh];
      [apply classify_in_classes|].
    destruct (col_taxon_row_resolving _ cfg row st tid identifier
                accepted_name_usage name Htid Hidentifier Haccepted Hname
                kingdom h Hskip Hkingdom Hblank Hh)
      as (st' & Hrun & Hfile & Hother & Hin & _ & Hacc & _).
    rewrite Hrun in Hframe. simpl in Hframe.
    injection Hframe as Hcols Htx.
    exists st'. split; [exact Hrun|]. split; [exact Hcols|].
    split; [exact Htx|]. split; [exact Hacc|]. split; [exact Hin|].
    exists h. split; [exact Hh|].
    apply map_eq. intros h'. destruct (decide (h = h')) as [<-|Hne].
    + by rewrite lookup_insert_eq.
    + rewrite lookup_insert_ne by done. by apply Hother.
Qed.

Lemma grows_refl {K : Type} `{Countable K} {V : Type}
    (m : gmap K (list V)) : grows m m.
Proof. intros k l Hl. exists []. by rewrite app_nil_r. Qed.

Lemma grows_trans {K : Type} `{Countable K} {V : Type}
    (m1 m2 m3 : gmap K (list V)) :
  grows m1 m2 -> grows m2 m3 -> grows m1 m3.
Proof.
  intros H12 H23 k l Hl.
  destruct (H12 k l Hl) as [l1 Hl1]. destruct (H23 k _ Hl1) as [l2 Hl2].
  exists (l1 ++ l2)%list. by rewrite app_assoc.
Qed.

Lemma grows_insert_app {K : Type} `{Countable K} {V : Type}
    (m : gmap K (list V)) (k : K) (l' : list V) :
  grows m (<[k := (default [] (m !! k) ++ l')%list]> m).
Proof.
  intros k' l Hl. destruct (decide (k = k')) as [<-|Hne].
  - exists l'. by rewrite lookup_insert_eq, Hl.
  - exists []. by rewrite lookup_insert_ne, app_nil_r.
Qed.

(** Along a well-formed table the taxon pass completes; the files and
    the lists of PendingRedirectMap only grow at their end. *)
Lemma col_taxon_row_grows
    (strip_author_pattern_match : string -> option string) (cfg : config)
    (row : list string) (st : state) :
  col_row_ok (columns st) row -> tx_open st ->
  exists st' : state,
    CatalogueOfLife.read_taxon_row strip_author_pattern_match cfg row st
    = (Ok tt, st') /\
    columns st' = columns st /\
    out_files_tx st' = out_files_tx st /\
    grows (accepted_name_taxon_mapping st) (accepted_name_taxon_mapping st') /\
    grows (files st) (files st').
Proof.
  intros Hok Hopen.
  destruct (col_taxon_row_cases strip_author_pattern_match cfg row st Hok
              Hopen) as (st' & Hrun & Hcols & Htx & Hcases).
  exists st'. split; [exact Hrun|]. split; [exact Hcols|].
  split; [exact Htx|].
  destruct (col_skips _); [|destruct (blank_identifier _)].
  - destruct Hcases as [-> ->]. split; apply grows_refl.
  - destruct Hcases as [-> ->]. split; [|apply grows_refl].
    apply grows_insert_app.
  - destruct Hcases as (-> & _ & h & _ & ->). split; [apply grows_refl|].
    apply grows_insert_app.
Qed.

Lemma col_taxon_rows_grow
    (strip_author_pattern_match : string -> option string) (cfg : config)
    (rows : list (list string)) :
  forall st : state,
    Forall (col_row_ok (columns st)) rows -> tx_open st ->
    exists st' : state,
      for_each (CatalogueOfLife.read_taxon_row strip_author_pattern_match cfg)
               rows st = (Ok tt, st') /\
      columns st' = columns st /\
      out_files_tx st' = out_files_tx st /\
      grows (accepted_name_taxon_mapping st)
            (accepted_name_taxon_mapping st') /\
      grows (files st) (files st').
Proof.
  induction rows as [|row rows IH]; intros st Hrows Hopen.
  - exists st. repeat split; (done || apply grows_refl).
  - apply Forall_cons in Hrows as [Hrow Hrows].
    destruct (col_taxon_row_grows strip_author_pattern_match cfg row st Hrow
                Hopen) as (st1 & Hrun1 & Hcols1 & Htx1 & Hacc1 & Hfiles1).
    destruct (IH st1) as (st' & Hrun & Hcols & Htx & Hacc & Hfiles).
    { by rewrite Hcols1. }
    { unfold tx_open. by rewrite Htx1. }
    exists st'. split.
    { simpl. by rewrite (bind_Ok _ _ st st1 tt Hrun1). }
    split; [congruence|]. split; [congruence|].
    split; eapply grows_trans; eassumption.
Qed.

(** Two runs of the taxon pass that differ only in what is deferred to
    [target] write the same files, as long as no row has [target] as its
    taxon identifier. *)
Lemma col_taxon_row_same_output
    (strip_author_pattern_match : string -> option string) (cfg : config)
    (target : string) (row : list string) (s s' : state) :
  same_output target s s' ->
  col_row_ok (columns s) row -> tx_open s ->
  cell (columns s) taxon_id row <> target ->
  exists t t' : state,
    CatalogueOfLife.read_taxon_row strip_author_pattern_match cfg row s
    = (Ok tt, t) /\
    CatalogueOfLife.read_taxon_row strip_author_pattern_match cfg row s'
    = (Ok tt, t') /\
    same_output target t t'.
Proof.
  intros (Hfiles & Hcols & Htx & Hacc) Hok Hopen Htarget.
  destruct (col_taxon_row_cases strip_author_pattern_match cfg row s Hok
              Hopen) as (t & Hrun & Hcols1 & Htx1 & Hcases).
  destruct (col_taxon_row_cases strip_author_pattern_match cfg row s')
    as (t' & Hrun' & Hcols1' & Htx1' & Hcases').
  { by rewrite <- Hcols. }
  { unfold tx_open. by rewrite <- Htx. }
  exists t, t'. split; [exact Hrun|]. split; [exact Hrun'|].
  rewrite <- Hcols, <- Htx in Hcases'.
  unfold same_output. rewrite Hcols1, Hcols1', Htx1, Htx1'.
  destruct (col_skips _); [|destruct (blank_identifier _)].
  - destruct Hcases as [-> ->], Hcases' as [-> ->]. done.
  - destruct Hcases as [-> ->], Hcases' as [-> ->].
    repeat (split; [done|]). intros k Hk.
    destruct (decide (cell (columns s) accepted_name_usage_id row = k))
      as [<-|Hne].
    + rewrite !lookup_insert_eq. by rewrite Hacc.
    + rewrite !lookup_insert_ne by done. by apply Hacc.
  - destruct Hcases as (-> & _ & h & Hh & ->).
    destruct Hcases' as (-> & _ & h' & Hh' & ->).
    rewrite Hh in Hh'. injection Hh' as <-.
    rewrite <- Hfiles, (Hacc _ Htarget). done.
Qed.

Lemma col_taxon_rows_same_output
    (strip_author_pattern_match : string -> option string) (cfg : config)
    (target : string) (rows : list (list string)) :
  forall s s' : state,
    same_output target s s' ->
    Forall (col_row_ok (columns s)) rows -> tx_open s ->
    Forall (fun row => cell (columns s) taxon_id row <> target) rows ->
    exists t t' : state,
      for_each (CatalogueOfLife.read_taxon_row strip_author_pattern_match cfg)
               rows s = (Ok tt, t) /\
      for_each (CatalogueOfLife.read_taxon_row strip_author_pattern_match cfg)
               rows s' = (Ok tt, t') /\
      same_output target t t'.
Proof.
  induction rows as [|row rows IH]; intros s s' Hsame Hrows Hopen Htarget.
  - by exists s, s'.
  - apply Forall_cons in Hrows as [Hrow Hrows].
    apply Forall_cons in Htarget as [Hrow_target Htarget].
    destruct (col_taxon_row_same_output strip_author_pattern_match cfg target
                row s s' Hsame Hrow Hopen Hrow_target)
      as (s1 & s1' & Hrun1 & Hrun1' & Hsame1).
    pose proof (keeps_col_taxon_row (fun x => (columns x, out_files_tx x))
                  ltac:(done) ltac:(done) ltac:(done) ltac:(done)
                  strip_author_pattern_match cfg row s) as Hframe.
    rewrite Hrun1 in Hframe. simpl in Hframe.
    injection Hframe as Hcols Htx.
    destruct (IH s1 s1' Hsame1) as (t & t' & Hrun & Hrun' & Hsame').
    { by rewrite Hcols. }
    { unfold tx_open. by rewrite Htx. }
    { by rewrite Hcols. }
    exists t, t'. split; [|split; [|exact Hsame']].
    + simpl. by rewrite (bind_Ok _ _ s s1 tt Hrun1).
    + simpl. by rewrite (bind_Ok _ _ s' s1' tt Hrun1').
Qed.

Lemma index_lt (key : string) (header : list string) (i : nat) :
  index key header = Some i -> i < List.length header.
Proof.
  revert i. induction header as [|h header IH]; intros i; simpl; [done|].
  destruct (String.eqb h key).
  - intros [= <-]. lia.
  - destruct (index key header) as [i'|]; simpl; [|done].
    intros [= <-]. specialize (IH i' eq_refl). lia.
Qed.

(** The header of a taxon table that has the nine columns. *)
Lemma col_header_run (header : list string) (rows : list (list string))
    (st : state) :
  (CatalogueOfLife.process_taxon_header [header] st).1 = Ok [] ->
  let sth := (CatalogueOfLife.process_taxon_header [header] st).2 in
  CatalogueOfLife.process_taxon_header (header :: rows) st = (Ok rows, sth) /\
  (forall c, c ∈ col_columns ->
             exists i, columns sth c = Some i /\ i < List.length header) /\
  out_files_tx sth = out_files_tx st /\
  files sth = files st /\
  accepted_name_taxon_mapping sth = accepted_name_taxon_mapping st /\
  taxon_id_identifier_mapping sth = taxon_id_identifier_mapping st.
Proof.
  unfold CatalogueOfLife.process_taxon_header, set_column, bind, modify,
    raise, ret.
  repeat match goal with
         | |- context [index ?key header] =>
             let Hidx := fresh "Hidx" in
             destruct (index key header) as [?|] eqn:Hidx; simpl;
             [|intros; discriminate]
         end.
  intros _. repeat split.
  intros c Hc. unfold col_columns in Hc.
  repeat (apply elem_of_cons in Hc as [-> | Hc];
          [eexists; split; [reflexivity | eapply index_lt; eassumption]|]).
  by apply elem_of_nil in Hc.
Qed.

Lemma for_each_app_Ok {A} (body : A -> M unit) (xs ys : list A)
    (st st1 : state) :
  for_each body xs st = (Ok tt, st1) ->
  for_each body (xs ++ ys) st = for_each body ys st1.
Proof.
  intros Hxs. rewrite for_each_app. by rewrite (bind_Ok _ _ st st1 tt Hxs).
Qed.

Lemma col_read_taxon_tsv_run
    (strip_author_pattern_match : string -> option string) (cfg : config)
    (header : list string) (rows : list (list string)) (st : state) :
  (CatalogueOfLife.process_taxon_header [header] st).1 = Ok [] ->
  CatalogueOfLife.read_taxon_tsv strip_author_pattern_match cfg
    (header :: rows) st
  = for_each (CatalogueOfLife.read_taxon_row strip_author_pattern_match cfg)
      rows (CatalogueOfLife.process_taxon_header [header] st).2.
Proof.
  intros Hheader. unfold CatalogueOfLife.read_taxon_tsv.
  by rewrite (bind_Ok _ _ _ _ _ (proj1 (col_header_run header rows st Hheader))).
Qed.

(** Rows at least as long as the header are long enough for the located
    columns, in every state that still has the column positions of the
    header. *)
Section WellFormedTable.
Variables (header : list string) (st : state).

Let sth : state := (CatalogueOfLife.process_taxon_header [header] st).2.

Hypothesis header_ok :
  (CatalogueOfLife.process_taxon_header [header] st).1 = Ok [].

Lemma long_row_ok (s : state) (row : list string) :
  columns s = columns sth ->
  List.length header <= List.length row ->
  col_row_ok (columns s) row.
Proof.
  intros Hcols Hlong c Hc.
  destruct (proj1 (proj2 (col_header_run header [] st header_ok)) c Hc)
    as (i & Hi & Hlt).
  exists i. rewrite Hcols. split; [exact Hi | lia].
Qed.

Lemma long_rows_ok (s : state) (rows : list (list string)) :
  columns s = columns sth ->
  Forall (fun row => List.length header <= List.length row) rows ->
  Forall (col_row_ok (columns s)) rows.
Proof.
  intros Hcols Hrows. eapply Forall_impl; [exact Hrows|].
  intros row. by apply long_row_ok.
Qed.

Lemma tx_open_same (s : state) :
  tx_open st -> out_files_tx s = out_files_tx sth -> tx_open s.
Proof.
  intros files_open Htx. unfold tx_open. rewrite Htx. unfold sth.
  by rewrite (proj1 (proj2 (proj2 (col_header_run header [] st header_ok)))).
Qed.

End WellFormedTable.

(** ** C1: deferred taxa and the order of the rows *)

Section DeferredTaxon.
Variable strip_author_pattern_match : string -> option string.
Variable cfg : config.
Variables (header : list string) (st : state).
Variables (pre : list (list string)) (A : list string).
Variables (tidA identifierA target nameA : string).

Let sth : state := (CatalogueOfLife.process_taxon_header [header] st).2.
Let body := CatalogueOfLife.read_taxon_row strip_author_pattern_match cfg.

Hypothesis header_ok :
  (CatalogueOfLife.process_taxon_header [header] st).1 = Ok [].
Hypothesis files_open : tx_open st.
Hypothesis pre_long :
  Forall (fun row => List.length header <= List.length row) pre.
Hypothesis A_long : List.length header <= List.length A.
Hypothesis A_tid : (get_taxon_id A sth).1 = Ok tidA.
Hypothesis A_identifier :
  (CatalogueOfLife.get_identifier A sth).1 = Ok identifierA.
Hypothesis A_blank : blank_identifier identifierA = true.
Hypothesis A_accepted : (row_get accepted_name_usage_id A sth).1 = Ok target.
Hypothesis A_name :
  (CatalogueOfLife.get_name strip_author_pattern_match cfg A sth).1 = Ok nameA.
Hypothesis A_kept : col_skips nameA = false.

(** The rows before [A], and then [A] itself, which is deferred. *)
Lemma deferred_after_prefix :
  exists s1 s2 : state,
    for_each body pre sth = (Ok tt, s1) /\
    body A s1 = (Ok tt, s2) /\
    columns s1 = columns sth /\ out_files_tx s1 = out_files_tx sth /\
    columns s2 = columns sth /\ out_files_tx s2 = out_files_tx sth /\
    files s2 = files s1 /\
    accepted_name_taxon_mapping s2
    = <[target := (default [] (accepted_name_taxon_mapping s1 !! target)
                   ++ [(nameA, tidA)])%list]>
        (accepted_name_taxon_mapping s1).
Proof.
  destruct (col_taxon_rows_grow strip_author_pattern_match cfg pre sth)
    as (s1 & Hrun1 & Hcols1 & Htx1 & _ & _).
  { by apply (long_rows_ok header st header_ok). }
  { by apply (tx_open_same header st header_ok). }
  assert (HA : col_row_ok (columns s1) A)
    by by apply (long_row_ok header st header_ok).
  eexists s1, _. split; [exact Hrun1|]. split.
  { apply (col_taxon_row_deferred strip_author_pattern_match cfg A s1 tidA
             identifierA target nameA).
    - unfold get_taxon_id in *. by rewrite (row_get_columns _ _ sth).
    - unfold CatalogueOfLife.get_identifier in *.
      by rewrite (row_get_columns _ _ sth).
    - by rewrite (row_get_columns _ _ sth).
    - by rewrite (col_get_name_columns _ _ _ sth).
    - exact A_kept.
    - unfold get_kingdom. rewrite row_get_cell; [reflexivity|exact HA|].
      in_col_columns.
    - exact A_blank. }
  simpl. done.
Qed.

(** Forward order: a later row [B] with taxon identifier [target] and
    an identifier of its own resolves [A]. *)
Lemma deferred_then_resolved (mid : list (list string)) (B : list string)
    (identifier nameB kingdomB : string) (h : handle) :
  Forall (fun row => List.length header <= List.length row) mid ->
  List.length header <= List.length B ->
  (get_taxon_id B sth).1 = Ok target ->
  (CatalogueOfLife.get_identifier B sth).1 = Ok identifier ->
  blank_identifier identifier = false ->
  (CatalogueOfLife.get_name strip_author_pattern_match cfg B sth).1
  = Ok nameB ->
  col_skips nameB = false ->
  (get_kingdom B nameB sth).1 = Ok kingdomB ->
  out_files_tx st !! classify kingdomB = Some h ->
  exists s4 : state,
    for_each body (pre ++ A :: mid ++ [B]) sth = (Ok tt, s4) /\
    columns s4 = columns sth /\
    out_files_tx s4 = out_files_tx sth /\
    taxon_id_identifier_mapping s4 !! tidA = Some identifier /\
    exists lines : list string,
      files s4 !! h = Some lines /\
      format_line CatalogueOfLife.base_uri nameA identifier ∈ lines /\
      format_line CatalogueOfLife.base_uri nameB identifier ∈ lines.
Proof.
  intros Hmid HB_long HB_tid HB_identifier HB_blank HB_name HB_kept HB_kingdom
    Hh.
  destruct deferred_after_prefix
    as (s1 & s2 & Hpre & HA & Hc1 & Ht1 & Hc2 & Ht2 & Hf2 & Hacc2).
  destruct (col_taxon_rows_grow strip_author_pattern_match cfg mid s2)
    as (s3 & Hrun_mid & Hc3 & Ht3 & Hacc3 & _).
  { by apply (long_rows_ok header st header_ok). }
  { by apply (tx_open_same header st header_ok). }
  destruct (Hacc3 target
              (default [] (accepted_name_taxon_mapping s1 !! target)
               ++ [(nameA, tidA)])%list) as [later Hpending].
  { by rewrite Hacc2, lookup_insert_eq. }
  assert (Hc3' : columns s3 = columns sth) by congruence.
  assert (Ht3' : out_files_tx s3 = out_files_tx sth) by congruence.
  assert (HB_ok : col_row_ok (columns s3) B)
    by by apply (long_row_ok header st header_ok).
  assert (Hh3 : out_files_tx s3 !! classify kingdomB = Some h).
  { rewrite Ht3'. unfold sth.
    by rewrite (proj1 (proj2 (proj2 (col_header_run header [] st
                                       header_ok)))). }
  destruct (col_taxon_row_resolving strip_author_pattern_match cfg B s3
              target identifier
              (cell (columns s3) accepted_name_usage_id B) nameB)
    with (kingdom := kingdomB) (h := h)
    as (s4 & HB & Hfile & _ & Hin & _).
  { unfold get_taxon_id in *. by rewrite (row_get_columns _ _ sth). }
  { unfold CatalogueOfLife.get_identifier in *.
    by rewrite (row_get_columns _ _ sth). }
  { rewrite row_get_cell; [reflexivity|exact HB_ok|]. in_col_columns. }
  { by rewrite (col_get_name_columns _ _ _ sth). }
  { exact HB_kept. }
  { unfold get_kingdom in *. by rewrite (row_get_columns _ _ sth). }
  { exact HB_blank. }
  { exact Hh3. }
  pose proof (keeps_col_taxon_row (fun x => (columns x, out_files_tx x))
                ltac:(done) ltac:(done) ltac:(done) ltac:(done)
                strip_author_pattern_match cfg B s3) as Hframe.
  fold body in HB. unfold body in Hframe. unfold body in HB.
  rewrite HB in Hframe. simpl in Hframe. injection Hframe as Hc4 Ht4.
  rewrite Hpending in Hfile, Hin. simpl in Hfile, Hin.
  exists s4. split.
  { rewrite (for_each_app_Ok body pre _ sth s1 Hpre). simpl.
    rewrite (bind_Ok _ _ s1 s2 tt HA).
    rewrite (for_each_app_Ok body mid _ s2 s3 Hrun_mid). simpl.
    unfold body. by rewrite (bind_Ok _ _ s3 s4 tt HB). }
  split; [congruence|]. split; [congruence|]. split.
  { apply Hin. apply elem_of_cons. right.
    rewrite !fmap_app. apply elem_of_app. left. apply elem_of_app. right.
    simpl. apply list_elem_of_here. }
  eexists. split; [exact Hfile|]. split.
  - apply elem_of_app. right. apply elem_of_cons. right.
    rewrite !fmap_app. apply elem_of_app. left. apply elem_of_app. right.
    simpl. apply list_elem_of_here.
  - apply elem_of_app. right. apply list_elem_of_here.
Qed.

(** Reverse order: with no row after [A] that has the taxon identifier
    [target], the files are what they are without [A]. *)
Lemma deferred_never_resolved (post : list (list string)) :
  Forall (fun row => List.length header <= List.length row) post ->
  Forall (fun row => (get_taxon_id row sth).1 <> Ok target) post ->
  exists t t' : state,
    for_each body (pre ++ A :: post) sth = (Ok tt, t) /\
    for_each body (pre ++ post) sth = (Ok tt, t') /\
    files t = files t'.
Proof.
  intros Hpost Hno_target.
  destruct deferred_after_prefix
    as (s1 & s2 & Hpre & HA & Hc1 & Ht1 & Hc2 & Ht2 & Hf2 & Hacc2).
  destruct (col_taxon_rows_same_output strip_author_pattern_match cfg target
              post s2 s1) as (t & t' & Hrun & Hrun' & Hsame).
  { split; [exact Hf2|]. split; [congruence|]. split; [congruence|].
    intros k Hk. rewrite Hacc2. by apply lookup_insert_ne. }
  { by apply (long_rows_ok header st header_ok). }
  { by apply (tx_open_same header st header_ok). }
  { apply Forall_forall. intros row Hrow Heq.
    rewrite Forall_forall in Hno_target, Hpost.
    apply (Hno_target row Hrow). unfold get_taxon_id.
    rewrite row_get_cell;
      [|apply (long_row_ok header st header_ok);
        [reflexivity | by apply Hpost]|in_col_columns].
    simpl. by rewrite <- Hc2, Heq. }
  exists t, t'. split; [|split; [|apply Hsame]].
  - rewrite (for_each_app_Ok body pre _ sth s1 Hpre). simpl.
    by rewrite (bind_Ok _ _ s1 s2 tt HA).
  - by rewrite (for_each_app_Ok body pre _ sth s1 Hpre).
Qed.

End DeferredTaxon.

(** C1, as stated, fails: row [B] below has taxon identifier "T2",
    identifier "X1" and a name that is not empty (the composed name of
    three empty fields is two spaces), yet it is skipped as white space.
    Nothing is written for [A] or for [B], and IdentifierMap keeps the
    empty identifier for the taxon of [A]. *)
Lemma deferred_taxon_blank_target_counterexample :
  let cfg := Config true None true false in
  let A := ["T1"; ""; "T2"; "Rosa alba L."; "Plantae"; "Rosa"; "Rosa";
            "alba"; ""] in
  let B := ["T2"; "X1"; ""; "Rosaceae"; "Plantae"; ""; ""; ""; ""] in
  let sth := (CatalogueOfLife.process_taxon_header [col_header] blank).2 in
  let result :=
    CatalogueOfLife.run (fun _ => None) cfg [col_header; A; B] [] blank in
  (CatalogueOfLife.get_identifier A sth).1 = Ok "" /\
  (row_get accepted_name_usage_id A sth).1 = Ok "T2" /\
  (get_taxon_id B sth).1 = Ok "T2" /\
  (CatalogueOfLife.get_identifier B sth).1 = Ok "X1" /\
  (CatalogueOfLife.get_name (fun _ => None) cfg B sth).1 = Ok "  " /\
  "  " <> "" /\
  result.1 = Ok (0, 0) /\
  forallb (fun file : handle * list string => bool_decide (file.2 = []))
          (map_to_list (files result.2)) = true /\
  taxon_id_identifier_mapping result.2 !! "T1" = Some "" /\
  Some "" <> Some "X1".
Proof.
  repeat split; try (vm_compute; reflexivity); discriminate.
Qed.

(** C1, amended: in a Catalogue-of-Life taxon table whose header has the
    nine columns and whose rows are at least as long as the header, let
    row [A] have an empty or white-space identifier, the accepted-name
    reference [target], and a name that passes the name filter (not
    empty, not white space, not "incertae sedis").

    If a later row [B] has the taxon identifier [target], an identifier
    that is neither empty nor white space, and a name that passes the
    name filter, the taxon pass completes, the taxon file of the class of
    [B] holds the line of the name of [A] and the line of the name of
    [B], both with the identifier of [B] as URI suffix, and right after
    [B] IdentifierMap maps the taxon identifier of [A] to the identifier
    of [B].

    If no row after [A] has the taxon identifier [target] (the target
    comes earlier or not at all), the taxon pass completes and writes
    exactly what it writes on the table without [A]. *)
Theorem deferred_taxon_and_row_order
    (strip_author_pattern_match : string -> option string) (cfg : config)
    (header : list string) (st : state)
    (pre mid post : list (list string)) (A B : list string)
    (tidA identifierA target nameA identifier nameB kingdomB : string)
    (h : handle) :
  let sth := (CatalogueOfLife.process_taxon_header [header] st).2 in
  let read := CatalogueOfLife.read_taxon_tsv strip_author_pattern_match cfg in
  let long (row : list string) := List.length header <= List.length row in
  (CatalogueOfLife.process_taxon_header [header] st).1 = Ok [] ->
  tx_open st ->
  Forall long pre ->
  long A ->
  (get_taxon_id A sth).1 = Ok tidA ->
  (CatalogueOfLife.get_identifier A sth).1 = Ok identifierA ->
  blank_identifier identifierA = true ->
  (row_get accepted_name_usage_id A sth).1 = Ok target ->
  (CatalogueOfLife.get_name strip_author_pattern_match cfg A sth).1
  = Ok nameA ->
  col_skips nameA = false ->
  (Forall long mid -> long B -> Forall long post ->
   (get_taxon_id B sth).1 = Ok target ->
   (CatalogueOfLife.get_identifier B sth).1 = Ok identifier ->
   blank_identifier identifier = false ->
   (CatalogueOfLife.get_name strip_author_pattern_match cfg B sth).1
   = Ok nameB ->
   col_skips nameB = false ->
   (get_kingdom B nameB sth).1 = Ok kingdomB ->
   out_files_tx st !! classify kingdomB = Some h ->
   let upto_B := read (header :: pre ++ A :: mid ++ [B]) st in
   let whole := read (header :: pre ++ A :: mid ++ B :: post) st in
   upto_B.1 = Ok tt /\
   taxon_id_identifier_mapping upto_B.2 !! tidA = Some identifier /\
   whole.1 = Ok tt /\
   exists lines : list string,
     files whole.2 !! h = Some lines /\
     format_line CatalogueOfLife.base_uri nameA identifier ∈ lines /\
     format_line CatalogueOfLife.base_uri nameB identifier ∈ lines) /\
  (Forall long post ->
   Forall (fun row => (get_taxon_id row sth).1 <> Ok target) post ->
   let with_A := read (header :: pre ++ A :: post) st in
   let without_A := read (header :: pre ++ post) st in
   with_A.1 = Ok tt /\
   without_A.1 = Ok tt /\
   files with_A.2 = files without_A.2).
Proof.
  intros sth read long Hheader Hopen Hpre HA_long HA_tid HA_identifier
    HA_blank HA_accepted HA_name HA_kept.
  split.
  - intros Hmid HB_long Hpost HB_tid HB_identifier HB_blank HB_name HB_kept
      HB_kingdom Hh upto_B whole.
    destruct (deferred_then_resolved strip_author_pattern_match cfg header st
                pre A tidA identifierA target nameA Hheader Hopen Hpre
                HA_long HA_tid HA_identifier HA_blank HA_accepted HA_name
                HA_kept mid B identifier nameB kingdomB h Hmid HB_long HB_tid
                HB_identifier HB_blank HB_name HB_kept HB_kingdom Hh)
      as (s4 & Hrun & Hcols & Htx & Hmap & lines & Hlines & HinA & HinB).
    destruct (col_taxon_rows_grow strip_author_pattern_match cfg post s4)
      as (s5 & Hrun_post & _ & _ & _ & Hgrow).
    { apply (long_rows_ok header st Hheader); done. }
    { apply (tx_open_same header st Hheader); done. }
    destruct (Hgrow h lines Hlines) as [more Hmore].
    assert (Hwhole :
              for_each
                (CatalogueOfLife.read_taxon_row strip_author_pattern_match cfg)
                (pre ++ A :: mid ++ B :: post)
                (CatalogueOfLife.process_taxon_header [header] st).2
              = (Ok tt, s5)).
    { replace (pre ++ A :: mid ++ B :: post)%list
        with ((pre ++ A :: mid ++ [B]) ++ post)%list.
      - by rewrite (for_each_app_Ok _ _ post _ s4 Hrun).
      - rewrite <- !app_assoc. simpl. by rewrite <- !app_assoc. }
    subst upto_B whole read.
    rewrite !col_read_taxon_tsv_run by done.
    rewrite Hrun, Hwhole. simpl.
    split; [done|]. split; [exact Hmap|]. split; [done|].
    exists (lines ++ more)%list. split; [exact Hmore|].
    split; apply elem_of_app; by left.
  - intros Hpost Hno_target with_A without_A.
    destruct (deferred_never_resolved strip_author_pattern_match cfg header
                st pre A tidA identifierA target nameA Hheader Hopen Hpre
                HA_long HA_tid HA_identifier HA_blank HA_accepted HA_name
                HA_kept post Hpost Hno_target)
      as (t & t' & Hrun & Hrun' & Hfiles).
    subst with_A without_A read.
    rewrite !col_read_taxon_tsv_run by done.
    by rewrite Hrun, Hrun'.
Qed.

Lemma deferred_taxon_and_row_order_witness :
  let cfg := Config true None true false in
  let st := (init_base cfg blank).2 in
  let read := CatalogueOfLife.read_taxon_tsv (fun _ => None) cfg in
  taxon_id_identifier_mapping
    (read [col_header; col_row_A; col_row_B] st).2 !! "T1" = Some "X1" /\
  files (read [col_header; col_row_B; col_row_A; col_row_C] st).2
  = files (read [col_header; col_row_B; col_row_C] st).2.
Proof.
  intros cfg st read.
  assert (Hopen : tx_open st).
  { intros clazz Hin. unfold classes in Hin. simpl in Hin.
    repeat (apply elem_of_cons in Hin as [-> | Hin];
            [vm_compute; eexists; reflexivity|]).
    by apply elem_of_nil in Hin. }
  split.
  - refine (proj1 (proj2 (proj1
              (deferred_taxon_and_row_order (fun _ => None) cfg col_header st
                 [] [] [] col_row_A col_row_B "T1" "" "T2" "Rosa alba "
                 "X1" "Canis lupus " "Animalia" ("Animal_Fauna", "_tx")
                 eq_refl Hopen _ _ eq_refl eq_refl eq_refl eq_refl eq_refl
                 eq_refl)
              _ _ _ eq_refl eq_refl eq_refl eq_refl eq_refl eq_refl
              eq_refl))).
    + constructor.
    + simpl; lia.
    + constructor.
    + simpl; lia.
    + constructor.
  - refine (proj2 (proj2 (proj2
              (deferred_taxon_and_row_order (fun _ => None) cfg col_header st
                 [col_row_B] [] [col_row_C] col_row_A col_row_B "T1" "" "T2"
                 "Rosa alba " "X1" "Canis lupus " "Animalia"
                 ("Animal_Fauna", "_tx")
                 eq_refl Hopen _ _ eq_refl eq_refl eq_refl eq_refl eq_refl
                 eq_refl)
              _ _))).
    + repeat constructor; simpl; lia.
    + simpl; lia.
    + repeat constructor; simpl; lia.
    + repeat constructor. vm_compute. discriminate.
Defined.

(** * Further properties of the code *)

(** ** The constructor: [get_out_files] *)

Lemma foldl_insert_lookup_in {A K V : Type} `{Countable K}
    (k : A -> K) (v : A -> V) `{!Inj (=) (=) k} (xs : list A) :
  forall (m : gmap K V) (x : A),
    x ∈ xs ->
    foldl (fun m x => <[k x := v x]> m) m xs !! k x = Some (v x).
Proof.
  induction xs as [|y xs IH] using rev_ind; intros m x Hx.
  - by apply elem_of_nil in Hx.
  - rewrite foldl_app. simpl. apply elem_of_app in Hx as [Hx|Hx].
    + destruct (decide (k y = k x)) as [Heq|Hne].
      * apply (inj k) in Heq. subst y. by rewrite lookup_insert_eq.
      * rewrite lookup_insert_ne by done. by apply IH.
    + apply list_elem_of_singleton in Hx. subst y.
      by rewrite lookup_insert_eq.
Qed.

Lemma foldl_insert_lookup_notin {A K V : Type} `{Countable K}
    (k : A -> K) (v : A -> V) (xs : list A) :
  forall (m : gmap K V) (key : K),
    key ∉ k <$> xs ->
    foldl (fun m x => <[k x := v x]> m) m xs !! key = m !! key.
Proof.
  induction xs as [|y xs IH]; intros m key Hkey; simpl; [done|].
  rewrite fmap_cons in Hkey. apply not_elem_of_cons in Hkey as [Hne Hkey].
  rewrite IH by done. by rewrite lookup_insert_ne.
Qed.

(** [get_out_files]: the dictionary has one handle per class, and the
    files of these handles are (again) empty. *)
Lemma open_files_run (identifier : string) (cls : list string) :
  forall (d : gmap string handle) (st : state),
    open_files identifier cls d st
    = (Ok (foldl (fun d clazz => <[clazz := (clazz, identifier)]> d) d cls),
       set_files
         (fun fs =>
            foldl (fun fs clazz => <[(clazz, identifier) := []]> fs) fs cls)
         st).
Proof.
  induction cls as [|clazz cls IH]; intros d st; simpl.
  - by destruct st.
  - unfold bind, modify. simpl. by rewrite IH.
Qed.

Lemma handle_not_opened (identifier : string) (cls : list string)
    (h : handle) :
  h.2 <> identifier -> h ∉ (fun clazz => (clazz, identifier)) <$> cls.
Proof.
  intros Hne Hin. apply list_elem_of_fmap in Hin as (clazz & -> & _).
  by apply Hne.
Qed.

Lemma opened_handle_lookup (identifier : string) (cls : list string)
    (fs : gmap handle (list string)) (clazz : string) :
  clazz ∈ cls ->
  foldl (fun fs clazz => <[(clazz, identifier) := []]> fs) fs cls
    !! (clazz, identifier) = Some [].
Proof.
  intros Hin.
  assert (Hinj : Inj (=) (=) (fun clazz : string => (clazz, identifier))).
  { by intros x y [= ->]. }
  apply (foldl_insert_lookup_in (fun clazz => (clazz, identifier))
           (fun _ => []) cls fs clazz Hin).
Qed.

Lemma opened_dict_lookup (identifier : string) (cls : list string)
    (clazz : string) :
  foldl (fun d clazz => <[clazz := (clazz, identifier)]> d)
        (∅ : gmap string handle) cls !! clazz
  = if decide (clazz ∈ cls) then Some (clazz, identifier) else None.
Proof.
  destruct (decide (clazz ∈ cls)) as [Hin|Hout].
  - assert (Hinj : Inj (=) (=) (fun clazz : string => clazz)).
    { by intros x y. }
    apply (foldl_insert_lookup_in (fun clazz => clazz)
             (fun clazz => (clazz, identifier)) cls ∅ clazz Hin).
  - rewrite (foldl_insert_lookup_notin (fun clazz => clazz)
               (fun clazz => (clazz, identifier)) cls ∅ clazz).
    + apply lookup_empty.
    + by rewrite list_fmap_id.
Qed.

(** What the constructor leaves behind, before the passes run. *)
Lemma init_base_opens (cfg : config) (st : state) :
  let result := init_base cfg st in
  let tx := tx_identifier cfg in
  let vn := vn_identifier cfg in
  result.1 = Ok tt /\
  id_kingdom_map result.2 = ∅ /\
  (forall clazz, clazz ∈ classes ->
     out_files_tx result.2 !! clazz = Some (clazz, tx) /\
     out_files_vn result.2 !! clazz = Some (clazz, vn) /\
     files result.2 !! (clazz, tx) = Some [] /\
     files result.2 !! (clazz, vn) = Some []) /\
  (forall clazz, clazz ∉ classes ->
     out_files_tx result.2 !! clazz = None /\
     out_files_vn result.2 !! clazz = None) /\
  (forall h : handle, h.2 <> tx -> h.2 <> vn ->
     files result.2 !! h = files st !! h) /\
  (separate_vernacular_names cfg = true -> tx <> vn) /\
  (separate_vernacular_names cfg = false ->
   out_files_vn result.2 = out_files_tx result.2).
Proof.
  intros result tx vn. subst result tx vn.
  unfold init_base, tx_identifier, vn_identifier, get_out_files, bind, modify.
  fold classes. generalize classes. intros cls.
  destruct (separate_vernacular_names cfg); rewrite !open_files_run; simpl;
    rewrite ?open_files_run; simpl.
  - split; [done|]. split; [done|]. split; [|split; [|split; [|split]]].
    + intros clazz Hin. rewrite !opened_dict_lookup.
      rewrite !decide_True by done. split; [done|]. split; [done|]. split.
      * rewrite foldl_insert_lookup_notin
          by (by apply handle_not_opened).
        by apply opened_handle_lookup.
      * by apply opened_handle_lookup.
    + intros clazz Hout. rewrite !opened_dict_lookup.
      by rewrite !decide_False by done.
    + intros h Htx Hvn.
      rewrite !foldl_insert_lookup_notin by (by apply handle_not_opened).
      done.
    + done.
    + done.
  - split; [done|]. split; [done|]. split; [|split; [|split; [|split]]].
    + intros clazz Hin. rewrite !opened_dict_lookup.
      rewrite !decide_True by done. split; [done|]. split; [done|].
      split; by apply opened_handle_lookup.
    + intros clazz Hout. rewrite !opened_dict_lookup.
      by rewrite !decide_False by done.
    + intros h Htx _.
      rewrite !foldl_insert_lookup_notin by (by apply handle_not_opened).
      done.
    + done.
    + done.
Qed.

(** X1: the constructor opens one taxon file and one vernacular file per
    class, all of them empty, whatever the object held before; it opens
    no file for any other class and touches no other file, and it resets
    KingdomMap.  With [separate_vernacular_names] the two files of a
    class are different files; without it the vernacular dictionary is
    the taxon dictionary, so both streams of a class are one file. *)
Theorem constructor_opens_empty_files (cfg : config) (st : state) :
  let result := init_base cfg st in
  let tx := tx_identifier cfg in
  let vn := vn_identifier cfg in
  result.1 = Ok tt /\
  id_kingdom_map result.2 = ∅ /\
  (forall clazz, clazz ∈ classes ->
     out_files_tx result.2 !! clazz = Some (clazz, tx) /\
     out_files_vn result.2 !! clazz = Some (clazz, vn) /\
     files result.2 !! (clazz, tx) = Some [] /\
     files result.2 !! (clazz, vn) = Some []) /\
  (forall clazz, clazz ∉ classes ->
     out_files_tx result.2 !! clazz = None /\
     out_files_vn result.2 !! clazz = None) /\
  (forall h : handle, h.2 <> tx -> h.2 <> vn ->
     files result.2 !! h = files st !! h) /\
  (separate_vernacular_names cfg = true -> tx <> vn) /\
  (separate_vernacular_names cfg = false ->
   out_files_vn result.2 = out_files_tx result.2).
Proof. exact (init_base_opens cfg st). Qed.

Lemma constructor_opens_empty_files_witness :
  let cfg := Config true None true false in
  let result := init_base cfg blank in
  out_files_tx result.2 !! "Fungi" = Some ("Fungi", "_tx") /\
  out_files_vn result.2 !! "Fungi" = Some ("Fungi", "_vn") /\
  files result.2 !! ("Fungi", "_tx") = Some [] /\
  files result.2 !! ("Fungi", "_vn") = Some [].
Proof.
  intros cfg result.
  assert (Hin : "Fungi" ∈ classes).
  { unfold classes. simpl. do 4 apply list_elem_of_further.
    apply list_elem_of_here. }
  exact (proj1 (proj2 (proj2 (constructor_opens_empty_files cfg blank)))
           "Fungi" Hin).
Defined.

(** ** Both passes only append *)

Section Leads.
Context (R : state -> state -> Prop) `{!PreOrder R}.

Lemma leads_ret {A} (a : A) : leads R (ret a).
Proof. intros st. reflexivity. Qed.

Lemma leads_raise {A} (e : exn) : leads R (@raise A e).
Proof. intros st. reflexivity. Qed.

Lemma leads_modify (g : state -> state) :
  (forall st, R st (g st)) -> leads R (modify g).
Proof. intros Hg st. apply Hg. Qed.

Lemma leads_bind {A B} (m : M A) (k : A -> M B) :
  leads R m -> (forall a, leads R (k a)) -> leads R (bind m k).
Proof.
  intros Hm Hk st. unfold bind. specialize (Hm st).
  destruct (m st) as [[a|e] st1]; simpl in *; [|done].
  etrans; [exact Hm | apply Hk].
Qed.

(** Reading the object and going on with what was read. *)
Lemma leads_get_bind {B} (k : state -> M B) :
  (forall st, R st (k st st).2) -> leads R (bind get k).
Proof. intros Hk st. apply Hk. Qed.

Lemma leads_for_each {A} (body : A -> M unit) (xs : list A) :
  (forall x, leads R (body x)) -> leads R (for_each body xs).
Proof.
  intros Hbody. induction xs as [|x xs IH]; simpl.
  - apply leads_ret.
  - apply leads_bind; [apply Hbody | intros _; apply IH].
Qed.

Lemma leads_for_fold {A S} (body : A -> S -> M S) (xs : list A) (s : S) :
  (forall x s', leads R (body x s')) -> leads R (for_fold body xs s).
Proof.
  intros Hbody. revert s. induction xs as [|x xs IH]; intros s; simpl.
  - apply leads_ret.
  - apply leads_bind; [apply Hbody | intros s'; apply IH].
Qed.

Lemma leads_row_get (c : column) (row : list string) :
  leads R (row_get c row).
Proof. intros st. rewrite row_get_state. reflexivity. Qed.

End Leads.

(** What the four readers do to the object, for any relation that every
    one of their assignments respects: column attributes, KingdomMap and
    IdentifierMap entries, a taxon appended to a list of
    PendingRedirectMap, and a formatted line appended to a file. *)
Section ReadersLead.
Context (R : state -> state -> Prop) `{!PreOrder R}.
Hypothesis R_columns : forall g st, R st (set_columns g st).
Hypothesis R_kingdom : forall g st, R st (set_id_kingdom_map g st).
Hypothesis R_identifier :
  forall g st, R st (set_taxon_id_identifier_mapping g st).
Hypothesis R_defer :
  forall k other st,
    R st (set_accepted_name_taxon_mapping
            <[k := (default [] (accepted_name_taxon_mapping st !! k)
                    ++ [other])%list]> st).
Hypothesis R_line :
  forall h base_uri name suffix st,
    R st (set_files
            (fun fs =>
               <[h := (default [] (fs !! h)
                       ++ [format_line base_uri name suffix])%list]> fs) st).

Lemma leads_set_column (c : column) (key : string) (header : list string) :
  leads R (set_column c key header).
Proof.
  unfold set_column. destruct (index key header).
  - apply leads_modify. intros st. apply R_columns.
  - by apply leads_raise.
Qed.

Lemma leads_write_line (out_files : state -> gmap string handle)
    (clazz base_uri name suffix : string) :
  leads R (write out_files clazz (format_line base_uri name suffix)).
Proof.
  unfold write. apply leads_get_bind. intros st.
  destruct (out_files st !! clazz) as [h|]; simpl.
  - apply R_line.
  - reflexivity.
Qed.

Lemma leads_backbone_taxon_row (line : list string) :
  leads R (Backbone.read_taxon_row line).
Proof.
  unfold Backbone.read_taxon_row, get_taxon_id, Backbone.get_name,
    get_kingdom.
  apply (leads_bind R); [by apply leads_row_get | intros tid].
  apply (leads_bind R); [by apply leads_row_get | intros name].
  destruct (_ || _); [by apply leads_ret|].
  apply (leads_bind R); [by apply leads_row_get | intros kingdom].
  apply (leads_bind R); [| intros _; apply leads_write_line].
  apply leads_modify. intros st. apply R_kingdom.
Qed.

Lemma leads_col_taxon_row
    (strip_author_pattern_match : string -> option string) (cfg : config)
    (row : list string) :
  leads R
    (CatalogueOfLife.read_taxon_row strip_author_pattern_match cfg row).
Proof.
  unfold CatalogueOfLife.read_taxon_row, get_taxon_id,
    CatalogueOfLife.get_identifier, get_kingdom.
  apply (leads_bind R); [by apply leads_row_get | intros tid].
  apply (leads_bind R); [by apply leads_row_get | intros identifier].
  apply (leads_bind R); [by apply leads_row_get | intros accepted].
  apply (leads_bind R); [| intros _].
  { apply leads_modify. intros st. apply R_identifier. }
  apply (leads_bind R); [| intros name].
  { intros st. rewrite col_get_name_state. reflexivity. }
  destruct (_ || _); [by apply leads_ret|].
  apply (leads_bind R); [by apply leads_row_get | intros kingdom].
  apply (leads_bind R); [| intros _].
  { apply leads_modify. intros st. apply R_kingdom. }
  destruct (_ || _).
  - apply leads_get_bind. intros st. simpl. apply R_defer.
  - apply (leads_bind R); [apply leads_write_line | intros _].
    apply leads_get_bind. intros st.
    apply (leads_for_each R). intros [other_name other_taxon_id].
    simpl.
    apply (leads_bind R); [apply leads_write_line | intros _].
    apply leads_modify. intros st'. apply R_identifier.
Qed.

Lemma leads_vernacular_row (p : processor) (cfg : config)
    (row : list string) (counts : nat * nat) :
  leads R (read_vernacular_row_of p cfg row counts).
Proof.
  destruct p; simpl.
  - unfold Backbone.read_vernacular_row, get_taxon_id, get_vernacular_name,
      get_language.
    apply (leads_bind R); [by apply leads_row_get | intros tid].
    apply (leads_bind R); [by apply leads_row_get | intros name].
    apply (leads_bind R); [by apply leads_row_get | intros lang].
    destruct (any_filter_lang _ _); [|by apply leads_ret].
    apply (leads_bind R); [| intros _; by apply leads_ret].
    apply (leads_for_each R). intros part.
    unfold Backbone.write_vernacular_name.
    apply leads_get_bind. intros st. apply leads_write_line.
  - unfold CatalogueOfLife.read_vernacular_row, get_taxon_id,
      get_vernacular_name, get_language.
    apply (leads_bind R); [by apply leads_row_get | intros tid].
    apply leads_get_bind. intros st.
    apply (leads_bind R); [by apply leads_row_get | intros name].
    apply (leads_bind R); [by apply leads_row_get | intros lang].
    destruct (any_filter_lang _ _); [|by apply leads_ret].
    apply (leads_bind R); [| intros _; by apply leads_ret].
    apply (leads_for_each R). intros part.
    unfold CatalogueOfLife.write_vernacular_name.
    apply leads_get_bind. intros st'. apply leads_write_line.
Qed.

Lemma leads_locate_all (cks : list (column * string)) (header : list string) :
  leads R (locate_all cks header).
Proof. apply (leads_for_each R). intros ck. apply leads_set_column. Qed.

Lemma leads_taxon_tsv (p : processor)
    (strip_author_pattern_match : string -> option string) (cfg : config)
    (reader : list (list string)) :
  leads R (read_taxon_tsv_of p strip_author_pattern_match cfg reader).
Proof.
  destruct p; simpl.
  - unfold Backbone.read_taxon_tsv.
    apply (leads_bind R).
    + unfold Backbone.process_taxon_header. destruct reader; simpl;
        [by apply leads_ret|].
      repeat (apply (leads_bind R); [apply leads_set_column | intros _]).
      by apply leads_ret.
    + intros rows. apply (leads_for_each R). apply leads_backbone_taxon_row.
  - unfold CatalogueOfLife.read_taxon_tsv.
    apply (leads_bind R).
    + unfold CatalogueOfLife.process_taxon_header. destruct reader; simpl;
        [by apply leads_ret|].
      repeat (apply (leads_bind R); [apply leads_set_column | intros _]).
      by apply leads_ret.
    + intros rows. apply (leads_for_each R). apply leads_col_taxon_row.
Qed.

Lemma leads_vernacular_tsv (p : processor) (cfg : config)
    (reader : list (list string)) :
  leads R (read_vernacular_names_tsv_of p cfg reader).
Proof.
  destruct p; simpl.
  - unfold Backbone.read_vernacular_names_tsv.
    apply (leads_bind R).
    + unfold Backbone.process_vernacular_names_header. destruct reader; simpl;
        [by apply leads_ret|].
      repeat (apply (leads_bind R); [apply leads_set_column | intros _]).
      by apply leads_ret.
    + intros rows. apply (leads_for_fold R). intros row counts.
      apply (leads_vernacular_row BackboneProcessor).
  - unfold CatalogueOfLife.read_vernacular_names_tsv.
    apply (leads_bind R).
    + unfold process_vernacular_names_header. destruct reader; simpl;
        [by apply leads_ret|].
      repeat (apply (leads_bind R); [apply leads_set_column | intros _]).
      by apply leads_ret.
    + intros rows. apply (leads_for_fold R). intros row counts.
      apply (leads_vernacular_row CatalogueOfLifeProcessor).
Qed.

End ReadersLead.

Global Instance only_appends_preorder : PreOrder only_appends.
Proof.
  split.
  - intros s. split; apply grows_refl.
  - intros s1 s2 s3 [Hf12 Ha12] [Hf23 Ha23].
    split; eapply grows_trans; eassumption.
Qed.

Lemma taxon_tsv_only_appends (p : processor)
    (strip_author_pattern_match : string -> option string) (cfg : config)
    (reader : list (list string)) :
  leads only_appends
    (read_taxon_tsv_of p strip_author_pattern_match cfg reader).
Proof.
  apply (leads_taxon_tsv only_appends); intros; split;
    (apply grows_refl || apply grows_insert_app).
Qed.

Lemma vernacular_tsv_only_appends (p : processor) (cfg : config)
    (reader : list (list string)) :
  leads only_appends (read_vernacular_names_tsv_of p cfg reader).
Proof.
  apply (leads_vernacular_tsv only_appends); intros; split;
    (apply grows_refl || apply grows_insert_app).
Qed.

(** X2: neither pass of either processor ever removes or rewrites what
    was written: on any table and from any state, whether the pass
    completes or raises, every file still starts with the lines it held
    before, and every list of PendingRedirectMap still starts with the
    taxa it held before (deferred taxa are never consumed). *)
Theorem passes_only_append
    (strip_author_pattern_match : string -> option string) (cfg : config)
    (reader : list (list string)) (st : state) :
  only_appends st (Backbone.read_taxon_tsv reader st).2 /\
  only_appends st (Backbone.read_vernacular_names_tsv cfg reader st).2 /\
  only_appends st
    (CatalogueOfLife.read_taxon_tsv strip_author_pattern_match cfg reader
       st).2 /\
  only_appends st
    (CatalogueOfLife.read_vernacular_names_tsv cfg reader st).2 /\
  (forall s s' : state,
      only_appends s s' <->
      (forall h lines, files s !! h = Some lines ->
                       exists more, files s' !! h = Some (lines ++ more)%list)
      /\
      (forall k taxa, accepted_name_taxon_mapping s !! k = Some taxa ->
                      exists more,
                        accepted_name_taxon_mapping s' !! k
                        = Some (taxa ++ more)%list)).
Proof.
  split; [|split; [|split; [|split]]].
  - apply (taxon_tsv_only_appends BackboneProcessor
             strip_author_pattern_match cfg).
  - apply (vernacular_tsv_only_appends BackboneProcessor).
  - apply (taxon_tsv_only_appends CatalogueOfLifeProcessor).
  - apply (vernacular_tsv_only_appends CatalogueOfLifeProcessor).
  - intros s s'. reflexivity.
Qed.

(** ** Headers *)

Lemma index_Some (key : string) (header : list string) (i : nat) :
  index key header = Some i ->
  header !! i = Some key /\ forall j, j < i -> header !! j <> Some key.
Proof.
  revert i. induction header as [|h header IH]; intros i; simpl; [done|].
  destruct (String.eqb_spec h key) as [->|Hne].
  - intros [= <-]. split; [done|]. intros j Hj. lia.
  - destruct (index key header) as [i'|]; simpl; [|done].
    intros [= <-]. destruct (IH i' eq_refl) as [Hi' Hfirst].
    split; [done|]. intros [|j] Hj; simpl.
    + congruence.
    + apply Hfirst. lia.
Qed.

Lemma index_None (key : string) (header : list string) :
  index key header = None <-> key ∉ header.
Proof.
  induction header as [|h header IH]; simpl.
  - split; [intros _; apply not_elem_of_nil | done].
  - destruct (String.eqb_spec h key) as [->|Hne].
    + split; [done|]. intros Hout. exfalso. apply Hout. apply list_elem_of_here.
    + rewrite not_elem_of_cons. destruct (index key header); simpl.
      * split; [done|]. intros [_ Hout]. by apply IH in Hout.
      * split; [|done]. intros _. split; [congruence | by apply IH].
Qed.

Lemma keeps_locate_all {X} (f : state -> X) (cks : list (column * string))
    (header : list string) :
  (forall g st, f (set_columns g st) = f st) ->
  keeps f (locate_all cks header).
Proof.
  intros Hf. apply keeps_for_each. intros ck. by apply keeps_set_column.
Qed.

Lemma locate_all_cons (header : list string) (c : column) (key : string)
    (cks : list (column * string)) (st : state) (i : nat) :
  index key header = Some i ->
  locate_all ((c, key) :: cks) header st
  = locate_all cks header (set_columns <[c := Some i]> st).
Proof.
  intros Hindex. unfold locate_all. simpl. unfold bind, set_column. simpl.
  by rewrite Hindex.
Qed.

Lemma locate_all_found (header : list string) (cks : list (column * string)) :
  forall st : state,
    Forall (fun ck : column * string => ck.2 ∈ header) cks ->
    NoDup cks.*1 ->
    (locate_all cks header st).1 = Ok tt /\
    Forall (located header (locate_all cks header st).2) cks /\
    (forall c, c ∉ cks.*1 ->
               columns (locate_all cks header st).2 c = columns st c).
Proof.
  induction cks as [|[c key] cks IH]; intros st Hkeys Hnodup.
  - simpl. done.
  - apply Forall_cons in Hkeys as [Hkey Hkeys].
    rewrite fmap_cons in Hnodup. apply NoDup_cons in Hnodup as [Hc Hnodup].
    simpl in Hkey, Hc.
    destruct (index key header) as [i|] eqn:Hindex;
      [|by apply index_None in Hindex].
    rewrite (locate_all_cons header c key cks st i Hindex).
    destruct (IH (set_columns <[c := Some i]> st) Hkeys Hnodup)
      as (Hok & Hlocated & Hother).
    split; [exact Hok|]. split.
    + apply Forall_cons. split; [|exact Hlocated].
      exists i. simpl. rewrite (Hother c Hc). simpl.
      rewrite fn_lookup_insert. split; [done|]. by apply index_Some.
    + intros c' Hc'. rewrite fmap_cons in Hc'.
      apply not_elem_of_cons in Hc' as [Hne Hc']. simpl in Hne.
      rewrite (Hother c' Hc'). simpl. by rewrite fn_lookup_insert_ne.
Qed.

Lemma locate_all_missing (header : list string)
    (cks : list (column * string)) :
  forall st : state,
    ~ Forall (fun ck : column * string => ck.2 ∈ header) cks ->
    (locate_all cks header st).1 = Raise ValueError.
Proof.
  induction cks as [|[c key] cks IH]; intros st Hkeys.
  - exfalso. apply Hkeys. constructor.
  - destruct (index key header) as [i|] eqn:Hindex.
    2: { unfold locate_all. simpl. unfold bind, set_column. simpl.
         by rewrite Hindex. }
    rewrite (locate_all_cons header c key cks st i Hindex).
    apply IH. intros Hrest. apply Hkeys.
    apply Forall_cons. split; [|exact Hrest]. simpl.
    destruct (decide (key ∈ header)) as [Hin|Hout]; [done|].
    apply index_None in Hout. congruence.
Qed.

(** Each header method assigns its attributes in the order of its key
    list and then hands the remaining rows on. *)
Lemma process_header_locate_all (hm : header_method) (header : list string)
    (rows : list (list string)) (st : state) :
  process_header_of hm (header :: rows) st
  = (match (locate_all (keys_of hm) header st).1 with
     | Ok _ => Ok rows
     | Raise e => Raise e
     end, (locate_all (keys_of hm) header st).2).
Proof.
  destruct hm; simpl;
    unfold Backbone.process_taxon_header, CatalogueOfLife.process_taxon_header,
      process_vernacular_names_header,
      Backbone.process_vernacular_names_header, locate_all; simpl;
    unfold bind; simpl;
    repeat match goal with
           | |- context [set_column ?c ?k ?h ?s] =>
               destruct (set_column c k h s) as [[[]|?] ?]; simpl
           end; reflexivity.
Qed.

Lemma keys_of_NoDup (hm : header_method) : NoDup (keys_of hm).*1.
Proof. destruct hm; apply (bool_decide_unpack _); by vm_compute. Qed.

(** X3: a header method succeeds exactly when every column name it looks
    for occurs in the header row, and raises ValueError otherwise.  When
    it succeeds it hands on the rows after the header, and each of its
    attributes holds the position of the first header cell with its
    column name.  In both cases it changes nothing but column
    attributes. *)
Theorem header_methods_locate_columns (hm : header_method)
    (header : list string) (rows : list (list string)) (st : state) :
  let result := process_header_of hm (header :: rows) st in
  let present :=
    Forall (fun ck : column * string => ck.2 ∈ header) (keys_of hm) in
  (present -> result.1 = Ok rows /\ Forall (located header result.2) (keys_of hm))
  /\
  (~ present -> result.1 = Raise ValueError) /\
  files result.2 = files st /\
  id_kingdom_map result.2 = id_kingdom_map st /\
  taxon_id_identifier_mapping result.2 = taxon_id_identifier_mapping st /\
  accepted_name_taxon_mapping result.2 = accepted_name_taxon_mapping st /\
  out_files_tx result.2 = out_files_tx st /\
  out_files_vn result.2 = out_files_vn st.
Proof.
  intros result present. subst result.
  rewrite process_header_locate_all. simpl.
  split; [|split].
  - intros Hpresent.
    destruct (locate_all_found header (keys_of hm) st Hpresent
                (keys_of_NoDup hm)) as (Hok & Hlocated & _).
    by rewrite Hok.
  - intros Hmissing.
    by rewrite (locate_all_missing header (keys_of hm) st Hmissing).
  - repeat split;
      by apply (keeps_locate_all _ (keys_of hm) header).
Qed.

Lemma header_methods_locate_columns_witness :
  let header := ["kingdom"; "taxonID"; "canonicalName"; "taxonID"] in
  let result :=
    Backbone.process_taxon_header [header; ["Plantae"; "1"; "Rosa"; "2"]]
      blank in
  result.1 = Ok [["Plantae"; "1"; "Rosa"; "2"]] /\
  columns result.2 taxon_id = Some 1 /\
  (Backbone.process_taxon_header [["kingdom"; "taxonID"]] blank).1
  = Raise ValueError.
Proof.
  intros header result.
  assert (Hpresent :
            Forall (fun ck : column * string => ck.2 ∈ header)
                   (keys_of BackboneTaxonHeader)).
  { repeat constructor. }
  assert (Hmissing :
            ~ Forall (fun ck : column * string =>
                        ck.2 ∈ ["kingdom"; "taxonID"])
                     (keys_of BackboneTaxonHeader)).
  { intros Hall. apply Forall_cons in Hall as [_ Hall].
    apply Forall_cons in Hall as [Hin _]. simpl in Hin.
    apply elem_of_cons in Hin as [Heq|Hin]; [discriminate|].
    apply elem_of_cons in Hin as [Heq|Hin]; [discriminate|].
    by apply elem_of_nil in Hin. }
  split; [|split].
  - exact (proj1 (proj1 (header_methods_locate_columns BackboneTaxonHeader
                           header [["Plantae"; "1"; "Rosa"; "2"]] blank)
                    Hpresent)).
  - reflexivity.
  - exact (proj1 (proj2 (header_methods_locate_columns BackboneTaxonHeader
                           ["kingdom"; "taxonID"] [] blank)) Hmissing).
Defined.

(** ** A missing column aborts the run *)

Lemma key_missing_not_present (cks : list (column * string))
    (header : list string) (key : string) :
  key ∈ cks.*2 -> key ∉ header ->
  ~ Forall (fun ck : column * string => ck.2 ∈ header) cks.
Proof.
  intros Hkey Hout Hall. apply list_elem_of_fmap in Hkey as (ck & -> & Hck).
  rewrite Forall_forall in Hall. by apply Hout, Hall.
Qed.

Lemma taxon_pass_missing_column (p : processor)
    (strip_author_pattern_match : string -> option string) (cfg : config)
    (header : list string) (rows : list (list string)) (st : state) :
  ~ Forall (fun ck : column * string => ck.2 ∈ header) (taxon_keys_of p) ->
  read_taxon_tsv_of p strip_author_pattern_match cfg (header :: rows) st
  = (Raise ValueError, (locate_all (taxon_keys_of p) header st).2).
Proof.
  intros Hmissing. destruct p; simpl.
  - unfold Backbone.read_taxon_tsv, bind.
    rewrite (process_header_locate_all BackboneTaxonHeader). simpl.
    by rewrite (locate_all_missing header backbone_taxon_keys st Hmissing).
  - unfold CatalogueOfLife.read_taxon_tsv, bind.
    rewrite (process_header_locate_all CatalogueOfLifeTaxonHeader). simpl.
    by rewrite (locate_all_missing header col_taxon_keys st Hmissing).
Qed.

Lemma run_of_unfold (p : processor)
    (strip_author_pattern_match : string -> option string) (cfg : config)
    (taxon_tsv vernacular_name_tsv : list (list string)) (st : state) :
  exists st0 : state,
    (init_base cfg st0).1 = Ok tt /\
    run_of p strip_author_pattern_match cfg taxon_tsv vernacular_name_tsv st
    = process (read_taxon_tsv_of p strip_author_pattern_match cfg)
        (read_vernacular_names_tsv_of p cfg) taxon_tsv vernacular_name_tsv
        (init_base cfg st0).2 /\
    (p = BackboneProcessor -> st0 = st) /\
    (p = CatalogueOfLifeProcessor ->
     st0 = set_accepted_name_taxon_mapping (fun _ => ∅)
             (set_taxon_id_identifier_mapping (fun _ => ∅) st)).
Proof.
  destruct p; simpl.
  - exists st. pose proof (proj1 (init_base_opens cfg st)) as Hok.
    split; [exact Hok|]. split; [|done].
    unfold Backbone.run. unfold bind at 1.
    destruct (init_base cfg st) as [[[]|e] st1]; [done|discriminate].
  - eexists. pose proof (proj1 (init_base_opens cfg
        (set_accepted_name_taxon_mapping (fun _ => ∅)
           (set_taxon_id_identifier_mapping (fun _ => ∅) st)))) as Hok.
    split; [exact Hok|]. split; [|done].
    unfold CatalogueOfLife.run. unfold bind at 1. simpl.
    unfold bind at 1. simpl. unfold bind at 1.
    destruct (init_base cfg _) as [[[]|e] st1]; [done|discriminate].
Qed.

(** X4: when the header of the taxon table lacks one of the column names
    the processor looks for, the whole run raises ValueError: no row is
    read, the vernacular table is never opened, every output file the
    constructor created is still empty and KingdomMap is empty.  For the
    Catalogue of Life this holds for each of its nine column names, also
    for [genus] and for the name columns of the strategy that is not in
    use. *)
Theorem missing_taxon_column_aborts_run (p : processor)
    (strip_author_pattern_match : string -> option string) (cfg : config)
    (header : list string) (rows vernacular_name_tsv : list (list string))
    (st : state) (key : string) :
  key ∈ (taxon_keys_of p).*2 ->
  key ∉ header ->
  let result :=
    run_of p strip_author_pattern_match cfg (header :: rows)
      vernacular_name_tsv st in
  result.1 = Raise ValueError /\
  id_kingdom_map result.2 = ∅ /\
  forall clazz, clazz ∈ classes ->
    files result.2 !! (clazz, tx_identifier cfg) = Some [] /\
    files result.2 !! (clazz, vn_identifier cfg) = Some [].
Proof.
  intros Hkey Hout result.
  pose proof (key_missing_not_present _ _ _ Hkey Hout) as Hmissing.
  destruct (run_of_unfold p strip_author_pattern_match cfg (header :: rows)
              vernacular_name_tsv st) as (st0 & _ & Hrun & _).
  subst result. rewrite Hrun. unfold process, bind.
  rewrite (taxon_pass_missing_column p _ cfg header rows _ Hmissing). simpl.
  destruct (init_base_opens cfg st0) as (_ & Hkingdom & Hopen & _).
  split; [done|]. split.
  - rewrite <- Hkingdom.
    by apply (keeps_locate_all id_kingdom_map (taxon_keys_of p) header).
  - intros clazz Hclazz.
    rewrite (keeps_locate_all files (taxon_keys_of p) header) by done.
    destruct (Hopen clazz Hclazz) as (_ & _ & Htx & Hvn). done.
Qed.

Lemma missing_taxon_column_aborts_run_witness :
  let cfg := Config true None true false in
  let header :=
    [ "taxonID"; "identifier"; "acceptedNameUsageID"; "scientificName";
      "kingdom"; "genericName"; "specificEpithet"; "infraspecificEpithet" ] in
  (CatalogueOfLife.run (fun _ => None) cfg
     [header; ["T2"; "X1"; ""; "Canis lupus L."; "Animalia"; "Canis";
               "lupus"; ""]]
     [vernacular_header; ["T2"; "German"; "Wolf"]] blank).1
  = Raise ValueError.
Proof.
  intros cfg header.
  assert (Hkey : "genus" ∈ (taxon_keys_of CatalogueOfLifeProcessor).*2).
  { simpl. do 6 apply list_elem_of_further. apply list_elem_of_here. }
  assert (Hout : "genus" ∉ header).
  { unfold header. rewrite !not_elem_of_cons.
    repeat (split; [discriminate|]). apply not_elem_of_nil. }
  exact (proj1 (missing_taxon_column_aborts_run CatalogueOfLifeProcessor
                  (fun _ => None) cfg header
                  [["T2"; "X1"; ""; "Canis lupus L."; "Animalia"; "Canis";
                    "lupus"; ""]]
                  [vernacular_header; ["T2"; "German"; "Wolf"]] blank "genus"
                  Hkey Hout)).
Defined.

(** X5: [process] reads the vernacular table only after the taxon pass
    has completed.  If the taxon pass raises, the run ends with that
    exception in the state the taxon pass left.  If it completes and the
    header of the vernacular table lacks one of its three column names,
    the run raises ValueError and the files and the three maps are
    exactly what the taxon pass left: the taxon output stays. *)
Theorem missing_vernacular_column_keeps_taxon_output (p : processor)
    (strip_author_pattern_match : string -> option string) (cfg : config)
    (taxon_tsv : list (list string)) (header : list string)
    (rows : list (list string)) (st : state) (key : string) :
  let after_taxon :=
    read_taxon_tsv_of p strip_author_pattern_match cfg taxon_tsv st in
  let result :=
    process (read_taxon_tsv_of p strip_author_pattern_match cfg)
      (read_vernacular_names_tsv_of p cfg) taxon_tsv (header :: rows) st in
  (forall e, after_taxon.1 = Raise e ->
             result = (Raise e, after_taxon.2)) /\
  (after_taxon.1 = Ok tt ->
   key ∈ vernacular_keys.*2 -> key ∉ header ->
   result.1 = Raise ValueError /\
   files result.2 = files after_taxon.2 /\
   id_kingdom_map result.2 = id_kingdom_map after_taxon.2 /\
   taxon_id_identifier_mapping result.2
   = taxon_id_identifier_mapping after_taxon.2 /\
   accepted_name_taxon_mapping result.2
   = accepted_name_taxon_mapping after_taxon.2).
Proof.
  intros after_taxon result. subst result. unfold process, bind.
  fold after_taxon. destruct after_taxon as [[[]|e] st1]; simpl.
  - split; [discriminate|]. intros _ Hkey Hout.
    pose proof (key_missing_not_present vernacular_keys _ _ Hkey Hout)
      as Hmissing.
    assert (Hrun : read_vernacular_names_tsv_of p cfg (header :: rows) st1
                   = (Raise ValueError,
                      (locate_all vernacular_keys header st1).2)).
    { destruct p; simpl.
      - unfold Backbone.read_vernacular_names_tsv, bind.
        rewrite (process_header_locate_all BackboneVernacularHeader). simpl.
        by rewrite (locate_all_missing header vernacular_keys st1 Hmissing).
      - unfold CatalogueOfLife.read_vernacular_names_tsv, bind.
        rewrite (process_header_locate_all BaseVernacularHeader). simpl.
        by rewrite (locate_all_missing header vernacular_keys st1 Hmissing). }
    rewrite Hrun. simpl.
    repeat split; by apply (keeps_locate_all _ vernacular_keys header).
  - split; [|discriminate]. by intros e' [= ->].
Qed.

Lemma missing_vernacular_column_keeps_taxon_output_witness :
  let cfg := Config true None true false in
  let st := (init_base cfg blank).2 in
  let taxon_tsv := [backbone_header; ["1"; "Plantae"; "Rosa canina"]] in
  let result :=
    process Backbone.read_taxon_tsv (Backbone.read_vernacular_names_tsv cfg)
      taxon_tsv [["taxonID"; "vernacularName"]; ["1"; "Hundsrose"]] st in
  result.1 = Raise ValueError /\
  files result.2 = files (Backbone.read_taxon_tsv taxon_tsv st).2.
Proof.
  intros cfg st taxon_tsv result.
  assert (Hkey : "language" ∈ vernacular_keys.*2).
  { simpl. apply list_elem_of_further, list_elem_of_here. }
  assert (Hout : "language" ∉ ["taxonID"; "vernacularName"]).
  { rewrite !not_elem_of_cons. repeat (split; [discriminate|]).
    apply not_elem_of_nil. }
  destruct (proj2 (missing_vernacular_column_keeps_taxon_output
                     BackboneProcessor (fun _ => None) cfg taxon_tsv
                     ["taxonID"; "vernacularName"] [["1"; "Hundsrose"]] st
                     "language") eq_refl Hkey Hout) as (Hraise & Hfiles & _).
  split; [exact Hraise | exact Hfiles].
Defined.

(** ** More on the separator pattern *)

(** Induction that reaches the tail and the tail of the tail, as the
    split does. *)
Lemma string_ind2 (P : string -> Prop) :
  P "" ->
  (forall c, P (String c "")) ->
  (forall c c' s, P s -> P (String c' s) -> P (String c (String c' s))) ->
  forall s, P s.
Proof.
  intros Hnil Hone Htwo s.
  assert (H : P s /\ forall c, P (String c s)).
  { induction s as [|a s [IHs IHcs]]; [by split|].
    split; [apply IHcs|]. intros c. by apply Htwo. }
  apply H.
Qed.

Lemma count_char_app (a : ascii) (s t : string) :
  count_char a (s +:+ t) = count_char a s + count_char a t.
Proof. induction s as [|c s IH]; simpl; [done|]. rewrite IH. lia. Qed.

Lemma split_cons_other (c : ascii) (s : string) :
  Ascii.eqb c ","%char = false ->
  exists part parts,
    vernacular_name_split s = part :: parts /\
    vernacular_name_split (String c s) = String c part :: parts.
Proof.
  intros Hc. pose proof (vernacular_name_split_nonempty s) as Hne.
  simpl. rewrite Hc.
  destruct (vernacular_name_split s) as [|part parts]; [done|].
  by exists part, parts.
Qed.

(** X6: the split of a vernacular-name field has one part more than the
    field has commas, no part contains a comma, and a field without comma
    is its own single part. *)
Theorem split_parts_and_commas (s : string) :
  List.length (vernacular_name_split s) = S (count_char ","%char s) /\
  Forall (fun part => count_char ","%char part = 0) (vernacular_name_split s)
  /\
  (count_char ","%char s = 0 -> vernacular_name_split s = [s]).
Proof.
  split; [|split].
  - induction s as [| c | c c' s IHs IHcs] using string_ind2; [done| |].
    + simpl. by destruct (Ascii.eqb c ","%char).
    + destruct (Ascii.eqb c ","%char) eqn:Hc.
      * change (vernacular_name_split (String c (String c' s)))
          with (if Ascii.eqb c ","%char
                then if Ascii.eqb c' " "%char
                     then "" :: vernacular_name_split s
                     else "" :: vernacular_name_split (String c' s)
                else match vernacular_name_split (String c' s) with
                     | part :: parts => String c part :: parts
                     | [] => [String c ""]
                     end).
        rewrite Hc. cbn [count_char]. rewrite Hc.
        destruct (Ascii.eqb c' " "%char) eqn:Hc'.
        -- cbn [List.length]. rewrite IHs.
           apply Ascii.eqb_eq in Hc'. subst c'. simpl. lia.
        -- cbn [List.length]. rewrite IHcs. cbn [count_char]. lia.
      * destruct (split_cons_other c (String c' s) Hc)
          as (part & parts & Hsplit & ->).
        rewrite Hsplit in IHcs. cbn [count_char]. rewrite Hc.
        simpl in *. lia.
  - induction s as [| c | c c' s IHs IHcs] using string_ind2.
    + by repeat constructor.
    + simpl. destruct (Ascii.eqb c ","%char) eqn:Hc; repeat constructor.
      simpl. by rewrite Hc.
    + destruct (Ascii.eqb c ","%char) eqn:Hc.
      * change (vernacular_name_split (String c (String c' s)))
          with (if Ascii.eqb c ","%char
                then if Ascii.eqb c' " "%char
                     then "" :: vernacular_name_split s
                     else "" :: vernacular_name_split (String c' s)
                else match vernacular_name_split (String c' s) with
                     | part :: parts => String c part :: parts
                     | [] => [String c ""]
                     end).
        rewrite Hc. destruct (Ascii.eqb c' " "%char); by constructor.
      * destruct (split_cons_other c (String c' s) Hc)
          as (part & parts & Hsplit & ->).
        rewrite Hsplit in IHcs. apply Forall_cons in IHcs as [Hpart Hparts].
        constructor; [|done]. simpl. by rewrite Hc.
  - induction s as [|c s IH]; [done|]. cbn [count_char].
    destruct (Ascii.eqb c ","%char) eqn:Hc; [discriminate|].
    intros Hcount. destruct (split_cons_other c s Hc)
      as (part & parts & Hsplit & ->).
    rewrite IH in Hsplit by done. by injection Hsplit as <- <-.
Qed.

Lemma split_parts_and_commas_witness :
  vernacular_name_split "Hundsrose" = ["Hundsrose"].
Proof.
  exact (proj2 (proj2 (split_parts_and_commas "Hundsrose")) eq_refl).
Defined.

(** ** The name filter on composed names *)

Lemma all_space_app (s t : string) :
  all_space (s +:+ t) = all_space s && all_space t.
Proof.
  induction s as [|c s IH]; simpl; [done|]. rewrite IH.
  by rewrite andb_assoc.
Qed.

Lemma isspace_all_space (s : string) :
  s <> "" -> isspace s = all_space s.
Proof. by destruct s. Qed.

(** X7: with the composed name strategy the name of a row is never empty
    and never the sentinel "incertae sedis" (it always has two joining
    spaces), so the row is skipped exactly when its genericName,
    specificEpithet and infraspecificEpithet fields hold nothing but
    white space. *)
Theorem composed_name_skipped_iff_blank
    (strip_author_pattern_match : string -> option string) (cfg : config)
    (row : list string) (st : state)
    (generic_name specific_epithet infraspecific_epithet name : string) :
  build_from_generic_name cfg = true ->
  (row_get generic_name_id row st).1 = Ok generic_name ->
  (row_get specific_epithet_id row st).1 = Ok specific_epithet ->
  (row_get infraspecific_epithet_id row st).1 = Ok infraspecific_epithet ->
  (CatalogueOfLife.get_name strip_author_pattern_match cfg row st).1
  = Ok name ->
  name <> "" /\
  name <> "incertae sedis" /\
  col_skips name
  = all_space generic_name && all_space specific_epithet
    && all_space infraspecific_epithet.
Proof.
  intros Hcfg Hg Hs Hi Hname.
  unfold CatalogueOfLife.get_name in Hname. rewrite Hcfg in Hname.
  rewrite (bind_Ok _ _ st st generic_name) in Hname
    by by apply (row_get_eq _ _ st).
  rewrite (bind_Ok _ _ st st specific_epithet) in Hname
    by by apply (row_get_eq _ _ st).
  rewrite (bind_Ok _ _ st st infraspecific_epithet) in Hname
    by by apply (row_get_eq _ _ st).
  simpl in Hname. injection Hname as <-.
  change (join " " [generic_name; specific_epithet; infraspecific_epithet])
    with (generic_name +:+ " " +:+ specific_epithet +:+ " "
          +:+ infraspecific_epithet).
  set (name := generic_name +:+ " " +:+ specific_epithet +:+ " "
               +:+ infraspecific_epithet).
  assert (Hspaces : 2 <= count_char " "%char name).
  { unfold name. rewrite !count_char_app. simpl. lia. }
  assert (Hnonempty : name <> "").
  { intros Heq. rewrite Heq in Hspaces. simpl in Hspaces. lia. }
  assert (Hsentinel : name <> "incertae sedis").
  { intros Heq. rewrite Heq in Hspaces. vm_compute in Hspaces. lia. }
  split; [exact Hnonempty|]. split; [exact Hsentinel|].
  unfold col_skips.
  apply String.eqb_neq in Hnonempty, Hsentinel.
  rewrite Hnonempty, Hsentinel, orb_false_r. simpl.
  rewrite isspace_all_space by by apply String.eqb_neq.
  unfold name. rewrite !all_space_app. simpl.
  by rewrite !andb_assoc.
Qed.

Lemma composed_name_skipped_iff_blank_witness :
  let cfg := Config true None true false in
  let st := (CatalogueOfLife.process_taxon_header [col_header] blank).2 in
  col_skips "incertae sedis " = false.
Proof.
  intros cfg st.
  exact (proj2 (proj2
           (composed_name_skipped_iff_blank (fun _ => None) cfg
              ["T5"; "X5"; ""; "incertae sedis"; "Animalia"; "incertae";
               "incertae"; "sedis"; ""] st "incertae" "sedis" ""
              "incertae sedis " eq_refl eq_refl eq_refl eq_refl eq_refl))).
Defined.

(** ** Rows that are too short *)

Lemma row_get_short (c : column) (row : list string) (st : state) (i : nat) :
  columns st c = Some i -> List.length row <= i ->
  row_get c row st = (Raise IndexError, st).
Proof.
  intros Hc Hlen. unfold row_get, bind, get. simpl. rewrite Hc.
  by rewrite (lookup_ge_None_2 row i Hlen).
Qed.

Lemma row_get_raises (c : column) (row : list string) (st : state) (e : exn) :
  (row_get c row st).1 = Raise e ->
  (exists i, columns st c = Some i /\ List.length row <= i /\ e = IndexError)
  \/ (columns st c = None /\ (e = TypeError \/ e = AttributeError)).
Proof.
  unfold row_get, bind, get. simpl.
  destruct (columns st c) as [i|] eqn:Hc.
  - destruct (row !! i) as [v|] eqn:Hv; simpl; [done|].
    intros [= <-]. left. exists i. split; [done|]. split; [|done].
    by apply lookup_ge_None_1.
  - intros He. right. split; [done|].
    destruct c; simpl in He; injection He as <-; by (left + right).
Qed.

Lemma for_each_stops {A} (body : A -> M unit) (xs ys : list A) (x : A)
    (st st1 st2 : state) (e : exn) :
  for_each body xs st = (Ok tt, st1) ->
  body x st1 = (Raise e, st2) ->
  for_each body (xs ++ x :: ys) st = (Raise e, st2).
Proof.
  intros Hxs Hx. rewrite (for_each_app_Ok body xs _ st st1 Hxs). simpl.
  unfold bind. by rewrite Hx.
Qed.

(** A backbone taxon row that raises has changed nothing. *)
Lemma backbone_taxon_row_raises (line : list string) (st : state) (e : exn) :
  tx_open st ->
  (Backbone.read_taxon_row line st).1 = Raise e ->
  Backbone.read_taxon_row line st = (Raise e, st).
Proof.
  intros Hopen. unfold Backbone.read_taxon_row, get_taxon_id,
    Backbone.get_name, get_kingdom, bind.
  pose proof (row_get_state taxon_id line st) as H1.
  destruct (row_get taxon_id line st) as [[tid|e1] s1]; simpl in H1; subst s1;
    [|by intros [= ->]].
  pose proof (row_get_state canonical_name_id line st) as H2.
  destruct (row_get canonical_name_id line st) as [[name|e2] s2];
    simpl in H2; subst s2; [|by intros [= ->]].
  destruct (_ || _); [done|].
  pose proof (row_get_state kingdom_id line st) as H3.
  destruct (row_get kingdom_id line st) as [[kingdom|e3] s3];
    simpl in H3; subst s3; [|by intros [= ->]].
  simpl. destruct (Hopen (classify kingdom)) as [h Hh];
    [apply classify_in_classes|].
  by rewrite (write_eq out_files_tx _ _ _ h).
Qed.

Lemma keeps_backbone_taxon_header {X} (f : state -> X)
    (reader : list (list string)) :
  (forall g st, f (set_columns g st) = f st) ->
  keeps f (Backbone.process_taxon_header reader).
Proof.
  intros Hf. destruct reader as [|header rows]; simpl; [apply keeps_ret|].
  repeat (apply keeps_bind; [by apply keeps_set_column | intros _]).
  apply keeps_ret.
Qed.

Lemma keeps_backbone_taxon_tsv {X} (f : state -> X)
    (reader : list (list string)) :
  (forall g st, f (set_columns g st) = f st) ->
  (forall g st, f (set_files g st) = f st) ->
  (forall g st, f (set_id_kingdom_map g st) = f st) ->
  keeps f (Backbone.read_taxon_tsv reader).
Proof.
  intros Hcols Hfiles Hkingdom. unfold Backbone.read_taxon_tsv.
  apply keeps_bind; [by apply keeps_backbone_taxon_header|].
  intros rows. apply keeps_for_each. intros line.
  unfold Backbone.read_taxon_row, get_taxon_id, Backbone.get_name,
    get_kingdom.
  apply keeps_bind; [apply keeps_row_get | intros tid].
  apply keeps_bind; [apply keeps_row_get | intros name].
  destruct (_ || _); [apply keeps_ret|].
  apply keeps_bind; [apply keeps_row_get | intros kingdom].
  apply keeps_bind; [by apply keeps_modify | intros _].
  by apply keeps_write.
Qed.

(** X8: a backbone taxon row that raises leaves the processor exactly as
    it was, and it stops the pass: on a table whose rows before the
    failing row are read without error, the pass ends with the exception
    of that row in the state after the rows before it, and no later row
    is read.  A row too short for the taxonID column is such a row, with
    IndexError. *)
Theorem backbone_failing_row_stops_pass (header : list string)
    (good rest : list (list string)) (bad : list string) (st : state)
    (e : exn) :
  let before := Backbone.read_taxon_tsv (header :: good) st in
  tx_open st ->
  before.1 = Ok tt ->
  (Backbone.read_taxon_row bad before.2).1 = Raise e ->
  Backbone.read_taxon_tsv (header :: good ++ bad :: rest) st
  = (Raise e, before.2) /\
  (forall i, columns before.2 taxon_id = Some i -> List.length bad <= i ->
             e = IndexError).
Proof.
  intros before Hopen Hbefore Hbad.
  assert (Hopen' : tx_open before.2).
  { unfold tx_open, before.
    by rewrite (keeps_backbone_taxon_tsv out_files_tx (header :: good)). }
  pose proof (backbone_taxon_row_raises bad before.2 e Hopen' Hbad) as Hrow.
  split.
  - subst before. unfold Backbone.read_taxon_tsv, bind in *.
    destruct (Backbone.process_taxon_header (header :: good) st)
      as [[rows|e0] sth] eqn:Hheader; [|done].
    assert (Hrows : rows = good /\
              Backbone.process_taxon_header
                (header :: good ++ bad :: rest) st
              = (Ok (good ++ bad :: rest)%list, sth)).
    { rewrite (process_header_locate_all BackboneTaxonHeader) in Hheader.
      rewrite (process_header_locate_all BackboneTaxonHeader).
      destruct (locate_all _ header st) as [[[]|e0] s0]; simpl in *;
        [|done].
      by injection Hheader as <- <-. }
    destruct Hrows as [-> ->].
    destruct (for_each Backbone.read_taxon_row good sth) as [[[]|e0] s1]
      eqn:Hgood; [|done].
    simpl in *. by apply (for_each_stops _ good rest bad sth s1 s1 e).
  - intros i Hi Hlen. unfold Backbone.read_taxon_row, get_taxon_id in Hbad.
    unfold bind in Hbad.
    by rewrite (row_get_short taxon_id bad before.2 i Hi Hlen) in Hbad;
      injection Hbad as <-.
Qed.

Lemma backbone_failing_row_stops_pass_witness :
  let cfg := Config true None true false in
  let st := (init_base cfg blank).2 in
  Backbone.read_taxon_tsv
    [ ["kingdom"; "canonicalName"; "taxonID"];
      ["Plantae"; "Rosa canina"; "1"];
      ["Plantae"; "Rosa alba"];
      ["Plantae"; "Rosa gallica"; "3"] ] st
  = (Raise IndexError,
     (Backbone.read_taxon_tsv
        [ ["kingdom"; "canonicalName"; "taxonID"];
          ["Plantae"; "Rosa canina"; "1"] ] st).2).
Proof.
  intros cfg st.
  assert (Hopen : tx_open st).
  { intros clazz Hin. unfold classes in Hin. simpl in Hin.
    repeat (apply elem_of_cons in Hin as [-> | Hin];
            [vm_compute; eexists; reflexivity|]).
    by apply elem_of_nil in Hin. }
  exact (proj1 (backbone_failing_row_stops_pass
                  ["kingdom"; "canonicalName"; "taxonID"]
                  [["Plantae"; "Rosa canina"; "1"]]
                  [["Plantae"; "Rosa gallica"; "3"]]
                  ["Plantae"; "Rosa alba"] st IndexError Hopen
                  eq_refl eq_refl)).
Defined.

Lemma row_get_outcome (c : column) (row : list string) (st st' : state) :
  columns st' = columns st ->
  row_get c row st' = ((row_get c row st).1, st').
Proof.
  intros Hcols. rewrite <- (row_get_columns c row st st' Hcols).
  pose proof (row_get_state c row st') as Hst.
  destruct (row_get c row st') as [o s]. simpl in *. by subst s.
Qed.

Lemma col_get_name_outcome
    (strip_author_pattern_match : string -> option string) (cfg : config)
    (row : list string) (st st' : state) :
  columns st' = columns st ->
  CatalogueOfLife.get_name strip_author_pattern_match cfg row st'
  = ((CatalogueOfLife.get_name strip_author_pattern_match cfg row st).1, st').
Proof.
  intros Hcols.
  rewrite <- (col_get_name_columns _ cfg row st st' Hcols).
  pose proof (col_get_name_state strip_author_pattern_match cfg row st')
    as Hst.
  destruct (CatalogueOfLife.get_name _ cfg row st') as [o s].
  simpl in *. by subst s.
Qed.

Lemma row_get_Raise_eq (c : column) (row : list string) (st st' : state)
    (e : exn) :
  (row_get c row st).1 = Raise e -> columns st' = columns st ->
  row_get c row st' = (Raise e, st').
Proof. intros He Hcols. by rewrite (row_get_outcome c row st st' Hcols), He. Qed.

(** How a Catalogue-of-Life taxon row can end, with taxon files open. *)
Lemma col_taxon_row_outcomes
    (strip_author_pattern_match : string -> option string) (cfg : config)
    (row : list string) (st : state) :
  tx_open st ->
  let result :=
    CatalogueOfLife.read_taxon_row strip_author_pattern_match cfg row st in
  result.1 = Ok tt \/
  (exists e, result = (Raise e, st) /\
             ((get_taxon_id row st).1 = Raise e \/
              (CatalogueOfLife.get_identifier row st).1 = Raise e \/
              (row_get accepted_name_usage_id row st).1 = Raise e)) \/
  (exists e tid identifier accepted_name_usage,
      (get_taxon_id row st).1 = Ok tid /\
      (CatalogueOfLife.get_identifier row st).1 = Ok identifier /\
      (row_get accepted_name_usage_id row st).1 = Ok accepted_name_usage /\
      result
      = (Raise e, set_taxon_id_identifier_mapping <[tid := identifier]> st)).
Proof.
  intros Hopen result. subst result.
  destruct (get_taxon_id row st).1 as [tid|e1] eqn:Htid.
  2: { right. left. exists e1. split; [|by left].
       unfold CatalogueOfLife.read_taxon_row.
       apply bind_Raise. by apply (row_get_Raise_eq _ _ st). }
  destruct (CatalogueOfLife.get_identifier row st).1 as [identifier|e2]
    eqn:Hidentifier.
  2: { right. left. exists e2. split; [|by right; left].
       unfold CatalogueOfLife.read_taxon_row.
       rewrite (bind_Ok _ _ st st tid); [|by apply (row_get_eq _ _ st)].
       apply bind_Raise. by apply (row_get_Raise_eq _ _ st). }
  destruct (row_get accepted_name_usage_id row st).1 as [accepted|e3]
    eqn:Haccepted.
  2: { right. left. exists e3. split; [|by right; right].
       unfold CatalogueOfLife.read_taxon_row.
       rewrite (bind_Ok _ _ st st tid); [|by apply (row_get_eq _ _ st)].
       rewrite (bind_Ok _ _ st st identifier);
         [|by apply (row_get_eq _ _ st)].
       apply bind_Raise. by apply (row_get_Raise_eq _ _ st). }
  destruct (CatalogueOfLife.get_name strip_author_pattern_match cfg row st).1
    as [name|e4] eqn:Hname.
  2: { right. right. exists e4, tid, identifier, accepted.
       repeat (split; [done|]).
       unfold CatalogueOfLife.read_taxon_row.
       rewrite (bind_Ok _ _ st st tid); [|by apply (row_get_eq _ _ st)].
       rewrite (bind_Ok _ _ st st identifier);
         [|by apply (row_get_eq _ _ st)].
       rewrite (bind_Ok _ _ st st accepted);
         [|by apply (row_get_eq _ _ st)].
       unfold bind at 1. simpl. apply bind_Raise.
       by rewrite (col_get_name_outcome _ cfg row st), Hname. }
  destruct (col_skips name) eqn:Hskip.
  { left. by rewrite (col_taxon_row_skipped _ cfg row st tid identifier
                        accepted name). }
  destruct (get_kingdom row name st).1 as [kingdom|e5] eqn:Hkingdom.
  2: { right. right. exists e5, tid, identifier, accepted.
       repeat (split; [done|]).
       unfold CatalogueOfLife.read_taxon_row.
       rewrite (bind_Ok _ _ st st tid); [|by apply (row_get_eq _ _ st)].
       rewrite (bind_Ok _ _ st st identifier);
         [|by apply (row_get_eq _ _ st)].
       rewrite (bind_Ok _ _ st st accepted);
         [|by apply (row_get_eq _ _ st)].
       unfold bind at 1. simpl.
       erewrite bind_Ok; [|by apply (col_get_name_eq _ _ _ st)].
       fold (col_skips name). rewrite Hskip.
       apply bind_Raise. by apply (row_get_Raise_eq _ _ st). }
  left. destruct (blank_identifier identifier) eqn:Hblank.
  - by rewrite (col_taxon_row_deferred _ cfg row st tid identifier accepted
                  name Htid Hidentifier Haccepted Hname kingdom).
  - destruct (Hopen (classify kingdom)) as [h Hh];
      [apply classify_in_classes|].
    destruct (col_taxon_row_resolving _ cfg row st tid identifier accepted
                name Htid Hidentifier Haccepted Hname kingdom h Hskip
                Hkingdom Hblank Hh) as (st' & -> & _).
    done.
Qed.

(** X9: a Catalogue-of-Life taxon row that raises has written no line
    and has changed neither KingdomMap nor PendingRedirectMap, but it is
    not without effect: when its taxon identifier, identifier and
    accepted-name reference could be read, its identifier is already
    recorded in IdentifierMap when the name or the kingdom fails to be
    read; otherwise IdentifierMap is unchanged as well. *)
Theorem col_failing_row_records_identifier
    (strip_author_pattern_match : string -> option string) (cfg : config)
    (row : list string) (st : state) (e : exn) :
  let result :=
    CatalogueOfLife.read_taxon_row strip_author_pattern_match cfg row st in
  tx_open st ->
  result.1 = Raise e ->
  files result.2 = files st /\
  id_kingdom_map result.2 = id_kingdom_map st /\
  accepted_name_taxon_mapping result.2 = accepted_name_taxon_mapping st /\
  (forall tid identifier accepted_name_usage,
      (get_taxon_id row st).1 = Ok tid ->
      (CatalogueOfLife.get_identifier row st).1 = Ok identifier ->
      (row_get accepted_name_usage_id row st).1 = Ok accepted_name_usage ->
      taxon_id_identifier_mapping result.2
      = <[tid := identifier]> (taxon_id_identifier_mapping st)) /\
  ((forall tid, (get_taxon_id row st).1 <> Ok tid) \/
   (forall identifier,
       (CatalogueOfLife.get_identifier row st).1 <> Ok identifier) \/
   (forall accepted_name_usage,
       (row_get accepted_name_usage_id row st).1 <> Ok accepted_name_usage) ->
   taxon_id_identifier_mapping result.2 = taxon_id_identifier_mapping st).
Proof.
  intros result Hopen Hraise.
  destruct (col_taxon_row_outcomes strip_author_pattern_match cfg row st
              Hopen) as [Hok|[(e' & Hrun & Hread)|
                              (e' & tid & identifier & accepted & Htid
                               & Hidentifier & Haccepted & Hrun)]];
    fold result in Hok || fold result in Hrun.
  - congruence.
  - rewrite Hrun. simpl. repeat (split; [done|]). split; [|done].
    intros tid identifier accepted Htid Hidentifier Haccepted.
    destruct Hread as [H|[H|H]]; congruence.
  - rewrite Hrun. simpl. repeat (split; [done|]). split.
    + intros tid' identifier' accepted' Htid' Hidentifier' _. congruence.
    + intros [H|[H|H]]; exfalso; by eapply H.
Qed.

Lemma col_failing_row_records_identifier_witness :
  let cfg := Config true None true false in
  let st := (CatalogueOfLife.process_taxon_header [col_header]
               (init_base cfg blank).2).2 in
  let row := ["T7"; "X7"; ""; "Rosa alba L."; "Plantae"] in
  let result :=
    CatalogueOfLife.read_taxon_row (fun _ => None) cfg row st in
  result.1 = Raise IndexError /\
  files result.2 = files st /\
  taxon_id_identifier_mapping result.2
  = <[ "T7" := "X7" ]> (taxon_id_identifier_mapping st).
Proof.
  intros cfg st row result.
  assert (Hopen : tx_open st).
  { intros clazz Hin. unfold classes in Hin. simpl in Hin.
    repeat (apply elem_of_cons in Hin as [-> | Hin];
            [vm_compute; eexists; reflexivity|]).
    by apply elem_of_nil in Hin. }
  assert (Hraise : result.1 = Raise IndexError) by reflexivity.
  destruct (col_failing_row_records_identifier (fun _ => None) cfg row st
              IndexError Hopen Hraise) as (Hfiles & _ & _ & Hmap & _).
  split; [exact Hraise|]. split; [exact Hfiles|].
  exact (Hmap "T7" "X7" "" eq_refl eq_refl eq_refl).
Defined.

(** ** The taxon pass of the backbone processor as a whole *)

Lemma backbone_taxon_row_run (i n k : nat) (line : list string) (st : state) :
  columns st taxon_id = Some i ->
  columns st canonical_name_id = Some n ->
  columns st kingdom_id = Some k ->
  i < List.length line /\ n < List.length line /\ k < List.length line ->
  tx_open st ->
  exists st' : state,
    Backbone.read_taxon_row line st = (Ok tt, st') /\
    columns st' = columns st /\
    out_files_tx st' = out_files_tx st /\
    id_kingdom_map st'
    = (if backbone_skips (field line n) then id_kingdom_map st
       else <[field line i := field line k]> (id_kingdom_map st)) /\
    (forall clazz h,
        out_files_tx st !! clazz = Some h ->
        (forall clazz', out_files_tx st !! clazz' = Some h -> clazz' = clazz) ->
        default [] (files st' !! h)
        = (default [] (files st !! h)
           ++ backbone_taxon_lines i n k clazz line)%list) /\
    (forall h, (forall clazz, out_files_tx st !! clazz <> Some h) ->
               files st' !! h = files st !! h).
Proof.
  intros Hi Hn Hk (Hli & Hln & Hlk) Hopen.
  assert (Htid : (get_taxon_id line st).1 = Ok (field line i)).
  { unfold get_taxon_id.
    by rewrite (row_get_lookup _ _ _ i (field line i) Hi (field_lookup _ _ Hli)). }
  assert (Hname : (Backbone.get_name line st).1 = Ok (field line n)).
  { unfold Backbone.get_name.
    by rewrite (row_get_lookup _ _ _ n (field line n) Hn (field_lookup _ _ Hln)). }
  assert (Hkingdom :
            (get_kingdom line (field line n) st).1 = Ok (field line k)).
  { unfold get_kingdom.
    by rewrite (row_get_lookup _ _ _ k (field line k) Hk (field_lookup _ _ Hlk)). }
  unfold backbone_taxon_lines.
  destruct (backbone_skips (field line n)) eqn:Hskip; simpl.
  - exists st. split.
    { unfold Backbone.read_taxon_row.
      rewrite (bind_Ok _ _ st st (field line i));
        [|by apply (row_get_eq _ _ st)].
      rewrite (bind_Ok _ _ st st (field line n));
        [|by apply (row_get_eq _ _ st)].
      fold (backbone_skips (field line n)). by rewrite Hskip. }
    repeat (split; [done|]). split; [|done].
    intros clazz h _ _. by rewrite app_nil_r.
  - destruct (Hopen (classify (field line k))) as [hrow Hhrow];
      [apply classify_in_classes|].
    eexists. split.
    { by apply (backbone_taxon_row_written line st (field line i)
                  (field line n) (field line k) hrow). }
    simpl. repeat (split; [done|]). split.
    + intros clazz h Hh Hinj.
      destruct (String.eqb_spec (classify (field line k)) clazz) as [Heq|Hne].
      * rewrite Heq in Hhrow. rewrite Hh in Hhrow. injection Hhrow as <-.
        by rewrite lookup_insert_eq.
      * rewrite app_nil_r. rewrite lookup_insert_ne; [done|].
        intros ->. apply Hne. by apply Hinj.
    + intros h Hnone. rewrite lookup_insert_ne; [done|].
      intros ->. by apply (Hnone _ Hhrow).
Qed.

Lemma backbone_taxon_rows_run (i n k : nat) (rows : list (list string)) :
  forall st : state,
    columns st taxon_id = Some i ->
    columns st canonical_name_id = Some n ->
    columns st kingdom_id = Some k ->
    Forall (fun row => i < List.length row /\ n < List.length row
                       /\ k < List.length row) rows ->
    tx_open st ->
    exists st' : state,
      for_each Backbone.read_taxon_row rows st = (Ok tt, st') /\
      (forall clazz h,
          out_files_tx st !! clazz = Some h ->
          (forall clazz', out_files_tx st !! clazz' = Some h ->
                          clazz' = clazz) ->
          default [] (files st' !! h)
          = (default [] (files st !! h)
             ++ List.concat (backbone_taxon_lines i n k clazz <$> rows))%list)
      /\
      (forall h, (forall clazz, out_files_tx st !! clazz <> Some h) ->
                 files st' !! h = files st !! h) /\
      (forall tid,
          id_kingdom_map st' !! tid
          = match last (List.filter (backbone_row_of i n tid) rows) with
            | Some row => Some (field row k)
            | None => id_kingdom_map st !! tid
            end).
Proof.
  induction rows as [|row rows IH]; intros st Hi Hn Hk Hrows Hopen.
  - exists st. simpl. split; [done|]. split; [|done].
    intros clazz h _ _. by rewrite app_nil_r.
  - apply Forall_cons in Hrows as [Hrow Hrows].
    destruct (backbone_taxon_row_run i n k row st Hi Hn Hk Hrow Hopen)
      as (st1 & Hrun1 & Hcols & Htx & Hkingdom1 & Hfile1 & Hother1).
    destruct (IH st1) as (st' & Hrun & Hfile & Hother & Hkingdom).
    { by rewrite Hcols. }
    { by rewrite Hcols. }
    { by rewrite Hcols. }
    { exact Hrows. }
    { unfold tx_open. by rewrite Htx. }
    exists st'. split; [|split; [|split]].
    + simpl. by rewrite (bind_Ok _ _ st st1 tt Hrun1).
    + intros clazz h Hh Hinj. rewrite Htx in Hfile.
      rewrite (Hfile clazz h Hh Hinj), (Hfile1 clazz h Hh Hinj).
      simpl. by rewrite <- app_assoc.
    + intros h Hnone. rewrite Htx in Hother.
      by rewrite (Hother h Hnone), (Hother1 h Hnone).
    + intros tid. rewrite Hkingdom, Hkingdom1. simpl.
      unfold backbone_row_of at 2.
      destruct (backbone_skips (field row n)); simpl; [done|].
      destruct (String.eqb_spec (field row i) tid) as [->|Hne].
      * rewrite last_cons.
        destruct (last (List.filter _ rows)); [done|].
        by rewrite lookup_insert_eq.
      * destruct (last (List.filter _ rows)); [done|].
        by rewrite lookup_insert_ne.
Qed.

(** X10: on a taxon table whose header has the three columns and whose
    rows are long enough, and with a taxon file open for every class, the
    taxon pass of the backbone processor completes.  To the taxon file of
    a class it appends, in table order, exactly one line (name, base URI
    and taxon identifier) for every row whose name is not skipped and
    whose kingdom maps to that class, and nothing else; other files are
    untouched.  Afterwards KingdomMap gives, for a taxon identifier, the
    kingdom of the last row with that identifier that was not skipped,
    and its earlier entry when there is no such row. *)
Theorem backbone_taxon_pass_lines_and_kingdoms (header : list string)
    (rows : list (list string)) (st : state) (i n k : nat) :
  index Backbone.taxon_id_key header = Some i ->
  index Backbone.canonical_name_key header = Some n ->
  index Backbone.kingdom_key header = Some k ->
  Forall (fun row => i < List.length row /\ n < List.length row
                     /\ k < List.length row) rows ->
  tx_open st ->
  let result := Backbone.read_taxon_tsv (header :: rows) st in
  result.1 = Ok tt /\
  (forall clazz h,
      out_files_tx st !! clazz = Some h ->
      (forall clazz', out_files_tx st !! clazz' = Some h -> clazz' = clazz) ->
      default [] (files result.2 !! h)
      = (default [] (files st !! h)
         ++ List.concat (backbone_taxon_lines i n k clazz <$> rows))%list) /\
  (forall h, (forall clazz, out_files_tx st !! clazz <> Some h) ->
             files result.2 !! h = files st !! h) /\
  (forall tid,
      id_kingdom_map result.2 !! tid
      = match last (List.filter (backbone_row_of i n tid) rows) with
        | Some row => Some (field row k)
        | None => id_kingdom_map st !! tid
        end).
Proof.
  intros Hi Hn Hk Hrows Hopen result.
  set (sth := set_columns <[kingdom_id := Some k]>
                (set_columns <[canonical_name_id := Some n]>
                   (set_columns <[taxon_id := Some i]> st))).
  assert (Hheader : Backbone.process_taxon_header (header :: rows) st
                    = (Ok rows, sth)).
  { unfold Backbone.process_taxon_header, set_column.
    by rewrite Hi, Hn, Hk. }
  destruct (backbone_taxon_rows_run i n k rows sth)
    as (st' & Hrun & Hfile & Hother & Hkingdom); try done.
  subst result. unfold Backbone.read_taxon_tsv.
  rewrite (bind_Ok _ _ st sth rows Hheader), Hrun. simpl.
  split; [done|]. split; [exact Hfile|]. split; [exact Hother|].
  exact Hkingdom.
Qed.

Lemma backbone_taxon_pass_lines_and_kingdoms_witness :
  let cfg := Config true None true false in
  let st := (init_base cfg blank).2 in
  let rows := [ ["1"; "Plantae"; "Rosa canina"];
                ["2"; "Fungi"; " "];
                ["1"; "Animalia"; "Canis lupus"] ] in
  let result := Backbone.read_taxon_tsv (backbone_header :: rows) st in
  result.1 = Ok tt /\
  id_kingdom_map result.2 !! "1" = Some "Animalia" /\
  id_kingdom_map result.2 !! "2" = None.
Proof.
  intros cfg st rows result.
  assert (Hopen : tx_open st).
  { intros clazz Hin. unfold classes in Hin. simpl in Hin.
    repeat (apply elem_of_cons in Hin as [-> | Hin];
            [vm_compute; eexists; reflexivity|]).
    by apply elem_of_nil in Hin. }
  assert (Hrows : Forall (fun row => 0 < List.length row
                                     /\ 2 < List.length row
                                     /\ 1 < List.length row) rows).
  { repeat constructor; simpl; lia. }
  destruct (backbone_taxon_pass_lines_and_kingdoms backbone_header rows st
              0 2 1 eq_refl eq_refl eq_refl Hrows Hopen)
    as (Hok & _ & _ & Hkingdom).
  split; [exact Hok|]. split.
  - exact (Hkingdom "1").
  - exact (Hkingdom "2").
Defined.

(** ** The domain of IdentifierMap *)

Lemma col_taxon_row_identifier_map
    (strip_author_pattern_match : string -> option string) (cfg : config)
    (row : list string) (st : state) :
  col_row_ok (columns st) row -> tx_open st -> pending_known st ->
  exists st' : state,
    CatalogueOfLife.read_taxon_row strip_author_pattern_match cfg row st
    = (Ok tt, st') /\
    columns st' = columns st /\
    out_files_tx st' = out_files_tx st /\
    pending_known st' /\
    forall t,
      is_Some (taxon_id_identifier_mapping st' !! t)
      <-> t = cell (columns st) taxon_id row
          \/ is_Some (taxon_id_identifier_mapping st !! t).
Proof.
  intros Hok Hopen Hknown.
  set (tid := cell (columns st) taxon_id row).
  set (identifier := cell (columns st) identifier_id row).
  set (accepted := cell (columns st) accepted_name_usage_id row).
  set (name := col_name strip_author_pattern_match cfg (columns st) row).
  set (kingdom := cell (columns st) kingdom_id row).
  assert (Htid : (get_taxon_id row st).1 = Ok tid).
  { unfold get_taxon_id. by rewrite row_get_cell by (done || in_col_columns). }
  assert (Hidentifier :
            (CatalogueOfLife.get_identifier row st).1 = Ok identifier).
  { unfold CatalogueOfLife.get_identifier.
    by rewrite row_get_cell by (done || in_col_columns). }
  assert (Haccepted :
            (row_get accepted_name_usage_id row st).1 = Ok accepted).
  { by rewrite row_get_cell by (done || in_col_columns). }
  assert (Hname :
            (CatalogueOfLife.get_name strip_author_pattern_match cfg row st).1
            = Ok name).
  { by rewrite col_get_name_cell. }
  assert (Hkingdom : (get_kingdom row name st).1 = Ok kingdom).
  { unfold get_kingdom. by rewrite row_get_cell by (done || in_col_columns). }
  assert (Hinsert : forall t,
             is_Some (<[tid := identifier]> (taxon_id_identifier_mapping st)
                      !! t)
             <-> t = tid \/ is_Some (taxon_id_identifier_mapping st !! t)).
  { intros t. rewrite lookup_insert_is_Some. split.
    - intros [->|[_ H]]; [by left | by right].
    - intros [->|H]; [by left|].
      destruct (decide (tid = t)); [by left | by right]. }
  destruct (col_skips name) eqn:Hskip; [|destruct (blank_identifier identifier)
                                           eqn:Hblank].
  - eexists. split.
    { by apply (col_taxon_row_skipped _ cfg row st tid identifier accepted
                  name). }
    simpl. repeat (split; [done|]). split; [|exact Hinsert].
    intros k taxa other Hk Hother. simpl. apply Hinsert. right.
    by apply (Hknown k taxa other).
  - eexists. split.
    { by apply (col_taxon_row_deferred _ cfg row st tid identifier accepted
                  name Htid Hidentifier Haccepted Hname kingdom). }
    simpl. repeat (split; [done|]). split; [|exact Hinsert].
    intros k taxa other Hk Hother. simpl in *. apply Hinsert.
    destruct (decide (accepted = k)) as [<-|Hne].
    + rewrite lookup_insert_eq in Hk. injection Hk as <-.
      apply elem_of_app in Hother as [Hother|Hother].
      * right. destruct (accepted_name_taxon_mapping st !! accepted)
          as [old|] eqn:Hold; simpl in Hother.
        -- by apply (Hknown accepted old other).
        -- by apply elem_of_nil in Hother.
      * apply list_elem_of_singleton in Hother. subst other. by left.
    + rewrite lookup_insert_ne in Hk by done. right.
      by apply (Hknown k taxa other).
  - destruct (Hopen (classify kingdom)) as [h Hh];
      [apply classify_in_classes|].
    destruct (col_taxon_row_resolving _ cfg row st tid identifier accepted
                name Htid Hidentifier Haccepted Hname kingdom h Hskip
                Hkingdom Hblank Hh)
      as (st' & Hrun & _ & _ & Hin & Hout & Hacc & _).
    pose proof (keeps_col_taxon_row (fun s => (columns s, out_files_tx s))
                  ltac:(done) ltac:(done) ltac:(done) ltac:(done)
                  strip_author_pattern_match cfg row st) as Hframe.
    rewrite Hrun in Hframe. simpl in Hframe. injection Hframe as Hcols Htx.
    assert (Hdom : forall t,
               is_Some (taxon_id_identifier_mapping st' !! t)
               <-> t = tid \/ is_Some (taxon_id_identifier_mapping st !! t)).
    { intros t.
      set (pending := default [] (accepted_name_taxon_mapping st !! tid))
        in *.
      destruct (decide (t ∈ tid :: pending.*2)) as [Hmem|Hmem].
      - rewrite (Hin t Hmem). split; [|by eexists].
        intros _. apply elem_of_cons in Hmem as [->|Hmem]; [by left|].
        right. apply list_elem_of_fmap in Hmem as (other & -> & Hother).
        unfold pending in Hother.
        destruct (accepted_name_taxon_mapping st !! tid) as [taxa|] eqn:Htaxa;
          simpl in Hother; [|by apply elem_of_nil in Hother].
        by apply (Hknown tid taxa other).
      - rewrite (Hout t Hmem). apply not_elem_of_cons in Hmem as [Hne _].
        split; [by right|]. by intros [->|H]. }
    exists st'. split; [exact Hrun|]. split; [exact Hcols|].
    split; [exact Htx|]. split; [|exact Hdom].
    intros k taxa other Hk Hother. rewrite Hacc in Hk. apply Hdom. right.
    by apply (Hknown k taxa other).
Qed.

Lemma col_taxon_rows_identifier_map
    (strip_author_pattern_match : string -> option string) (cfg : config)
    (rows : list (list string)) :
  forall st : state,
    Forall (col_row_ok (columns st)) rows -> tx_open st -> pending_known st ->
    exists st' : state,
      for_each (CatalogueOfLife.read_taxon_row strip_author_pattern_match cfg)
               rows st = (Ok tt, st') /\
      pending_known st' /\
      forall t,
        is_Some (taxon_id_identifier_mapping st' !! t)
        <-> is_Some (taxon_id_identifier_mapping st !! t)
            \/ t ∈ cell (columns st) taxon_id <$> rows.
Proof.
  induction rows as [|row rows IH]; intros st Hrows Hopen Hknown.
  - exists st. split; [done|]. split; [done|]. intros t. split; [by left|].
    intros [H|H]; [done|]. by apply elem_of_nil in H.
  - apply Forall_cons in Hrows as [Hrow Hrows].
    destruct (col_taxon_row_identifier_map strip_author_pattern_match cfg row
                st Hrow Hopen Hknown)
      as (st1 & Hrun1 & Hcols & Htx & Hknown1 & Hdom1).
    destruct (IH st1) as (st' & Hrun & Hknown' & Hdom).
    { by rewrite Hcols. }
    { unfold tx_open. by rewrite Htx. }
    { exact Hknown1. }
    exists st'. split; [|split; [exact Hknown'|]].
    + simpl. by rewrite (bind_Ok _ _ st st1 tt Hrun1).
    + intros t. rewrite Hdom, Hdom1, Hcols, fmap_cons, elem_of_cons.
      tauto.
Qed.

(** X11: on a well-formed Catalogue-of-Life taxon table, read by a
    processor in which every deferred taxon has an entry in IdentifierMap
    (as right after the constructor, where both maps are empty), the
    taxon pass completes and IdentifierMap then has an entry exactly for
    its earlier keys and for the taxon identifiers of the rows of the
    table.  So a vernacular row falls back to its own taxon identifier as
    URI suffix exactly when that identifier has no earlier entry and is
    the taxonID of no row of the taxon table. *)
Theorem identifier_map_domain
    (strip_author_pattern_match : string -> option string) (cfg : config)
    (header : list string) (rows : list (list string)) (st : state) :
  let sth := (CatalogueOfLife.process_taxon_header [header] st).2 in
  let result :=
    CatalogueOfLife.read_taxon_tsv strip_author_pattern_match cfg
      (header :: rows) st in
  (CatalogueOfLife.process_taxon_header [header] st).1 = Ok [] ->
  Forall (fun row => List.length header <= List.length row) rows ->
  tx_open st ->
  pending_known st ->
  result.1 = Ok tt /\
  (forall t,
      is_Some (taxon_id_identifier_mapping result.2 !! t)
      <-> is_Some (taxon_id_identifier_mapping st !! t)
          \/ t ∈ cell (columns sth) taxon_id <$> rows) /\
  (forall t,
      taxon_id_identifier_mapping st !! t = None ->
      t ∉ cell (columns sth) taxon_id <$> rows ->
      uri_suffix_of CatalogueOfLifeProcessor result.2 t = t).
Proof.
  intros sth result Hheader Hrows Hopen Hknown.
  destruct (col_header_run header rows st Hheader)
    as (_ & _ & Htx & _ & Hacc & Hmap).
  fold sth in Htx, Hacc, Hmap.
  destruct (col_taxon_rows_identifier_map strip_author_pattern_match cfg rows
              sth) as (st' & Hrun & _ & Hdom).
  { by apply (long_rows_ok header st Hheader). }
  { by apply (tx_open_same header st Hheader). }
  { intros k taxa other Hk Hother. rewrite Hmap. rewrite Hacc in Hk.
    by apply (Hknown k taxa other). }
  subst result. rewrite col_read_taxon_tsv_run by done.
  fold sth. rewrite Hrun. simpl. rewrite Hmap in Hdom.
  split; [done|]. split; [exact Hdom|].
  intros t Hnone Hout.
  destruct (taxon_id_identifier_mapping st' !! t) as [v|] eqn:Hlookup;
    [|done].
  exfalso. destruct (proj1 (Hdom t)) as [H|H]; [by eexists| |done].
  rewrite Hnone in H. by destruct H.
Qed.

Lemma identifier_map_domain_witness :
  let cfg := Config true None true false in
  let st := (init_base cfg blank).2 in
  let result :=
    CatalogueOfLife.read_taxon_tsv (fun _ => None) cfg
      [col_header; col_row_A; col_row_B] st in
  result.1 = Ok tt /\
  uri_suffix_of CatalogueOfLifeProcessor result.2 "T9" = "T9".
Proof.
  intros cfg st result.
  assert (Hopen : tx_open st).
  { intros clazz Hin. unfold classes in Hin. simpl in Hin.
    repeat (apply elem_of_cons in Hin as [-> | Hin];
            [vm_compute; eexists; reflexivity|]).
    by apply elem_of_nil in Hin. }
  assert (Hknown : pending_known st).
  { intros k taxa other Hk. vm_compute in Hk. discriminate. }
  assert (Hrows : Forall (fun row => List.length col_header
                                     <= List.length row)
                         [col_row_A; col_row_B]).
  { repeat constructor. }
  assert (Hout : "T9" ∉ cell (columns
                             (CatalogueOfLife.process_taxon_header
                                [col_header] st).2) taxon_id
                        <$> [col_row_A; col_row_B]).
  { change (cell _ taxon_id <$> [col_row_A; col_row_B]) with ["T1"; "T2"].
    rewrite !not_elem_of_cons.
    repeat (split; [discriminate|]). apply not_elem_of_nil. }
  destruct (identifier_map_domain (fun _ => None) cfg col_header
              [col_row_A; col_row_B] st eq_refl Hrows Hopen Hknown)
    as (Hok & _ & Hfallback).
  split; [exact Hok|]. exact (Hfallback "T9" eq_refl Hout).
Defined.

(** ** Deferred taxa are drained by every resolving row *)

(** X12: a resolving row does not consume what it drains.  When two rows
    with the same taxon identifier and identifiers of their own are read
    one after the other, PendingRedirectMap is afterwards what it was
    before, every taxon deferred to that taxon identifier has a line with
    the identifier of the first row in the file of the first row and a
    line with the identifier of the second row in the file of the second
    row, and IdentifierMap maps it to the identifier of the second
    row. *)
Theorem deferred_taxa_drained_by_each_row
    (strip_author_pattern_match : string -> option string) (cfg : config)
    (B1 B2 : list string) (st : state)
    (tid identifier1 identifier2 accepted1 accepted2 name1 name2
       kingdom1 kingdom2 : string) (h1 h2 : handle) :
  let read := CatalogueOfLife.read_taxon_row strip_author_pattern_match cfg in
  let pending := default [] (accepted_name_taxon_mapping st !! tid) in
  (get_taxon_id B1 st).1 = Ok tid ->
  (CatalogueOfLife.get_identifier B1 st).1 = Ok identifier1 ->
  (row_get accepted_name_usage_id B1 st).1 = Ok accepted1 ->
  (CatalogueOfLife.get_name strip_author_pattern_match cfg B1 st).1
  = Ok name1 ->
  col_skips name1 = false ->
  (get_kingdom B1 name1 st).1 = Ok kingdom1 ->
  blank_identifier identifier1 = false ->
  out_files_tx st !! classify kingdom1 = Some h1 ->
  (get_taxon_id B2 st).1 = Ok tid ->
  (CatalogueOfLife.get_identifier B2 st).1 = Ok identifier2 ->
  (row_get accepted_name_usage_id B2 st).1 = Ok accepted2 ->
  (CatalogueOfLife.get_name strip_author_pattern_match cfg B2 st).1
  = Ok name2 ->
  col_skips name2 = false ->
  (get_kingdom B2 name2 st).1 = Ok kingdom2 ->
  blank_identifier identifier2 = false ->
  out_files_tx st !! classify kingdom2 = Some h2 ->
  let first := read B1 st in
  let second := read B2 first.2 in
  first.1 = Ok tt /\
  second.1 = Ok tt /\
  accepted_name_taxon_mapping second.2 = accepted_name_taxon_mapping st /\
  forall other_name other_taxon_id,
    (other_name, other_taxon_id) ∈ pending ->
    (exists lines,
        files second.2 !! h1 = Some lines /\
        format_line CatalogueOfLife.base_uri other_name identifier1 ∈ lines)
    /\
    (exists lines,
        files second.2 !! h2 = Some lines /\
        format_line CatalogueOfLife.base_uri other_name identifier2 ∈ lines)
    /\
    taxon_id_identifier_mapping second.2 !! other_taxon_id = Some identifier2.
Proof.
  intros read pending Htid1 Hid1 Hacc1 Hname1 Hskip1 Hk1 Hblank1 Hh1
    Htid2 Hid2 Hacc2 Hname2 Hskip2 Hk2 Hblank2 Hh2 first second.
  destruct (col_taxon_row_resolving strip_author_pattern_match cfg B1 st tid
              identifier1 accepted1 name1 Htid1 Hid1 Hacc1 Hname1 kingdom1 h1
              Hskip1 Hk1 Hblank1 Hh1)
    as (st1 & Hrun1 & Hfile1 & _ & _ & _ & Hpending1 & _).
  fold pending in Hfile1.
  pose proof (keeps_col_taxon_row (fun s => (columns s, out_files_tx s))
                ltac:(done) ltac:(done) ltac:(done) ltac:(done)
                strip_author_pattern_match cfg B1 st) as Hframe.
  rewrite Hrun1 in Hframe. simpl in Hframe. injection Hframe as Hcols Htx.
  destruct (col_taxon_row_resolving strip_author_pattern_match cfg B2 st1 tid
              identifier2 accepted2 name2)
    with (kingdom := kingdom2) (h := h2)
    as (st2 & Hrun2 & Hfile2 & Hother2 & Hin2 & _ & Hpending2 & _).
  { unfold get_taxon_id in *. by rewrite (row_get_columns _ _ st). }
  { unfold CatalogueOfLife.get_identifier in *.
    by rewrite (row_get_columns _ _ st). }
  { by rewrite (row_get_columns _ _ st). }
  { by rewrite (col_get_name_columns _ _ _ st). }
  { exact Hskip2. }
  { unfold get_kingdom in *. by rewrite (row_get_columns _ _ st). }
  { exact Hblank2. }
  { by rewrite Htx. }
  rewrite Hpending1 in Hfile2, Hin2. fold pending in Hfile2, Hin2.
  subst first second read. rewrite Hrun1. simpl. rewrite Hrun2. simpl.
  split; [done|]. split; [done|]. split; [congruence|].
  intros other_name other_taxon_id Hother.
  assert (Hline : forall identifier,
             format_line CatalogueOfLife.base_uri other_name identifier
             ∈ (fun other : string * string =>
                  format_line CatalogueOfLife.base_uri other.1 identifier)
               <$> pending).
  { intros identifier. apply list_elem_of_fmap.
    by exists (other_name, other_taxon_id). }
  split; [|split].
  - destruct (decide (h1 = h2)) as [<-|Hne].
    + eexists. split; [exact Hfile2|]. rewrite Hfile1. simpl.
      apply elem_of_app. left. apply elem_of_app. right.
      apply elem_of_cons. right. apply Hline.
    + eexists. split; [by rewrite (Hother2 h1 Hne)|].
      apply elem_of_app. right. apply elem_of_cons. right. apply Hline.
  - eexists. split; [exact Hfile2|].
    apply elem_of_app. right. apply elem_of_cons. right. apply Hline.
  - apply Hin2. apply elem_of_cons. right. apply list_elem_of_fmap.
    by exists (other_name, other_taxon_id).
Qed.

Lemma deferred_taxa_drained_by_each_row_witness :
  let cfg := Config true None true false in
  let st := (CatalogueOfLife.read_taxon_tsv (fun _ => None) cfg
               [col_header; col_row_A] (init_base cfg blank).2).2 in
  let read := CatalogueOfLife.read_taxon_row (fun _ => None) cfg in
  taxon_id_identifier_mapping (read col_row_B2 (read col_row_B st).2).2
    !! "T1" = Some "X2".
Proof.
  intros cfg st read.
  assert (Hpending :
            ("Rosa alba ", "T1")
            ∈ default [] (accepted_name_taxon_mapping st !! "T2")).
  { vm_compute. left. }
  destruct (deferred_taxa_drained_by_each_row (fun _ => None) cfg col_row_B
              col_row_B2 st "T2" "X1" "X2" "" "" "Canis lupus "
              "Canis lupus familiaris" "Animalia" "Animalia"
              ("Animal_Fauna", "_tx") ("Animal_Fauna", "_tx")
              eq_refl eq_refl eq_refl eq_refl eq_refl eq_refl eq_refl eq_refl
              eq_refl eq_refl eq_refl eq_refl eq_refl eq_refl eq_refl eq_refl)
    as (_ & _ & _ & Hdrained).
  exact (proj2 (proj2 (Hdrained "Rosa alba " "T1" Hpending))).
Defined.

(** ** Post-processing: [delete_empty] *)

Lemma remove_empty_files_run (file_names : list handle) :
  forall fs : gmap handle (list string),
    NoDup file_names ->
    (forall name, name ∈ file_names -> is_Some (fs !! name)) ->
    exists fs' : gmap handle (list string),
      remove_empty_files file_names fs = inr fs' /\
      forall h, fs' !! h
                = if decide (h ∈ file_names) then kept_content (fs !! h)
                  else fs !! h.
Proof.
  induction file_names as [|name names IH]; intros fs Hnodup Hexist.
  - exists fs. split; [done|]. intros h.
    rewrite decide_False; [done | apply not_elem_of_nil].
  - apply NoDup_cons in Hnodup as [Hname Hnodup].
    destruct (Hexist name) as [lines Hlines]; [apply list_elem_of_here|].
    simpl. rewrite Hlines.
    destruct (file_is_empty lines) eqn:Hempty.
    + destruct (IH (delete name fs) Hnodup) as (fs' & Hrun & Hlookup).
      { intros name' Hin. rewrite lookup_delete_ne.
        - apply Hexist. by apply list_elem_of_further.
        - by intros ->. }
      exists fs'. split; [exact Hrun|]. intros h. rewrite Hlookup.
      destruct (decide (h = name)) as [->|Hne].
      * rewrite decide_False by done.
        rewrite decide_True by apply list_elem_of_here.
        rewrite lookup_delete_eq, Hlines. simpl. by rewrite Hempty.
      * rewrite lookup_delete_ne by done.
        destruct (decide (h ∈ names)) as [Hin|Hout].
        -- by rewrite decide_True by by apply list_elem_of_further.
        -- rewrite decide_False; [done|].
           by apply not_elem_of_cons.
    + destruct (IH fs Hnodup) as (fs' & Hrun & Hlookup).
      { intros name' Hin. apply Hexist. by apply list_elem_of_further. }
      exists fs'. split; [exact Hrun|]. intros h. rewrite Hlookup.
      destruct (decide (h = name)) as [->|Hne].
      * rewrite decide_False by done.
        rewrite decide_True by apply list_elem_of_here.
        rewrite Hlines. simpl. by rewrite Hempty.
      * destruct (decide (h ∈ names)) as [Hin|Hout].
        -- by rewrite decide_True by by apply list_elem_of_further.
        -- rewrite decide_False; [done|].
           by apply not_elem_of_cons.
Qed.

Lemma remove_empty_files_missing (file_names : list handle) :
  forall (fs : gmap handle (list string)) (name : handle),
    name ∈ file_names -> fs !! name = None ->
    remove_empty_files file_names fs = inl FileNotFoundError.
Proof.
  induction file_names as [|name' names IH]; intros fs name Hin Hnone.
  - by apply elem_of_nil in Hin.
  - simpl. destruct (fs !! name') as [lines|] eqn:Hlines; [|done].
    apply elem_of_cons in Hin as [->|Hin]; [congruence|].
    destruct (file_is_empty lines).
    + apply (IH _ name Hin). destruct (decide (name' = name)) as [->|Hne].
      * apply lookup_delete_eq.
      * by rewrite lookup_delete_ne.
    + by apply (IH _ name Hin).
Qed.

(** X13: the loop of [delete_empty], on distinct names of existing
    files, succeeds; it removes exactly the listed files that hold
    nothing, and leaves every other file (listed or not) with its
    content.  The result does not depend on the order of the names.  A
    listed name whose file does not exist makes the loop raise
    FileNotFoundError. *)
Theorem delete_empty_removes_empty_files (file_names : list handle)
    (fs : gmap handle (list string)) :
  (NoDup file_names ->
   (forall name, name ∈ file_names -> is_Some (fs !! name)) ->
   exists fs' : gmap handle (list string),
     remove_empty_files file_names fs = inr fs' /\
     (forall h, fs' !! h
                = if decide (h ∈ file_names) then kept_content (fs !! h)
                  else fs !! h) /\
     (forall file_names', file_names' ≡ₚ file_names ->
                          remove_empty_files file_names' fs = inr fs')) /\
  (forall name, name ∈ file_names -> fs !! name = None ->
                remove_empty_files file_names fs = inl FileNotFoundError).
Proof.
  split; [|intros name; apply remove_empty_files_missing].
  intros Hnodup Hexist.
  destruct (remove_empty_files_run file_names fs Hnodup Hexist)
    as (fs' & Hrun & Hlookup).
  exists fs'. split; [exact Hrun|]. split; [exact Hlookup|].
  intros names' Hperm.
  destruct (remove_empty_files_run names' fs) as (fs'' & Hrun' & Hlookup').
  { by rewrite Hperm. }
  { intros name Hin. apply Hexist. by rewrite <- Hperm. }
  rewrite Hrun'. f_equal. apply map_eq. intros h.
  rewrite Hlookup, Hlookup'.
  destruct (decide (h ∈ file_names)) as [Hin|Hout].
  - rewrite decide_True; [done | by rewrite Hperm].
  - rewrite decide_False; [done | by rewrite Hperm].
Qed.

Lemma delete_empty_removes_empty_files_witness :
  exists fs' : gmap handle (list string),
    remove_empty_files [("Fungi", "_tx"); ("Taxon", "_tx")]
      (<[("Fungi", "_tx") := []]>
         (<[("Taxon", "_tx") := ["Rosa" +:+ tab +:+ "u" +:+ newline]]> ∅))
    = inr fs' /\
    fs' !! ("Fungi", "_tx") = None.
Proof.
  destruct (proj1 (delete_empty_removes_empty_files
                     [("Fungi", "_tx"); ("Taxon", "_tx")]
                     (<[("Fungi", "_tx") := []]>
                        (<[("Taxon", "_tx")
                           := ["Rosa" +:+ tab +:+ "u" +:+ newline]]> ∅))))
    as (fs' & Hrun & Hlookup & _).
  - apply (bool_decide_unpack _). by vm_compute.
  - intros name Hin.
    apply elem_of_cons in Hin as [->|Hin]; [vm_compute; by eexists|].
    apply elem_of_cons in Hin as [->|Hin]; [vm_compute; by eexists|].
    by apply elem_of_nil in Hin.
  - exists fs'. split; [exact Hrun|].
    rewrite (Hlookup ("Fungi", "_tx")).
    rewrite decide_True by apply list_elem_of_here. reflexivity.
Defined.

Lemma file_is_empty_nil (lines : list string) :
  Forall (fun line => line <> "") lines ->
  file_is_empty lines = bool_decide (lines = []).
Proof.
  intros Hlines. destruct lines as [|line lines]; [done|].
  apply Forall_cons in Hlines as [Hline _].
  unfold file_is_empty. simpl.
  destruct line as [|a line]; [done|].
  by destruct lines.
Qed.

Lemma format_line_nonempty (base_uri name suffix : string) :
  format_line base_uri name suffix <> "".
Proof.
  unfold format_line. intros Heq.
  apply (f_equal String.length) in Heq.
  rewrite !length_append in Heq. simpl in Heq. lia.
Qed.

Global Instance run_invariant_preorder : PreOrder run_invariant.
Proof.
  split.
  - intros s. split; [done|]. split; [done|]. split; [apply grows_refl|done].
  - intros s1 s2 s3 (Htx12 & Hvn12 & Hf12 & Hw12) (Htx23 & Hvn23 & Hf23 & Hw23).
    split; [congruence|]. split; [congruence|].
    split; [eapply grows_trans; eassumption|].
    intros h Hh. by apply Hw23, Hw12.
Qed.

Lemma run_invariant_line (h : handle) (base_uri name suffix : string)
    (st : state) :
  run_invariant st
    (set_files
       (fun fs =>
          <[h := (default [] (fs !! h)
                  ++ [format_line base_uri name suffix])%list]> fs) st).
Proof.
  split; [done|]. split; [done|]. split; [apply grows_insert_app|].
  intros h' Hh' lines. simpl.
  destruct (decide (h' = h)) as [->|Hne].
  - rewrite lookup_insert_eq. intros [= <-].
    apply Forall_app. split.
    + destruct (files st !! h) as [lines0|] eqn:Hlines0; simpl; [|done].
      by apply Hh'.
    + apply Forall_singleton, format_line_nonempty.
  - rewrite lookup_insert_ne by done. apply Hh'.
Qed.

Lemma process_run_invariant (p : processor)
    (strip_author_pattern_match : string -> option string) (cfg : config)
    (taxon_tsv vernacular_name_tsv : list (list string)) :
  leads run_invariant
    (process (read_taxon_tsv_of p strip_author_pattern_match cfg)
       (read_vernacular_names_tsv_of p cfg) taxon_tsv vernacular_name_tsv).
Proof.
  unfold process. apply (leads_bind run_invariant).
  - apply (leads_taxon_tsv run_invariant);
      try (intros; split; [done|]; split; [done|];
           split; [apply grows_refl | done]).
    intros. apply run_invariant_line.
  - intros _. apply (leads_vernacular_tsv run_invariant);
      try (intros; split; [done|]; split; [done|];
           split; [apply grows_refl | done]).
    intros. apply run_invariant_line.
Qed.

Lemma file_names_of_elem (d : gmap string handle) (h : handle) :
  h ∈ file_names_of d <-> exists clazz, d !! clazz = Some h.
Proof.
  unfold file_names_of. rewrite list_elem_of_fmap. split.
  - intros ([clazz h'] & -> & Hin). exists clazz.
    by apply elem_of_map_to_list in Hin.
  - intros (clazz & Hlookup). exists (clazz, h). split; [done|].
    by apply elem_of_map_to_list.
Qed.

Lemma file_names_of_NoDup (d : gmap string handle) :
  (forall clazz h, d !! clazz = Some h -> h.1 = clazz) ->
  NoDup (file_names_of d).
Proof.
  intros Hname. unfold file_names_of.
  apply NoDup_fmap_2_strong; [|apply NoDup_map_to_list].
  intros [clazz1 h1] [clazz2 h2] Hin1 Hin2. simpl. intros <-.
  apply elem_of_map_to_list in Hin1, Hin2.
  apply Hname in Hin1, Hin2. congruence.
Qed.

(** The files that [delete_empty] lists, in any state that the passes
    can reach from the constructor. *)
Lemma output_files_after_init (cfg : config) (st0 s : state) :
  run_invariant (init_base cfg st0).2 s ->
  let file_names :=
    (file_names_of (out_files_tx s)
     ++ (if separate_vernacular_names cfg
         then file_names_of (out_files_vn s) else []))%list in
  NoDup file_names /\
  (forall h, h ∈ file_names <-> output_handle cfg h) /\
  (forall h, output_handle cfg h ->
             exists lines, files s !! h = Some lines /\
                           Forall (fun line => line <> "") lines).
Proof.
  intros (Htx & Hvn & Hgrow & Hw) file_names. subst file_names.
  rewrite <- Htx, <- Hvn.
  destruct (init_base_opens cfg st0)
    as (_ & _ & Hopen & Hclosed & _ & Hsep & _).
  assert (Htx_elem : forall h,
             h ∈ file_names_of (out_files_tx (init_base cfg st0).2)
             <-> h.1 ∈ classes /\ h.2 = tx_identifier cfg).
  { intros h. rewrite file_names_of_elem. split.
    - intros (clazz & Hlookup).
      destruct (decide (clazz ∈ classes)) as [Hin|Hout].
      + destruct (Hopen clazz Hin) as (Hh & _).
        rewrite Hh in Hlookup. by injection Hlookup as <-.
      + destruct (Hclosed clazz Hout) as (Hh & _). congruence.
    - destruct h as [clazz id]. simpl. intros [Hin ->]. exists clazz.
      by destruct (Hopen clazz Hin) as (Hh & _). }
  assert (Hvn_elem : forall h,
             h ∈ file_names_of (out_files_vn (init_base cfg st0).2)
             <-> h.1 ∈ classes /\ h.2 = vn_identifier cfg).
  { intros h. rewrite file_names_of_elem. split.
    - intros (clazz & Hlookup).
      destruct (decide (clazz ∈ classes)) as [Hin|Hout].
      + destruct (Hopen clazz Hin) as (_ & Hh & _).
        rewrite Hh in Hlookup. by injection Hlookup as <-.
      + destruct (Hclosed clazz Hout) as (_ & Hh). congruence.
    - destruct h as [clazz id]. simpl. intros [Hin ->]. exists clazz.
      by destruct (Hopen clazz Hin) as (_ & Hh & _). }
  assert (Hname_tx : forall clazz h,
             out_files_tx (init_base cfg st0).2 !! clazz = Some h ->
             h.1 = clazz).
  { intros clazz h Hlookup.
    destruct (decide (clazz ∈ classes)) as [Hin|Hout].
    - destruct (Hopen clazz Hin) as (Hh & _).
      rewrite Hh in Hlookup. by injection Hlookup as <-.
    - destruct (Hclosed clazz Hout) as (Hh & _). congruence. }
  assert (Hname_vn : forall clazz h,
             out_files_vn (init_base cfg st0).2 !! clazz = Some h ->
             h.1 = clazz).
  { intros clazz h Hlookup.
    destruct (decide (clazz ∈ classes)) as [Hin|Hout].
    - destruct (Hopen clazz Hin) as (_ & Hh & _).
      rewrite Hh in Hlookup. by injection Hlookup as <-.
    - destruct (Hclosed clazz Hout) as (_ & Hh). congruence. }
  split; [|split].
  - apply NoDup_app. split; [by apply file_names_of_NoDup|]. split.
    + intros h Hin_tx Hin_vn.
      destruct (separate_vernacular_names cfg) eqn:Hmode;
        [|by apply elem_of_nil in Hin_vn].
      apply Htx_elem in Hin_tx as [_ Hid_tx].
      apply Hvn_elem in Hin_vn as [_ Hid_vn].
      apply (Hsep eq_refl). congruence.
    + destruct (separate_vernacular_names cfg);
        [by apply file_names_of_NoDup | apply NoDup_nil_2].
  - intros h. rewrite elem_of_app, Htx_elem. unfold output_handle.
    destruct (separate_vernacular_names cfg) eqn:Hmode.
    + rewrite Hvn_elem. tauto.
    + rewrite elem_of_nil.
      assert (Hsame : vn_identifier cfg = tx_identifier cfg).
      { unfold vn_identifier, tx_identifier. by rewrite Hmode. }
      rewrite Hsame. tauto.
  - intros [clazz id] [Hin Hid]. simpl in Hin, Hid.
    assert (Hempty : files (init_base cfg st0).2 !! (clazz, id) = Some []).
    { destruct (Hopen clazz Hin) as (_ & _ & Hftx & Hfvn).
      by destruct Hid as [-> | ->]. }
    destruct (Hgrow _ _ Hempty) as [lines Hlines]. simpl in Hlines.
    exists lines. split; [exact Hlines|].
    apply (Hw (clazz, id)); [|exact Hlines].
    intros lines0. rewrite Hempty. by intros [= <-].
Qed.

(** X14: after a completed run of either processor, [delete_empty]
    (called with sorting switched off) does not raise; of the taxon and
    vernacular files of the classes it removes exactly those to which
    the run wrote no line, every other file keeps its lines, and nothing
    else of the object changes. *)
Theorem delete_empty_after_run (p : processor)
    (strip_author_pattern_match : string -> option string) (cfg : config)
    (taxon_tsv vernacular_name_tsv : list (list string)) (st : state)
    (counts : nat * nat) :
  let result :=
    run_of p strip_author_pattern_match cfg taxon_tsv vernacular_name_tsv
      st in
  result.1 = Ok counts ->
  exists st' : state,
    delete_empty cfg result.2 = inr st' /\
    st' = set_files (fun _ => files st') result.2 /\
    (forall h, output_handle cfg h ->
               exists lines,
                 files result.2 !! h = Some lines /\
                 files st' !! h
                 = if decide (lines = []) then None else Some lines) /\
    (forall h, ~ output_handle cfg h ->
               files st' !! h = files result.2 !! h).
Proof.
  intros result _.
  destruct (run_of_unfold p strip_author_pattern_match cfg taxon_tsv
              vernacular_name_tsv st) as (st0 & _ & Hrun & _).
  pose proof (process_run_invariant p strip_author_pattern_match cfg
                taxon_tsv vernacular_name_tsv (init_base cfg st0).2) as Hinv.
  rewrite <- Hrun in Hinv. fold result in Hinv.
  destruct (output_files_after_init cfg st0 result.2 Hinv)
    as (Hnodup & Hnames & Hfiles).
  destruct (remove_empty_files_run _ (files result.2) Hnodup)
    as (fs' & Hremove & Hlookup).
  { intros name Hin. apply Hnames in Hin.
    destruct (Hfiles name Hin) as (lines & -> & _). by eexists. }
  exists (set_files (fun _ => fs') result.2).
  split; [|split; [|split]].
  - unfold delete_empty. by rewrite Hremove.
  - done.
  - intros h Hh. destruct (Hfiles h Hh) as (lines & Hlines & Hnonempty).
    exists lines. split; [exact Hlines|]. simpl.
    rewrite Hlookup, decide_True by by apply Hnames.
    rewrite Hlines. simpl. rewrite (file_is_empty_nil lines Hnonempty).
    by destruct lines.
  - intros h Hh. simpl. rewrite Hlookup, decide_False; [done|].
    intros Hin. by apply Hh, Hnames.
Qed.

Lemma delete_empty_after_run_witness :
  let cfg := Config true (Some {[ "de" ]}) false false in
  let taxon_tsv :=
    [ ["taxonID"; "kingdom"; "canonicalName"];
      ["1"; "Plantae"; "Rosa canina"] ] in
  let vernacular_name_tsv :=
    [ ["taxonID"; "language"; "vernacularName"];
      ["1"; "de"; "Hundsrose, Heckenrose"] ] in
  let result :=
    run_of BackboneProcessor (fun _ => None) cfg taxon_tsv
      vernacular_name_tsv blank in
  result.1 = Ok (0, 1) /\
  exists st' : state,
    delete_empty cfg result.2 = inr st' /\
    (forall h, ~ output_handle cfg h ->
               files st' !! h = files result.2 !! h).
Proof.
  intros cfg taxon_tsv vernacular_name_tsv result.
  assert (Hok : result.1 = Ok (0, 1)) by (vm_compute; reflexivity).
  split; [exact Hok|].
  pose proof (delete_empty_after_run BackboneProcessor (fun _ => None) cfg
                taxon_tsv vernacular_name_tsv blank (0, 1)) as Hrun.
  cbv zeta in Hrun. fold result in Hrun.
  destruct (Hrun Hok) as (st' & Hdelete & _ & _ & Hother).
  exists st'. split; [exact Hdelete | exact Hother].
Defined.

(** ** The whole run of the backbone processor *)

Lemma init_base_handles (cfg : config) (st : state) (clazz : string)
    (h : handle) :
  (out_files_tx (init_base cfg st).2 !! clazz = Some h ->
   h = (clazz, tx_identifier cfg)) /\
  (out_files_vn (init_base cfg st).2 !! clazz = Some h ->
   h = (clazz, vn_identifier cfg)).
Proof.
  destruct (init_base_opens cfg st) as (_ & _ & Hopen & Hclosed & _).
  destruct (decide (clazz ∈ classes)) as [Hin|Hout].
  - destruct (Hopen clazz Hin) as (Htx & Hvn & _). rewrite Htx, Hvn.
    split; congruence.
  - destruct (Hclosed clazz Hout) as (Htx & Hvn). rewrite Htx, Hvn.
    split; congruence.
Qed.

Lemma grows_default {K : Type} `{Countable K} {V : Type}
    (m m' : gmap K (list V)) (k : K) (l l' : list V) :
  grows m m' -> m !! k = Some l -> default [] (m' !! k) = l' ->
  m' !! k = Some l'.
Proof.
  intros Hgrow Hl Hdefault. destruct (Hgrow k l Hl) as [more Hmore].
  rewrite Hmore in Hdefault. simpl in Hdefault. by rewrite Hmore, Hdefault.
Qed.

(** X15: the backbone processor end to end.  On a taxon table and a
    vernacular table whose headers have the columns and whose rows are
    long enough, the run from the constructor to the end of [process]
    completes and reports the number of filtered rows and of all
    vernacular rows.  With separate vernacular files, the taxon file of a
    class holds exactly the taxon lines of that class, and its vernacular
    file exactly the lines of the accepted vernacular rows whose taxon
    has that class by the kingdom of the last taxon row with its
    identifier that was not skipped (the default class when there is
    none).  Without separate files, the single file of a class holds the
    taxon lines followed by the vernacular lines.  What the object held
    before the constructor plays no part. *)
Theorem backbone_run_output (cfg : config)
    (taxon_header names_header : list string)
    (taxon_rows names_rows : list (list string)) (st : state)
    (i n k i' j' k' : nat) :
  index Backbone.taxon_id_key taxon_header = Some i ->
  index Backbone.canonical_name_key taxon_header = Some n ->
  index Backbone.kingdom_key taxon_header = Some k ->
  index "taxonID" names_header = Some i' ->
  index "language" names_header = Some j' ->
  index "vernacularName" names_header = Some k' ->
  Forall (fun row => i < List.length row /\ n < List.length row
                     /\ k < List.length row) taxon_rows ->
  Forall (fun row => i' < List.length row /\ j' < List.length row
                     /\ k' < List.length row) names_rows ->
  let result :=
    Backbone.run cfg (taxon_header :: taxon_rows)
      (names_header :: names_rows) st in
  let taxon_part clazz :=
    List.concat (backbone_taxon_lines i n k clazz <$> taxon_rows) in
  let vernacular_part clazz :=
    List.concat
      (backbone_vernacular_lines cfg (backbone_kingdom_of i n k taxon_rows)
         i' j' k' clazz <$> names_rows) in
  result.1
  = Ok (List.length
          (List.filter (filtered_out BackboneProcessor cfg j') names_rows),
        List.length names_rows) /\
  forall clazz,
    clazz ∈ classes ->
    if separate_vernacular_names cfg
    then files result.2 !! (clazz, "_tx") = Some (taxon_part clazz) /\
         files result.2 !! (clazz, "_vn") = Some (vernacular_part clazz)
    else files result.2 !! (clazz, "")
         = Some (taxon_part clazz ++ vernacular_part clazz)%list.
Proof.
  intros Hi Hn Hk Hi' Hj' Hk' Htaxon_rows Hnames_rows result taxon_part
    vernacular_part.
  destruct (init_base_opens cfg st) as (Hinit & Hkingdom0 & Hopen & _).
  pose proof (init_base_handles cfg st) as Hhandles.
  assert (Hinit' : init_base cfg st = (Ok tt, (init_base cfg st).2)).
  { rewrite <- Hinit. apply surjective_pairing. }
  set (s0 := (init_base cfg st).2) in *.
  (* the taxon pass *)
  set (sth := set_columns <[kingdom_id := Some k]>
                (set_columns <[canonical_name_id := Some n]>
                   (set_columns <[taxon_id := Some i]> s0))).
  assert (Hheader : Backbone.process_taxon_header
                      (taxon_header :: taxon_rows) s0
                    = (Ok taxon_rows, sth)).
  { unfold Backbone.process_taxon_header, set_column.
    by rewrite Hi, Hn, Hk. }
  destruct (backbone_taxon_rows_run i n k taxon_rows sth)
    as (s1 & Hrun1 & Hfile1 & Hother1 & Hkingdom1); try done.
  { intros clazz Hin. destruct (Hopen clazz Hin) as (Htx & _).
    simpl. rewrite Htx. by eexists. }
  assert (Htaxon : Backbone.read_taxon_tsv (taxon_header :: taxon_rows) s0
                   = (Ok tt, s1)).
  { unfold Backbone.read_taxon_tsv.
    by rewrite (bind_Ok _ _ s0 sth taxon_rows Hheader). }
  pose proof (keeps_backbone_taxon_tsv out_files_vn
                (taxon_header :: taxon_rows)
                (fun _ _ => eq_refl) (fun _ _ => eq_refl)
                (fun _ _ => eq_refl) s0) as Hvn1.
  rewrite Htaxon in Hvn1. simpl in Hvn1.
  pose proof (taxon_tsv_only_appends BackboneProcessor (fun _ => None) cfg
                (taxon_header :: taxon_rows) s0) as [Hgrow1 _].
  simpl in Hgrow1. rewrite Htaxon in Hgrow1. simpl in Hgrow1.
  (* the vernacular pass *)
  set (sth2 := set_columns <[vernacular_name_id := Some k']>
                 (set_columns <[language_id := Some j']>
                    (set_columns <[taxon_id := Some i']> s1))).
  destruct (vernacular_rows_run BackboneProcessor cfg i' j' k' names_rows
              (0, 0) sth2) as (s2 & Hrun2 & Hfile2 & Hother2); try done.
  { intros clazz Hin. destruct (Hopen clazz Hin) as (_ & Hvn & _).
    simpl. rewrite Hvn1, Hvn. by eexists. }
  simpl in Hrun2.
  assert (Hnames : Backbone.read_vernacular_names_tsv cfg
                     (names_header :: names_rows) s1
                   = (Ok (List.length
                            (List.filter
                               (filtered_out BackboneProcessor cfg j')
                               names_rows),
                          List.length names_rows), s2)).
  { unfold Backbone.read_vernacular_names_tsv.
    by rewrite (bind_Ok _ _ s1 sth2 names_rows)
      by (by apply (vernacular_header_run names_header names_rows s1
                      i' j' k')). }
  pose proof (vernacular_tsv_only_appends BackboneProcessor cfg
                (names_header :: names_rows) s1) as [Hgrow2 _].
  simpl in Hgrow2. rewrite Hnames in Hgrow2. simpl in Hgrow2.
  assert (Hresult : result
                    = (Ok (List.length
                             (List.filter
                                (filtered_out BackboneProcessor cfg j')
                                names_rows),
                           List.length names_rows), s2)).
  { subst result. unfold Backbone.run.
    rewrite (bind_Ok _ _ st s0 tt Hinit'). unfold process.
    by rewrite (bind_Ok _ _ s0 s1 tt Htaxon). }
  rewrite Hresult. simpl. split; [done|].
  (* the lines of a vernacular row, from the taxon table *)
  assert (Hlines : forall clazz row,
             vernacular_lines BackboneProcessor cfg sth2 i' j' k' clazz row
             = backbone_vernacular_lines cfg
                 (backbone_kingdom_of i n k taxon_rows) i' j' k' clazz row).
  { intros clazz row.
    unfold vernacular_lines, backbone_vernacular_lines, class_of_taxon,
      backbone_kingdom_of. simpl.
    rewrite (Hkingdom1 (field row i')). simpl. rewrite Hkingdom0.
    rewrite lookup_empty.
    by destruct (last (List.filter (backbone_row_of i n (field row i'))
                         taxon_rows)). }
  intros clazz Hin.
  destruct (Hopen clazz Hin) as (Htx & Hvn & Hftx & Hfvn).
  fold s0 in Htx, Hvn, Hftx, Hfvn.
  (* the taxon file after the taxon pass *)
  assert (Htx_file : files s1 !! (clazz, tx_identifier cfg)
                     = Some (taxon_part clazz)).
  { apply (grows_default (files s0) _ _ []); [exact Hgrow1 | exact Hftx |].
    rewrite (Hfile1 clazz (clazz, tx_identifier cfg) Htx).
    - simpl. fold s0. by rewrite Hftx.
    - intros clazz' Hclazz'. simpl in Hclazz'.
      apply (Hhandles clazz' (clazz, tx_identifier cfg)) in Hclazz'.
      congruence. }
  (* the vernacular file after the vernacular pass *)
  assert (Hvn_file : files s2 !! (clazz, vn_identifier cfg)
                     = Some (default [] (files s1 !! (clazz, vn_identifier cfg))
                             ++ vernacular_part clazz)%list).
  { destruct (Hgrow1 _ _ Hfvn) as [lines1 Hlines1]. simpl in Hlines1.
    apply (grows_default (files s1) _ _ lines1); [exact Hgrow2 | exact Hlines1 |].
    rewrite (Hfile2 clazz (clazz, vn_identifier cfg)).
    - simpl. f_equal. subst vernacular_part. simpl. f_equal.
      apply list_fmap_ext. intros ? row _. apply Hlines.
    - simpl. by rewrite Hvn1.
    - intros clazz' Hclazz'. simpl in Hclazz'. rewrite Hvn1 in Hclazz'.
      apply (Hhandles clazz' (clazz, vn_identifier cfg)) in Hclazz'.
      congruence. }
  unfold tx_identifier, vn_identifier in *.
  destruct (separate_vernacular_names cfg).
  - split.
    + rewrite <- Htx_file. apply Hother2.
      intros clazz' Hclazz'. simpl in Hclazz'. rewrite Hvn1 in Hclazz'.
      apply (Hhandles clazz' (clazz, "_tx")) in Hclazz'. discriminate.
    + rewrite Hvn_file. f_equal.
      rewrite Hother1.
      * simpl. fold s0. by rewrite Hfvn.
      * intros clazz' Hclazz'. simpl in Hclazz'.
        apply (Hhandles clazz' (clazz, "_vn")) in Hclazz'. discriminate.
  - by rewrite Hvn_file, Htx_file.
Qed.

Lemma backbone_run_output_witness :
  let cfg := Config false (Some {[ "de" ]}) true false in
  let taxon_rows := [ ["1"; "Plantae"; "Rosa canina"];
                      ["2"; "Fungi"; " "] ] in
  let names_rows := [ ["1"; "de"; "Hundsrose, Heckenrose"];
                      ["2"; "en"; "mould"] ] in
  let result :=
    Backbone.run cfg (backbone_header :: taxon_rows)
      (vernacular_header :: names_rows) blank in
  result.1 = Ok (1, 2) /\
  files result.2 !! ("Plant_Flora", "")
  = Some [format_line Backbone.base_uri "Rosa canina" "1";
          format_line Backbone.base_uri "Hundsrose" "1";
          format_line Backbone.base_uri "Heckenrose" "1"].
Proof.
  intros cfg taxon_rows names_rows result.
  assert (Htaxon_rows : Forall (fun row => 0 < List.length row
                                           /\ 2 < List.length row
                                           /\ 1 < List.length row)
                          taxon_rows).
  { repeat constructor. }
  assert (Hnames_rows : Forall (fun row => 0 < List.length row
                                           /\ 1 < List.length row
                                           /\ 2 < List.length row)
                          names_rows).
  { repeat constructor. }
  assert (Hin : "Plant_Flora" ∈ classes).
  { apply (bool_decide_unpack _). by vm_compute. }
  destruct (backbone_run_output cfg backbone_header vernacular_header
              taxon_rows names_rows blank 0 2 1 0 1 2
              eq_refl eq_refl eq_refl eq_refl eq_refl eq_refl
              Htaxon_rows Hnames_rows) as [Hcount Hfiles].
  split.
  - etransitivity; [exact Hcount|]. vm_compute. reflexivity.
  - pose proof (Hfiles "Plant_Flora" Hin) as Hfile.
    cbn [separate_vernacular_names cfg] in Hfile.
    etransitivity; [exact Hfile|]. vm_compute. reflexivity.
Defined.

(** ** The exceptions of a run *)

Lemma runs_ret {A} (P : state -> Prop) (a : A) : runs P (ret a) P.
Proof. by intros st HP. Qed.

Lemma runs_bind {A B} (P Q R : state -> Prop) (m : M A) (k : A -> M B) :
  runs P m Q -> (forall a, runs Q (k a) R) -> runs P (bind m k) R.
Proof.
  intros Hm Hk st HP. unfold bind. specialize (Hm st HP).
  destruct (m st) as [[a|e] st']; [by apply Hk | done].
Qed.

Lemma runs_get_bind {A} (P Q : state -> Prop) (k : state -> M A) :
  (forall st0, runs P (k st0) Q) -> runs P (bind get k) Q.
Proof. intros Hk st HP. by apply (Hk st). Qed.

Lemma runs_modify (P Q : state -> Prop) (f : state -> state) :
  (forall st, P st -> Q (f st)) -> runs P (modify f) Q.
Proof. intros Hf st HP. by apply Hf. Qed.

Lemma runs_weaken {A} (P P' Q Q' : state -> Prop) (m : M A) :
  (forall st, P' st -> P st) -> (forall st, Q st -> Q' st) ->
  runs P m Q -> runs P' m Q'.
Proof.
  intros HP HQ Hm st HP'. specialize (Hm st (HP st HP')).
  destruct (m st) as [[a|e] st']; [by apply HQ | done].
Qed.

Lemma runs_for_each {A} (P : state -> Prop) (body : A -> M unit)
    (xs : list A) :
  (forall x, runs P (body x) P) -> runs P (for_each body xs) P.
Proof.
  intros Hbody. induction xs as [|x xs IH]; simpl.
  - apply runs_ret.
  - apply (runs_bind P P P); [apply Hbody | intros _; apply IH].
Qed.

Lemma runs_for_fold {A S} (P : state -> Prop) (body : A -> S -> M S)
    (xs : list A) (s : S) :
  (forall x s', runs P (body x s') P) -> runs P (for_fold body xs s) P.
Proof.
  intros Hbody. revert s. induction xs as [|x xs IH]; intros s; simpl.
  - apply runs_ret.
  - apply (runs_bind P P P); [apply Hbody | intros s'; apply IH].
Qed.

Lemma ready_subseteq (cs cs' : list column) (st : state) :
  (forall c, c ∈ cs' -> c ∈ cs) -> ready cs st -> ready cs' st.
Proof.
  intros Hsub [Hcols Hopen]. split; [|exact Hopen].
  intros c Hc. by apply Hcols, Hsub.
Qed.

Ltac in_list :=
  repeat first [apply list_elem_of_here | apply list_elem_of_further].

(** A located column is read, or the row is too short. *)
Lemma runs_row_get (cs : list column) (c : column) (row : list string) :
  c ∈ cs -> runs (ready cs) (row_get c row) (ready cs).
Proof.
  intros Hc st Hready. unfold row_get, bind, get. simpl.
  destruct (proj1 Hready c Hc) as [i ->].
  destruct (row !! i); simpl; [done | by right].
Qed.

(** A column is located, or the header does not have it. *)
Lemma runs_set_column (cs : list column) (c : column) (key : string)
    (header : list string) :
  runs (ready cs) (set_column c key header) (ready (c :: cs)).
Proof.
  intros st [Hcols Hopen]. unfold set_column.
  destruct (index key header) as [i|]; simpl; [|by left].
  split; [|exact Hopen]. intros c' Hc'. simpl.
  destruct (decide (c = c')) as [<-|Hne].
  - rewrite fn_lookup_insert. by eexists.
  - rewrite fn_lookup_insert_ne by done. apply Hcols.
    apply elem_of_cons in Hc' as [->|Hc']; [done | exact Hc'].
Qed.

(** The file of a class is always there. *)
Lemma runs_write (cs : list column)
    (out_files : state -> gmap string handle) (clazz line : string) :
  (forall st, ready cs st -> is_Some (out_files st !! clazz)) ->
  runs (ready cs) (write out_files clazz line) (ready cs).
Proof.
  intros Hopen st Hready. unfold write, bind, get. simpl.
  destruct (Hopen st Hready) as [h ->]. simpl. exact Hready.
Qed.

Lemma runs_write_tx (cs : list column) (kingdom line : string) :
  runs (ready cs) (write out_files_tx (classify kingdom) line) (ready cs).
Proof.
  apply runs_write. intros st [_ Hopen].
  apply Hopen, classify_in_classes.
Qed.

Lemma runs_write_vn (cs : list column) (kingdom line : string) :
  runs (ready cs) (write out_files_vn (classify kingdom) line) (ready cs).
Proof.
  apply runs_write. intros st [_ Hopen].
  apply Hopen, classify_in_classes.
Qed.

Lemma runs_backbone_taxon_row (line : list string) :
  let cs := [kingdom_id; canonical_name_id; taxon_id] in
  runs (ready cs) (Backbone.read_taxon_row line) (ready cs).
Proof.
  intros cs.
  unfold Backbone.read_taxon_row, get_taxon_id, Backbone.get_name,
    get_kingdom.
  apply (runs_bind _ (ready cs)); [apply runs_row_get; in_list|].
  intros tid.
  apply (runs_bind _ (ready cs)); [apply runs_row_get; in_list|].
  intros name.
  destruct (_ || _); [apply runs_ret|].
  apply (runs_bind _ (ready cs)); [apply runs_row_get; in_list|].
  intros kingdom.
  apply (runs_bind _ (ready cs)); [by apply runs_modify|].
  intros _. apply runs_write_tx.
Qed.

Lemma runs_col_get_name
    (strip_author_pattern_match : string -> option string) (cfg : config)
    (cs : list column) (row : list string) :
  (forall c, c ∈ [generic_name_id; specific_epithet_id;
                  infraspecific_epithet_id; scientific_name_id] -> c ∈ cs) ->
  runs (ready cs)
    (CatalogueOfLife.get_name strip_author_pattern_match cfg row) (ready cs).
Proof.
  intros Hcs. unfold CatalogueOfLife.get_name.
  destruct (build_from_generic_name cfg).
  - apply (runs_bind _ (ready cs));
      [apply runs_row_get, Hcs; in_list | intros generic_name].
    apply (runs_bind _ (ready cs));
      [apply runs_row_get, Hcs; in_list | intros specific_epithet].
    apply (runs_bind _ (ready cs));
      [apply runs_row_get, Hcs; in_list | intros infraspecific_epithet].
    apply runs_ret.
  - apply (runs_bind _ (ready cs));
      [apply runs_row_get, Hcs; in_list | intros name].
    destruct (strip_author cfg); [|apply runs_ret].
    destruct (strip_author_pattern_match name); apply runs_ret.
Qed.

Lemma runs_col_taxon_row
    (strip_author_pattern_match : string -> option string) (cfg : config)
    (row : list string) :
  let cs := [infraspecific_epithet_id; specific_epithet_id; genus_id;
             generic_name_id; kingdom_id; scientific_name_id;
             accepted_name_usage_id; identifier_id; taxon_id] in
  runs (ready cs)
    (CatalogueOfLife.read_taxon_row strip_author_pattern_match cfg row)
    (ready cs).
Proof.
  intros cs.
  unfold CatalogueOfLife.read_taxon_row, get_taxon_id,
    CatalogueOfLife.get_identifier, get_kingdom.
  apply (runs_bind _ (ready cs)); [apply runs_row_get; in_list|].
  intros tid.
  apply (runs_bind _ (ready cs)); [apply runs_row_get; in_list|].
  intros identifier.
  apply (runs_bind _ (ready cs)); [apply runs_row_get; in_list|].
  intros accepted.
  apply (runs_bind _ (ready cs)); [by apply runs_modify | intros _].
  apply (runs_bind _ (ready cs)); [| intros name].
  { apply runs_col_get_name. intros c Hc.
    repeat (apply elem_of_cons in Hc as [-> | Hc]; [in_list|]).
    by apply elem_of_nil in Hc. }
  destruct (_ || _); [apply runs_ret|].
  apply (runs_bind _ (ready cs)); [apply runs_row_get; in_list|].
  intros kingdom.
  apply (runs_bind _ (ready cs)); [by apply runs_modify | intros _].
  destruct (_ || _).
  - apply runs_get_bind. intros st0. by apply runs_modify.
  - apply (runs_bind _ (ready cs)); [apply runs_write_tx | intros _].
    apply runs_get_bind. intros st0.
    apply runs_for_each. intros [other_name other_taxon_id]. simpl.
    apply (runs_bind _ (ready cs)); [apply runs_write_tx | intros _].
    by apply runs_modify.
Qed.

Lemma runs_vernacular_row (p : processor) (cfg : config)
    (row : list string) (counts : nat * nat) :
  let cs := [vernacular_name_id; language_id; taxon_id] in
  runs (ready cs) (read_vernacular_row_of p cfg row counts) (ready cs).
Proof.
  intros cs. destruct p; simpl.
  - unfold Backbone.read_vernacular_row, get_taxon_id, get_vernacular_name,
      get_language.
    apply (runs_bind _ (ready cs)); [apply runs_row_get; in_list|].
    intros tid.
    apply (runs_bind _ (ready cs)); [apply runs_row_get; in_list|].
    intros name.
    apply (runs_bind _ (ready cs)); [apply runs_row_get; in_list|].
    intros lang.
    destruct (any_filter_lang _ _); [|apply runs_ret].
    apply (runs_bind _ (ready cs)); [| intros _; apply runs_ret].
    apply runs_for_each. intros part.
    unfold Backbone.write_vernacular_name.
    apply runs_get_bind. intros st0. apply runs_write_vn.
  - unfold CatalogueOfLife.read_vernacular_row, get_taxon_id,
      get_vernacular_name, get_language.
    apply (runs_bind _ (ready cs)); [apply runs_row_get; in_list|].
    intros tid.
    apply runs_get_bind. intros st0.
    apply (runs_bind _ (ready cs)); [apply runs_row_get; in_list|].
    intros name.
    apply (runs_bind _ (ready cs)); [apply runs_row_get; in_list|].
    intros lang.
    destruct (any_filter_lang _ _); [|apply runs_ret].
    apply (runs_bind _ (ready cs)); [| intros _; apply runs_ret].
    apply runs_for_each. intros part.
    unfold CatalogueOfLife.write_vernacular_name.
    apply runs_get_bind. intros st1. apply runs_write_vn.
Qed.

Ltac runs_header :=
  repeat (eapply runs_bind; [apply runs_set_column | intros _]);
  apply runs_ret.

Lemma runs_taxon_tsv (p : processor)
    (strip_author_pattern_match : string -> option string) (cfg : config)
    (reader : list (list string)) :
  runs (ready [])
    (read_taxon_tsv_of p strip_author_pattern_match cfg reader) (ready []).
Proof.
  destruct p; simpl.
  - unfold Backbone.read_taxon_tsv, Backbone.process_taxon_header.
    destruct reader as [|header rows].
    + intros st Hready. exact Hready.
    + eapply runs_bind; [runs_header | intros rows'].
      eapply runs_weaken;
        [ | | apply runs_for_each; apply runs_backbone_taxon_row];
        [done | intros st; apply ready_subseteq; intros c Hc; by apply elem_of_nil in Hc].
  - unfold CatalogueOfLife.read_taxon_tsv,
      CatalogueOfLife.process_taxon_header.
    destruct reader as [|header rows].
    + intros st Hready. exact Hready.
    + eapply runs_bind; [runs_header | intros rows'].
      eapply runs_weaken;
        [ | | apply runs_for_each; apply runs_col_taxon_row];
        [done | intros st; apply ready_subseteq; intros c Hc; by apply elem_of_nil in Hc].
Qed.

Lemma runs_vernacular_tsv (p : processor) (cfg : config)
    (reader : list (list string)) :
  runs (ready []) (read_vernacular_names_tsv_of p cfg reader) (ready []).
Proof.
  destruct p; simpl.
  - unfold Backbone.read_vernacular_names_tsv,
      Backbone.process_vernacular_names_header.
    destruct reader as [|header rows].
    + intros st Hready. exact Hready.
    + eapply runs_bind; [runs_header | intros rows'].
      eapply runs_weaken;
        [ | | apply runs_for_fold; intros row counts;
              apply (runs_vernacular_row BackboneProcessor)];
        [done | intros st; apply ready_subseteq; intros c Hc; by apply elem_of_nil in Hc].
  - unfold CatalogueOfLife.read_vernacular_names_tsv,
      process_vernacular_names_header.
    destruct reader as [|header rows].
    + intros st Hready. exact Hready.
    + eapply runs_bind; [runs_header | intros rows'].
      eapply runs_weaken;
        [ | | apply runs_for_fold; intros row counts;
              apply (runs_vernacular_row CatalogueOfLifeProcessor)];
        [done | intros st; apply ready_subseteq; intros c Hc; by apply elem_of_nil in Hc].
Qed.

Lemma init_base_ready (cfg : config) (st : state) :
  ready [] (init_base cfg st).2.
Proof.
  destruct (init_base_opens cfg st) as (_ & _ & Hopen & _).
  split; [by intros c Hc; apply elem_of_nil in Hc|].
  intros clazz Hin. destruct (Hopen clazz Hin) as (-> & -> & _).
  split; by eexists.
Qed.

(** X16: where the exceptions of [process] come from.  With the output
    files of all classes open (as the constructor leaves them), and
    whatever the two input files deliver and the object holds otherwise:
    when [process] raises, the exception is ValueError (a header without
    one of its columns), IndexError (a row shorter than a column
    position), or the exception that ended the reading of one of the two
    input files.  So the statements of the passes themselves raise no
    TypeError or AttributeError from a column attribute that is still
    unset, and no KeyError from a class without an output file: every
    kingdom, known or not, maps to a class that has files.  An exception
    that ends the reading of the taxon file after rows that were
    processed without error is raised with the output of these rows
    written, and the vernacular file is not read.  When both files are
    read to their end, [process] is the two passes over the delivered
    rows.  (Writing to an open output file, closing it and printing the
    report are taken to succeed, as everywhere in the embedding.) *)
Theorem process_raises_table_or_reader_errors (p : processor)
    (strip_author_pattern_match : string -> option string) (cfg : config)
    (taxon_file vernacular_name_file : csv_reader) (st : state) :
  ready [] st ->
  let read_taxon_tsv := read_taxon_tsv_of p strip_author_pattern_match cfg in
  let read_vernacular_names_tsv := read_vernacular_names_tsv_of p cfg in
  let result :=
    process_files read_taxon_tsv read_vernacular_names_tsv taxon_file
      vernacular_name_file st in
  (forall e, result.1 = Raise e ->
             e = ValueError \/ e = IndexError \/
             ending taxon_file = Some e \/
             ending vernacular_name_file = Some e) /\
  (forall e, ending taxon_file = Some e ->
             (read_taxon_tsv (delivered taxon_file) st).1 = Ok tt ->
             result
             = (Raise e, (read_taxon_tsv (delivered taxon_file) st).2)) /\
  (ending taxon_file = None -> ending vernacular_name_file = None ->
   result
   = process read_taxon_tsv read_vernacular_names_tsv
       (delivered taxon_file) (delivered vernacular_name_file) st).
Proof.
  intros Hready read_taxon_tsv read_vernacular_names_tsv result.
  subst result. unfold process_files, read_from, process.
  split; [|split].
  - intros e.
    pose proof (runs_taxon_tsv p strip_author_pattern_match cfg
                  (delivered taxon_file) st Hready) as Htaxon.
    fold read_taxon_tsv in Htaxon. unfold bind at 1 2.
    destruct (read_taxon_tsv (delivered taxon_file) st) as [[[]|e1] st1].
    2: { simpl. intros [= <-]. destruct Htaxon; auto. }
    destruct (ending taxon_file) as [e1|]; simpl.
    { intros [= <-]. auto. }
    pose proof (runs_vernacular_tsv p cfg (delivered vernacular_name_file)
                  st1 Htaxon) as Hnames.
    fold read_vernacular_names_tsv in Hnames. unfold bind.
    destruct (read_vernacular_names_tsv (delivered vernacular_name_file) st1)
      as [[counts|e2] st2].
    2: { simpl. intros [= <-]. destruct Hnames; auto. }
    destruct (ending vernacular_name_file) as [e2|]; simpl; [|done].
    intros [= <-]. auto.
  - intros e He Hok. rewrite He. unfold bind at 1 2.
    destruct (read_taxon_tsv (delivered taxon_file) st) as [[[]|e1] st1];
      [done | discriminate].
  - intros -> ->. unfold bind.
    destruct (read_taxon_tsv (delivered taxon_file) st) as [[[]|e1] st1];
      [|done].
    simpl.
    by destruct (read_vernacular_names_tsv
                   (delivered vernacular_name_file) st1) as [[counts|e2] st2].
Qed.

Lemma process_raises_table_or_reader_errors_witness :
  let cfg := Config true None true false in
  let st := (init_base cfg blank).2 in
  let taxon_file :=
    CsvReader [backbone_header; ["1"; "Plantae"; "Rosa canina"]]
      (Some CsvError) in
  let vernacular_name_file := CsvReader [] None in
  let result :=
    process_files
      (read_taxon_tsv_of BackboneProcessor (fun _ => None) cfg)
      (read_vernacular_names_tsv_of BackboneProcessor cfg)
      taxon_file vernacular_name_file st in
  result.1 = Raise CsvError /\
  (CsvError = ValueError \/ CsvError = IndexError \/
   ending taxon_file = Some CsvError \/
   ending vernacular_name_file = Some CsvError) /\
  files result.2 !! ("Plant_Flora", "_tx")
  = Some ["Rosa canina"
          +:+ String "009"%char ("https://www.gbif.org/species/1"
                                 +:+ String "010"%char "")].
Proof.
  intros cfg st taxon_file vernacular_name_file result.
  assert (Hraise : result.1 = Raise CsvError) by (vm_compute; reflexivity).
  pose proof (process_raises_table_or_reader_errors BackboneProcessor
                (fun _ => None) cfg taxon_file vernacular_name_file st
                (init_base_ready cfg blank)) as Hprocess.
  cbv zeta in Hprocess. fold result in Hprocess.
  destruct Hprocess as (Hraises & _ & _).
  split; [exact Hraise|]. split; [exact (Hraises CsvError Hraise)|].
  vm_compute. reflexivity.
Defined.
